(** * FleetLogix synthetic-data generator: a shallow embedding

    Source: [scripts/01_data_generation.py] (class [DataGenerator]).

    Conventions of the embedding:
    - Python [int] is [Z] (or [nat] for list indices and loop counters that
      are never negative); numpy [int64] cells hold values far below 2^63
      here, so they are [Z] as well.
    - Python [float] is modelled by exact rationals [Q]: what is proved about
      a float quantity is proved about the exact value it approximates.
    - A call into a random generator is an explicit input, the raw draw; the
      library function that shapes it ([random.random], [random.uniform],
      [random.randint], [random.choice], [numpy.random.choice]) is embedded.
    - [datetime.now()] is an explicit input, the clock.
    - A [while] loop whose termination is not structural takes fuel and
      reports [OutOfFuel] when it is used up. *)

From Stdlib Require Import ZArith QArith Qround Lia Lqa String Ascii.
From Stdlib Require Import DecimalString DecimalN DecimalPos DecimalFacts.
From stdpp Require Import base list strings.

Open Scope Z_scope.

(* ====================================================================== *)
(** * Part I. The embedding                                                 *)
(* ====================================================================== *)

(** ** Python runtime *)

Module Py.

Inductive exn : Type :=
| RuntimeError (msg : string)
| IndexError
| ValueError
| ZeroDivisionError.

(** Result of running a piece of code. *)
Inductive outcome (A : Type) : Type :=
| Returned (a : A)
| Raised (e : exn)
| OutOfFuel.
Arguments Returned {A} a.
Arguments Raised {A} e.
Arguments OutOfFuel {A}.

(** [ndarray.sum()] on an integer array. *)
Definition sum (l : list Z) : Z := foldr Z.add 0 l.

(** [ndarray.sum()] on a float array. *)
Definition fsum (l : list Q) : Q := foldr Qplus 0%Q l.

(** *** Random generators

    [random.random()] and numpy's [random_sample()] return a multiple of
    2^-53 in [0, 1): the raw draw is the 53-bit numerator. *)
Definition two53 : positive := 9007199254740992.

Definition random_unit (raw : N) : Q := Z.of_N (raw mod Npos two53) # two53.

(** [random.uniform(a, b)] is [a + (b - a) * random()]. *)
Definition uniform (a b : Q) (raw : N) : Q := (a + (b - a) * random_unit raw)%Q.

(** [random.randint(a, b)] for [a <= b]: [a + randbelow(b - a + 1)]. *)
Definition randint (a b : Z) (raw : N) : Z := a + Z.of_N raw mod (b - a + 1).

(** [random.choice(seq)] is [seq[randbelow(len(seq))]]; [None] stands for
    the [IndexError] on an empty sequence. *)
Definition choice {A : Type} (seq : list A) (raw : N) : option A :=
  seq !! (N.to_nat raw mod length seq)%nat.

(** [numpy.cumsum]. *)
Fixpoint cumsum (acc : Q) (p : list Q) : list Q :=
  match p with
  | [] => []
  | x :: p' => (acc + x)%Q :: cumsum (acc + x)%Q p'
  end.

(** [cdf.searchsorted(u, side='right')] on a sorted array: the first index
    whose entry exceeds [u]. *)
Fixpoint searchsorted_right (cdf : list Q) (u : Q) : nat :=
  match cdf with
  | [] => O
  | c :: cdf' => if Qle_bool c u then S (searchsorted_right cdf' u) else O
  end.

(** [numpy.random.choice(a, p=p)], one sample, by inversion of the
    cumulative distribution: [cdf = p.cumsum(); cdf /= cdf[-1];
    idx = cdf.searchsorted(random_sample(), side='right'); a[idx]].
    [None] stands for the exception on an empty [p] or an index outside [a]. *)
Definition np_choice {A : Type} (a : list A) (p : list Q) (raw : N) : option A :=
  let cdf := cumsum 0 p in
  match last cdf with
  | None => None
  | Some total => a !! searchsorted_right ((fun c => c / total)%Q <$> cdf) (random_unit raw)
  end.

(** *** Numbers *)

(** Rounding to the nearest integer, ties to even: the rounding of
    [round] and of [timedelta] on floats. *)
Definition round_half_even (x : Q) : Z :=
  let f := Qfloor x in
  match (x - inject_Z f ?= 1 # 2)%Q with
  | Lt => f
  | Gt => f + 1
  | Eq => if Z.even f then f else f + 1
  end.

(** [round(x, 2)]. *)
Definition round2 (x : Q) : Q := (inject_Z (round_half_even (x * 100)) / 100)%Q.

(** [int(x)] on a float: truncation towards zero. *)
Definition int_of_float (x : Q) : Z := if Qle_bool 0 x then Qfloor x else Qceiling x.

(** [max(a, b)] on floats. *)
Definition fmax (a b : Q) : Q := if Qle_bool a b then b else a.

(** *** [datetime]

    A naive [datetime] is its number of microseconds since
    0001-01-01T00:00:00, a [timedelta] a number of microseconds, a [date] a
    number of days since 0001-01-01.  The range check of the library (years
    1 to 9999, [OverflowError]) is left out. *)
Definition datetime : Type := Z.
Definition timedelta : Type := Z.
Definition date : Type := Z.

Definition US_PER_MINUTE : Z := 60000000.
Definition US_PER_HOUR : Z := 3600000000.
Definition US_PER_DAY : Z := 86400000000.

(** [timedelta(days=d)], [timedelta(minutes=m)] on integers. *)
Definition timedelta_days (d : Z) : timedelta := d * US_PER_DAY.
Definition timedelta_minutes (m : Z) : timedelta := m * US_PER_MINUTE.

(** [timedelta(hours=h)] on a float: rounded to the microsecond, ties to even. *)
Definition timedelta_hours (h : Q) : timedelta :=
  round_half_even (h * inject_Z US_PER_HOUR).

(** [td.total_seconds()] and [td.days]. *)
Definition total_seconds (td : timedelta) : Q := (inject_Z td / 1000000)%Q.
Definition days (td : timedelta) : Z := td / US_PER_DAY.

(** [dt.date()] and [d + timedelta(days=n)] on dates. *)
Definition date_of (dt : datetime) : date := dt / US_PER_DAY.

(** [dt.replace(hour=h, minute=m, second=0, microsecond=0)]. *)
Definition replace_time (dt : datetime) (hour minute : Z) : datetime :=
  date_of dt * US_PER_DAY + hour * US_PER_HOUR + minute * US_PER_MINUTE.

(** [dt.year]: the year of the proleptic Gregorian ordinal, as
    [_ord2ymd] of the library computes it. *)
Definition year_of (dt : datetime) : Z :=
  let n := date_of dt in
  let n400 := n / 146097 in
  let n := n mod 146097 in
  let n100 := n / 36524 in
  let n := n mod 36524 in
  let n4 := n / 1461 in
  let n := n mod 1461 in
  let n1 := n / 365 in
  let year := n400 * 400 + 1 + n100 * 100 + n4 * 4 + n1 in
  if (n1 =? 4) || (n100 =? 4) then year - 1 else year.

End Py.

Import Py.

(** ** CardinalityAllocator: the [per_trip] adjustment of [generate_deliveries] *)

Module Allocator.

Definition msg_no_capacity : string :=
  "No hay capacidad para alcanzar el target con máximo 6 por trip.".
Definition msg_no_reduction : string :=
  "No es posible reducir hasta el target manteniendo mínimo 2 por trip.".

(** [while diff > 0: if per_trip[i] < 6: per_trip[i] += 1; diff -= 1
     i = (i + 1) % n_trips].  The array is threaded through and returned
    with the outcome, so that its content at a raise is observable. *)
Fixpoint raise_loop (fuel n_trips : nat) (per_trip : list Z) (diff : Z) (i : nat)
  : list Z * outcome unit :=
  match fuel with
  | O => (per_trip, OutOfFuel)
  | S fuel' =>
      if 0 <? diff then
        match per_trip !! i with
        | None => (per_trip, Raised IndexError)
        | Some c =>
            let '(per_trip', diff') :=
              if c <? 6 then (<[i := c + 1]> per_trip, diff - 1)
              else (per_trip, diff) in
            match n_trips with
            | O => (per_trip', Raised ZeroDivisionError)
            | _ => raise_loop fuel' n_trips per_trip' diff' ((i + 1) mod n_trips)%nat
            end
        end
      else (per_trip, Returned tt)
  end.

(** [while need > 0: if per_trip[i] > 2: per_trip[i] -= 1; need -= 1
     i = (i + 1) % n_trips]. *)
Fixpoint lower_loop (fuel n_trips : nat) (per_trip : list Z) (need : Z) (i : nat)
  : list Z * outcome unit :=
  match fuel with
  | O => (per_trip, OutOfFuel)
  | S fuel' =>
      if 0 <? need then
        match per_trip !! i with
        | None => (per_trip, Raised IndexError)
        | Some c =>
            let '(per_trip', need') :=
              if 2 <? c then (<[i := c - 1]> per_trip, need - 1)
              else (per_trip, need) in
            match n_trips with
            | O => (per_trip', Raised ZeroDivisionError)
            | _ => lower_loop fuel' n_trips per_trip' need' ((i + 1) mod n_trips)%nat
            end
        end
      else (per_trip, Returned tt)
  end.

Definition choices : list Z := [2; 3; 4; 5; 6].
Definition probs : list Q := [0.10; 0.20; 0.40; 0.20; 0.10]%Q.

(** [per_trip = np.random.choice(choices, size=n_trips, p=probs)]: the
    [k]-th cell is shaped from the [k]-th raw draw [u k]. *)
Definition initial_draw (n_trips : nat) (u : nat → N) : option (list Z) :=
  mapM (fun k => np_choice choices probs (u k)) (seq 0 n_trips).

(** Lines 497-529: the correction of the initial draw [per_trip] towards
    [target].  Returns the final content of the array and the outcome. *)
Definition adjust (fuel : nat) (per_trip : list Z) (target : Z)
  : list Z * outcome unit :=
  let n_trips := length per_trip in
  let current_total := sum per_trip in
  let diff := target - current_total in
  if 0 <? diff then
    let capacity := sum ((fun c => 6 - c) <$> per_trip) in
    if capacity <? diff then (per_trip, Raised (RuntimeError msg_no_capacity))
    else raise_loop fuel n_trips per_trip diff 0
  else if diff <? 0 then
    let need := - diff in
    let capacity := sum ((fun c => c - 2) <$> per_trip) in
    if capacity <? need then (per_trip, Raised (RuntimeError msg_no_reduction))
    else lower_loop fuel n_trips per_trip need 0
  else (per_trip, Returned tt).

(** The common shape of the two loops, for the proofs: [can c] tests
    whether a cell may move, [step c] moves it. *)
Fixpoint nudge_loop (can : Z → bool) (step : Z → Z)
    (fuel n : nat) (l : list Z) (d : Z) (i : nat) : list Z * outcome unit :=
  match fuel with
  | O => (l, OutOfFuel)
  | S fuel' =>
      if 0 <? d then
        match l !! i with
        | None => (l, Raised IndexError)
        | Some c =>
            let '(l', d') := if can c then (<[i := step c]> l, d - 1) else (l, d) in
            match n with
            | O => (l', Raised ZeroDivisionError)
            | _ => nudge_loop can step fuel' n l' d' ((i + 1) mod n)%nat
            end
        end
      else (l, Returned tt)
  end.

(** The moves the cells of [l] have left, [slack c] for a cell [c]. *)
Definition total_slack (slack : Z → Z) (l : list Z) : Z := sum (slack <$> l).

(** The per-trip bound: 2 to 6 deliveries. *)
Definition in_bounds (c : Z) : Prop := 2 ≤ c ≤ 6.

(** Lines 493-529: draw, then correct. *)
Definition allocate (fuel n_trips : nat) (u : nat → N) (target : Z)
  : list Z * outcome unit :=
  match initial_draw n_trips u with
  | None => ([], Raised ValueError)
  | Some per_trip => adjust fuel per_trip target
  end.

End Allocator.

(** ** WeightDistributor *)

(** [np.clip(raw, 0.5, None)], cell by cell. *)
Definition clip_min (lo x : Q) : Q := if Qle_bool lo x then x else lo.

(** [_distribute_weight_lognormal(total_weight, num_packages)].  The
    lognormal samples are the inputs [draw 0 .. draw (num_packages - 1)]. *)
Definition _distribute_weight_lognormal
    (draw : nat → Q) (total_weight : Q) (num_packages : nat) : list Q :=
  let raw := draw <$> seq 0 num_packages in
  let raw := clip_min 0.5 <$> raw in
  let scaled := (fun r => r / fsum raw * (total_weight * 0.95))%Q <$> raw in
  scaled.

(** ** TemporalScheduler: hour selection *)

(** [dict.get(key, default)] on a literal dictionary. *)
Fixpoint dict_get {K V : Type} `{EqDecision K} (d : list (K * V)) (key : K) (default : V) : V :=
  match d with
  | [] => default
  | (k, v) :: d' => if decide (k = key) then v else dict_get d' key default
  end.

(** [enumerate(l)]. *)
Definition enumerate {A : Type} (l : list A) : list (nat * A) := zip (seq 0 (length l)) l.

Module Hourly.

Definition hours : list nat := seq 6 17.

Definition weights : list (nat * Z) :=
  [(6%nat, 4); (7%nat, 6); (8%nat, 10); (9%nat, 10); (10%nat, 8); (11%nat, 6);
   (12%nat, 5); (13%nat, 5); (14%nat, 9); (15%nat, 9); (16%nat, 8); (17%nat, 6);
   (18%nat, 6); (19%nat, 4); (20%nat, 2); (21%nat, 2); (22%nat, 1)].

(** [probs = np.array([weights.get(h, 1) for h in hours]); probs / probs.sum()]. *)
Definition probs : list Q :=
  let probs := (fun h => inject_Z (dict_get weights h 1)) <$> hours in
  (fun x => x / fsum probs)%Q <$> probs.

(** [full = np.zeros(24); for i, h in enumerate(hours): full[h] = probs[i]]. *)
Definition _hourly_distribution_full_24 : list Q :=
  foldl (fun full '(i, h) =>
           match probs !! i with
           | Some p => <[h := p]> full
           | None => full
           end)
        (replicate 24 0%Q) (enumerate hours).

End Hourly.

(** Lines 416-418 of [generate_trips]:
    [hour = np.random.choice(range(24), p=p_hour); if hour < 6: hour = 6]. *)
Definition draw_hour (p_hour : list Q) (raw : N) : option nat :=
  match np_choice (seq 0 24) p_hour raw with
  | None => None
  | Some hour => Some (if (hour <? 6)%nat then 6%nat else hour)
  end.

(** ** Reference catalogues *)

(** (type, cap_min, cap_max, fuel, consumption range in L/100km). *)
Definition VEHICLE_TYPES : list (string * Z * Z * string * (Q * Q)) :=
  [("Camión Grande", 12000, 18000, "diesel", (25, 35)%Q);
   ("Camión Mediano", 6000, 9000, "diesel", (18, 26)%Q);
   ("Van", 1000, 1500, "gasolina", (9, 15)%Q);
   ("Motocicleta", 50, 150, "gasolina", (2, 4)%Q)].

(** (name, base cost, days until the next one). *)
Definition MAINTENANCE_TYPES : list (string * Z * Z) :=
  [("Cambio de aceite", 150000, 30);
   ("Revisión de frenos", 250000, 60);
   ("Cambio de llantas", 450000, 90);
   ("Mantenimiento general", 350000, 45);
   ("Revisión de motor", 500000, 60);
   ("Alineación y balanceo", 180000, 30)].

(** Lines 218-219 of [generate_vehicles]:
    [vtype, cap_min, cap_max, fuel, _cons = random.choice(VEHICLE_TYPES);
     capacity = random.randint(cap_min, cap_max)]. *)
Definition draw_vehicle (raw_type raw_capacity : N) : option (string * Z * string) :=
  match choice VEHICLE_TYPES raw_type with
  | Some (vtype, cap_min, cap_max, fuel, _cons) =>
      Some (vtype, randint cap_min cap_max raw_capacity, fuel)
  | None => None
  end.

(** ** [generate_trips] *)

Module Trips.

Inductive trip_status : Type := completed | in_progress.

(** The results of the generator calls of one iteration, in call order. *)
Record trip_draws : Type := {
  d_vehicle : N;   (* random.choice(vehicles) *)
  d_driver : N;    (* random.choice(drivers) *)
  d_route : N;     (* random.choice(routes) *)
  d_hour : N;      (* np.random.choice(range(24), p=p_hour) *)
  d_minute : N;    (* random.randint(0, 59) *)
  d_realism : N;   (* random.uniform(0.85, 1.15) *)
  d_l100 : N;      (* random.uniform over cons_ranges.get(vtype, (10, 20)) *)
  d_fuel : N;      (* random.uniform(0.95, 1.05) *)
  d_weight : N     (* random.uniform(0.4, 0.9) *)
}.

Record trip_row : Type := {
  vehicle_id : Z;
  driver_id : Z;
  route_id : Z;
  departure_datetime : datetime;
  arrival_datetime : option datetime;
  fuel_consumed_liters : Q;
  total_weight_kg : Q;
  status : trip_status
}.

Definition msg_missing_base : string := "Faltan datos base (vehicles/drivers/routes).".

Definition cons_ranges : list (string * (Q * Q)) :=
  [("Camión Grande", (25, 35)%Q);
   ("Camión Mediano", (18, 26)%Q);
   ("Van", (9, 15)%Q);
   ("Motocicleta", (2, 4)%Q)].

(** The body of [for _ in range(count)], lines 410-449; [now] is the
    reading of [datetime.now()] on line 436. *)
Definition trip_iteration (p_hour : list Q)
    (vehicles : list (Z * Z * string)) (drivers : list Z) (routes : list (Z * Q * Q))
    (now current_dt : datetime) (d : trip_draws) : outcome trip_row :=
  match choice vehicles (d_vehicle d), choice drivers (d_driver d),
        choice routes (d_route d) with
  | Some (vehicle_id, capacity, vtype), Some driver_id, Some (route_id, distance, est_dur) =>
      match draw_hour p_hour (d_hour d) with
      | None => Raised ValueError
      | Some hour =>
          let departure :=
            replace_time current_dt (Z.of_nat hour) (randint 0 59 (d_minute d)) in
          let base_dur := (distance / 70 + 1)%Q in
          let realism := uniform 0.85 1.15 (d_realism d) in
          let actual_dur := (fmax est_dur base_dur * realism)%Q in
          let arrival := departure + timedelta_hours actual_dur in
          let '(lo, hi) := dict_get cons_ranges vtype (10, 20)%Q in
          let l100 := uniform lo hi (d_l100 d) in
          let fuel := (distance * (l100 / 100) * uniform 0.95 1.05 (d_fuel d))%Q in
          let total_weight := (inject_Z capacity * uniform 0.4 0.9 (d_weight d))%Q in
          let status := if arrival <? now then completed else in_progress in
          Returned {| vehicle_id := vehicle_id;
                      driver_id := driver_id;
                      route_id := route_id;
                      departure_datetime := departure;
                      arrival_datetime :=
                        match status with completed => Some arrival | in_progress => None end;
                      fuel_consumed_liters := round2 fuel;
                      total_weight_kg := round2 total_weight;
                      status := status |}
      end
  | _, _, _ => Raised IndexError
  end.

(** [for _ in range(count): ...; current_dt += timedelta(minutes=minutes_step)]:
    [k] iterations are done, [remaining] are left.  Iteration [k] takes the
    draws [draws k] and the clock reading [clock (S k)]. *)
Fixpoint trips_loop (clock : nat → datetime) (draws : nat → trip_draws) (p_hour : list Q)
    (vehicles : list (Z * Z * string)) (drivers : list Z) (routes : list (Z * Q * Q))
    (minutes_step : Z) (remaining k : nat) (current_dt : datetime) (rows : list trip_row)
  : outcome (list trip_row) :=
  match remaining with
  | O => Returned rows
  | S remaining' =>
      match trip_iteration p_hour vehicles drivers routes (clock (S k)) current_dt (draws k) with
      | Returned row =>
          trips_loop clock draws p_hour vehicles drivers routes minutes_step
            remaining' (S k) (current_dt + timedelta_minutes minutes_step) (rows ++ [row])
      | Raised e => Raised e
      | OutOfFuel => OutOfFuel
      end
  end.

(** [generate_trips(count)]: the rows handed to the batched insert.
    [vehicles], [drivers] and [routes] are the results of the three
    queries; [clock 0] is the reading of line 395. *)
Definition generate_trips (clock : nat → datetime) (draws : nat → trip_draws)
    (vehicles : list (Z * Z * string)) (drivers : list Z) (routes : list (Z * Q * Q))
    (count : Z) : outcome (list trip_row) :=
  match vehicles, drivers, routes with
  | _ :: _, _ :: _, _ :: _ =>
      let start_date := clock 0%nat - timedelta_days 730 in
      let current_dt := start_date in
      let p_hour := Hourly._hourly_distribution_full_24 in
      if count =? 0 then Raised ZeroDivisionError
      else
        let minutes_step := int_of_float (inject_Z (2 * 365 * 24 * 60) / inject_Z count) in
        trips_loop clock draws p_hour vehicles drivers routes minutes_step
          (Z.to_nat count) 0 current_dt []
  | _, _, _ => Raised (RuntimeError msg_missing_base)
  end.

End Trips.

(** ** [generate_deliveries] *)

Module Deliveries.

Inductive delivery_status : Type := delivered | pending.

(** The results of the generator calls of one delivery. *)
Record delivery_draws : Type := {
  d_first_name : string;   (* fake.first_name() *)
  d_last_name : string;    (* fake.last_name() *)
  d_street : string;       (* fake.street_address() *)
  d_on_time : N;           (* random.random() < 0.9 *)
  d_minutes : N;           (* random.randint(-30, 30) or random.randint(60, 180) *)
  d_signature : N          (* random.random() < 0.95 *)
}.

Record delivery_row : Type := {
  trip_id : Z;
  tracking_number : string;
  customer_name : string;
  delivery_address : string;
  package_weight_kg : Q;
  scheduled_datetime : datetime;
  delivered_datetime : option datetime;
  delivery_status_ : delivery_status;
  recipient_signature : bool
}.

(** A row of the trips query:
    (trip_id, departure_datetime, arrival_datetime, total_weight_kg,
     destination_city). *)
Definition trip_info : Type := Z * datetime * option datetime * Q * string.

Definition msg_no_trips : string := "No hay trips para generar deliveries.".

(** [str(z)] on an integer. *)
Definition str (z : Z) : string := NilZero.string_of_int (Z.to_int z).

Fixpoint zeros (k : nat) : string :=
  match k with
  | O => EmptyString
  | S k' => String "0" (zeros k')
  end.

(** [s.zfill(width)]: zeros on the left, after a leading sign. *)
Definition zfill (width : nat) (s : string) : string :=
  let pad := zeros (width - String.length s) in
  match s with
  | String c rest =>
      if (Ascii.eqb c "+" || Ascii.eqb c "-")%bool
      then String c (pad ++ rest) else (pad ++ s)%string
  | EmptyString => pad
  end.

(** [f"FL{datetime.now().year}{str(counter).zfill(8)}"]. *)
Definition tracking (now : datetime) (counter : Z) : string :=
  ("FL" ++ str (year_of now) ++ zfill 8 (str counter))%string.

(** The number that a string of decimal digits denotes, for the proofs. *)
Definition digits_value (s : string) : option N :=
  option_map N.of_uint (NilEmpty.uint_of_string s).

(** Lines 543-547: the time between two deliveries of a trip, in hours. *)
Definition delivery_gap (departure : datetime) (arrival : option datetime) (n : Z) : Q :=
  match arrival with
  | Some arrival =>
      let total_hours := fmax (total_seconds (arrival - departure) / 3600) 1 in
      (total_hours / inject_Z n)%Q
  | None => 0.5%Q
  end.

(** [x < y] on floats. *)
Definition flt (x y : Q) : bool := negb (Qle_bool y x).

(** The body of [for i in range(int(n))], lines 550-587, for the delivery
    numbered [counter] (already incremented); [now] is the reading of
    [datetime.now()] on line 551. *)
Definition delivery_iteration (trip : trip_info) (weights : list Q) (gap : Q)
    (i counter : nat) (now : datetime) (d : delivery_draws) : outcome delivery_row :=
  let '(trip_id, departure, arrival, _, dest_city) := trip in
  match weights !! i with
  | None => Raised IndexError
  | Some w =>
      let tracking := tracking now (Z.of_nat counter) in
      let customer_name := (d_first_name d ++ " " ++ d_last_name d)%string in
      let address := (d_street d ++ ", " ++ dest_city)%string in
      let pkg_w := round2 w in
      let scheduled :=
        departure + timedelta_hours (gap * (inject_Z (Z.of_nat i) + 0.5)) in
      let '(delivered_at, status, signature) :=
        match arrival with
        | Some _ =>
            let delivered_at :=
              if flt (random_unit (d_on_time d)) 0.9
              then scheduled + timedelta_minutes (randint (-30) 30 (d_minutes d))
              else scheduled + timedelta_minutes (randint 60 180 (d_minutes d)) in
            (Some delivered_at, delivered, flt (random_unit (d_signature d)) 0.95)
        | None => (None, pending, false)
        end in
      Returned {| trip_id := trip_id;
                  tracking_number := tracking;
                  customer_name := customer_name;
                  delivery_address := address;
                  package_weight_kg := pkg_w;
                  scheduled_datetime := scheduled;
                  delivered_datetime := delivered_at;
                  delivery_status_ := status;
                  recipient_signature := signature |}
  end.

(** [for i in range(int(n)): counter += 1; ...; rows.append(...)]: [i]
    deliveries of the trip are done, [remaining] are left.  The delivery
    numbered [counter] takes the draws [draws counter] and the clock
    reading [clock counter]. *)
Fixpoint deliveries_of_trip (clock : nat → datetime) (draws : nat → delivery_draws)
    (trip : trip_info) (weights : list Q) (gap : Q)
    (remaining i counter : nat) (rows : list delivery_row)
  : outcome (nat * list delivery_row) :=
  match remaining with
  | O => Returned (counter, rows)
  | S remaining' =>
      let counter := S counter in
      match delivery_iteration trip weights gap i counter (clock counter) (draws counter) with
      | Returned row =>
          deliveries_of_trip clock draws trip weights gap remaining' (S i) counter
            (rows ++ [row])
      | Raised e => Raised e
      | OutOfFuel => OutOfFuel
      end
  end.

(** [for (trip_id, departure, arrival, total_weight, dest_city), n in
    zip(trips, per_trip)], lines 535-587; [t] trips are done.  Trip [t]
    takes the lognormal samples [lognormal t]. *)
Fixpoint deliveries_loop (lognormal : nat → nat → Q)
    (clock : nat → datetime) (draws : nat → delivery_draws)
    (pairs : list (trip_info * Z)) (t counter : nat) (rows : list delivery_row)
  : outcome (nat * list delivery_row) :=
  match pairs with
  | [] => Returned (counter, rows)
  | (trip, n) :: pairs' =>
      let '(_, departure, arrival, total_weight, _) := trip in
      let weights := _distribute_weight_lognormal (lognormal t) total_weight (Z.to_nat n) in
      let gap := delivery_gap departure arrival n in
      match deliveries_of_trip clock draws trip weights gap (Z.to_nat n) 0 counter rows with
      | Returned (counter', rows') =>
          deliveries_loop lognormal clock draws pairs' (S t) counter' rows'
      | Raised e => Raised e
      | OutOfFuel => OutOfFuel
      end
  end.

(** [generate_deliveries(target)]: the rows handed to the batched insert.
    [trips] is the result of the query; [u] are the raw draws of the
    initial per-trip counts. *)
Definition generate_deliveries (fuel : nat) (u : nat → N) (lognormal : nat → nat → Q)
    (clock : nat → datetime) (draws : nat → delivery_draws)
    (trips : list trip_info) (target : Z) : outcome (list delivery_row) :=
  let n_trips := length trips in
  match n_trips with
  | O => Raised (RuntimeError msg_no_trips)
  | _ =>
      match Allocator.allocate fuel n_trips u target with
      | (per_trip, Returned _) =>
          match deliveries_loop lognormal clock draws (zip trips per_trip) 0 0 [] with
          | Returned (_, rows) => Returned rows
          | Raised e => Raised e
          | OutOfFuel => OutOfFuel
          end
      | (_, Raised e) => Raised e
      | (_, OutOfFuel) => OutOfFuel
      end
  end.

(** The rows are numbered from 1 in the order they are appended: the
    invariant of the loops behind the tracking numbers. *)
Definition numbered (clock : nat → datetime) (counter : nat) (rows : list delivery_row)
  : Prop :=
  counter = length rows ∧
  ∀ j row, rows !! j = Some row →
           tracking_number row = tracking (clock (S j)) (Z.of_nat (S j)).


End Deliveries.

(** ** Seeding

    Lines 55-58: [random], [numpy.random] and [Faker] are seeded once, when
    the module is loaded, with [SEED].  From then on what the three
    generators return is fixed by the seed and by the calls made before.
    [seeded] collects what they return to the iterations of [generate_trips]
    and of [generate_deliveries], the two functions that also read the
    clock; a run takes these values from the generators seeded with
    [SEED]. *)



(** ** [generate_maintenance] *)

Module Maintenance.

(** The results of the generator calls of one event, after the threshold. *)
Record maintenance_draws : Type := {
  d_type : N;             (* random.choice(MAINTENANCE_TYPES) *)
  d_cost : N;             (* random.uniform(0.85, 1.20) *)
  d_first_name : string;  (* fake.first_name() *)
  d_last_name : string    (* fake.last_name() *)
}.

Record maintenance_row : Type := {
  vehicle_id : Z;
  maintenance_date : date;
  maintenance_type : string;
  description : string;
  cost : Q;
  next_maintenance_date : date;
  performed_by : string
}.

(** A row of the statistics query: (vehicle_id, vehicle_type, trip_count,
    first_trip, last_trip, total_km); the two timestamps are NULL for a
    vehicle without trips. *)
Definition vehicle_stats : Type := Z * string * Z * option datetime * option datetime * Q.

(** [10000 + random.uniform(-300, 300)]. *)
Definition draw_threshold (raw : N) : Q := (10000 + uniform (-300) 300 raw)%Q.

(** Lines 641-655: the row of the event reached at [km_cursor]. *)
Definition maintenance_event (vehicle_id : Z) (first_trip last_trip : datetime)
    (total_km km_cursor : Q) (d : maintenance_draws) : outcome maintenance_row :=
  let span_days := Z.max (days (last_trip - first_trip)) 1 in
  let frac := (km_cursor / total_km)%Q in
  let day_offset := int_of_float (frac * inject_Z span_days) in
  let m_date := date_of (first_trip + timedelta_days day_offset) in
  match choice MAINTENANCE_TYPES (d_type d) with
  | None => Raised IndexError
  | Some (maint_type, base_cost, days_next) =>
      let cost := round2 (inject_Z base_cost * uniform 0.85 1.20 (d_cost d)) in
      let next_m := m_date + days_next in
      let performed_by := (d_first_name d ++ " " ++ d_last_name d)%string in
      let desc := (maint_type ++ " programado")%string in
      Returned {| vehicle_id := vehicle_id;
                  maintenance_date := m_date;
                  maintenance_type := maint_type;
                  description := desc;
                  cost := cost;
                  next_maintenance_date := next_m;
                  performed_by := performed_by |}
  end.

(** [while (km_cursor + next_threshold) <= total_km and len(rows) < target],
    lines 637-657.  Every iteration appends a row, so the guard
    [len(rows) < target] is a budget of [target - len(rows)] iterations: the
    recursion is on that budget.  [q] counts the thresholds drawn so far;
    the event appended in position [j] takes the draws [draws j]. *)
Fixpoint vehicle_loop (jitter : nat → N) (draws : nat → maintenance_draws)
    (vehicle_id : Z) (first_trip last_trip : datetime) (total_km : Q)
    (budget : nat) (km_cursor next_threshold : Q) (q : nat) (rows : list maintenance_row)
  : outcome (nat * list maintenance_row) :=
  match budget with
  | O => Returned (q, rows)
  | S budget' =>
      if Qle_bool (km_cursor + next_threshold) total_km then
        let km_cursor := (km_cursor + next_threshold)%Q in
        let next_threshold := draw_threshold (jitter q) in
        match maintenance_event vehicle_id first_trip last_trip total_km km_cursor
                (draws (length rows)) with
        | Returned row =>
            vehicle_loop jitter draws vehicle_id first_trip last_trip total_km
              budget' km_cursor next_threshold (S q) (rows ++ [row])
        | Raised e => Raised e
        | OutOfFuel => OutOfFuel
        end
      else Returned (q, rows)
  end.

(** [for vehicle_id, vtype, trip_count, first_trip, last_trip, total_km in
    stats], lines 628-660. *)
Fixpoint maintenance_loop (jitter : nat → N) (draws : nat → maintenance_draws)
    (stats : list vehicle_stats) (target : Z) (q : nat) (rows : list maintenance_row)
  : outcome (list maintenance_row) :=
  match stats with
  | [] => Returned rows
  | (vehicle_id, _, _, first_trip, last_trip, total_km) :: stats' =>
      match first_trip, last_trip with
      | Some first_trip, Some last_trip =>
          if Qle_bool total_km 0
          then maintenance_loop jitter draws stats' target q rows
          else
            let km_cursor := 0%Q in
            let next_threshold := draw_threshold (jitter q) in
            match vehicle_loop jitter draws vehicle_id first_trip last_trip total_km
                    (Z.to_nat (target - Z.of_nat (length rows)))
                    km_cursor next_threshold (S q) rows with
            | Returned (q', rows') =>
                if target <=? Z.of_nat (length rows') then Returned rows'
                else maintenance_loop jitter draws stats' target q' rows'
            | Raised e => Raised e
            | OutOfFuel => OutOfFuel
            end
      | _, _ => maintenance_loop jitter draws stats' target q rows
      end
  end.

(** [rows[:target]]. *)
Definition slice_to {A : Type} (rows : list A) (target : Z) : list A :=
  if 0 <=? target then take (Z.to_nat target) rows
  else take (length rows - Z.to_nat (- target)) rows.

(** [generate_maintenance(target)]: the rows handed to the batched insert. *)
Definition generate_maintenance (jitter : nat → N) (draws : nat → maintenance_draws)
    (stats : list vehicle_stats) (target : Z) : outcome (list maintenance_row) :=
  match maintenance_loop jitter draws stats target 0 [] with
  | Returned rows => Returned (slice_to rows target)
  | Raised e => Raised e
  | OutOfFuel => OutOfFuel
  end.

End Maintenance.

(** ** Helpers and [generate_routes] *)

Module Routes.

Definition CITIES : list string :=
  ["Bogotá"; "Medellín"; "Villavicencio"; "Barranquilla"; "Bucaramanga"].

(** Road distances in km, keyed by a pair of cities as written in the source. *)
Definition DISTANCES : list (string * string * Z) :=
  [("Bogotá", "Medellín", 443);
   ("Bogotá", "Villavicencio", 123);
   ("Bogotá", "Barranquilla", 1001);
   ("Bogotá", "Bucaramanga", 409);
   ("Medellín", "Bucaramanga", 388);
   ("Medellín", "Barranquilla", 703);
   ("Medellín", "Villavicencio", 518);
   ("Villavicencio", "Barranquilla", 1116);
   ("Bucaramanga", "Barranquilla", 584);
   ("Villavicencio", "Bucaramanga", 518)].

(** [int(km // 100) * 15000]. *)
Definition _toll_cost_from_distance (km : Q) : Z := Qfloor (km / 100) * 15000.

(** [tuple(sorted((a, b)))]: the sort is stable and swaps only when
    [b < a]; strings compare by code point, which is the byte order of their
    UTF-8 encoding. *)
Definition sorted_pair (a b : string) : string * string :=
  if String.ltb b a then (b, a) else (a, b).

(** [_get_distance(a, b)]. *)
Definition _get_distance (a b : string) : Q :=
  if decide (a = b) then 0%Q
  else
    let key := sorted_pair a b in
    dict_get ((fun '(x, y, km) => ((x, y), inject_Z km)) <$> DISTANCES) key 500%Q.

Record route_draws : Type := {
  d_km : N;      (* random.uniform(0.95, 1.05) or random.uniform(0.97, 1.03) *)
  d_speed : N    (* random.uniform(60, 80) *)
}.

Record route_row : Type := {
  route_code : string;
  origin_city : string;
  destination_city : string;
  distance_km : Q;
  estimated_duration_hours : Q;
  toll_cost : Z
}.

(** [str(z).zfill(width)] as used for the codes. *)
Definition padded (width : nat) (z : Z) : string := Deliveries.zfill width (Deliveries.str z).

(** The closure [add_route(origin, destination, km)]: appends to [routes].
    The route appended in position [j] takes the draws [draws j]. *)
Definition add_route (draws : nat → route_draws) (origin destination : string) (km : Q)
    (routes : list route_row) : list route_row :=
  let avg_speed := uniform 60 80 (d_speed (draws (length routes))) in
  let duration := (km / avg_speed + 1)%Q in
  let toll := _toll_cost_from_distance km in
  let rcode := ("R" ++ padded 3 (Z.of_nat (length routes) + 1))%string in
  routes ++ [{| route_code := rcode;
                origin_city := origin;
                destination_city := destination;
                distance_km := round2 km;
                estimated_duration_hours := round2 duration;
                toll_cost := toll |}].

Definition VARIANTS_PER_PAIR : nat := 2.

(** [len(routes) >= count]. *)
Definition full (count : Z) (routes : list route_row) : bool :=
  count <=? Z.of_nat (length routes).

(** Lines 298-302: [for _ in range(VARIANTS_PER_PAIR)], [n] iterations left. *)
Fixpoint variants_loop (draws : nat → route_draws) (count : Z) (o d : string) (base_km : Q)
    (n : nat) (routes : list route_row) : list route_row :=
  match n with
  | O => routes
  | S n' =>
      if full count routes then routes (* break *)
      else
        let km := (base_km * uniform 0.95 1.05 (d_km (draws (length routes))))%Q in
        variants_loop draws count o d base_km n' (add_route draws o d km routes)
  end.

(** Lines 292-302: [for d in CITIES] for the origin [o]. *)
Fixpoint simple_dest_loop (draws : nat → route_draws) (count : Z) (o : string)
    (ds : list string) (routes : list route_row) : list route_row :=
  match ds with
  | [] => routes
  | d :: ds' =>
      if decide (o = d) then simple_dest_loop draws count o ds' routes (* continue *)
      else
        let base_km := _get_distance o d in
        if Qle_bool base_km 0 then simple_dest_loop draws count o ds' routes (* continue *)
        else
          simple_dest_loop draws count o ds'
            (variants_loop draws count o d base_km VARIANTS_PER_PAIR routes)
  end.

(** Lines 291-304: [for o in CITIES], with the [break] of line 303. *)
Fixpoint simple_loop (draws : nat → route_draws) (count : Z)
    (os : list string) (routes : list route_row) : list route_row :=
  match os with
  | [] => routes
  | o :: os' =>
      let routes := simple_dest_loop draws count o CITIES routes in
      if full count routes then routes (* break *)
      else simple_loop draws count os' routes
  end.

(** [c in (a, b)] and [d in (a, b, c)]. *)
Definition among (x : string) (l : list string) : bool := bool_decide (x ∈ l).

(** Lines 312-320: [for c in CITIES] for the legs [a]-[b]. *)
Fixpoint abc_c_loop (draws : nat → route_draws) (count : Z) (a b : string)
    (cs : list string) (routes : list route_row) : list route_row :=
  match cs with
  | [] => routes
  | c :: cs' =>
      if among c [a; b] then abc_c_loop draws count a b cs' routes (* continue *)
      else if full count routes then routes (* break *)
      else
        let km := ((_get_distance a b + _get_distance b c)
                   * uniform 0.97 1.03 (d_km (draws (length routes))))%Q in
        abc_c_loop draws count a b cs' (add_route draws a c km routes)
  end.

(** Lines 309-322: [for b in CITIES] for the origin [a]. *)
Fixpoint abc_b_loop (draws : nat → route_draws) (count : Z) (a : string)
    (bs : list string) (routes : list route_row) : list route_row :=
  match bs with
  | [] => routes
  | b :: bs' =>
      if decide (b = a) then abc_b_loop draws count a bs' routes (* continue *)
      else
        let routes := abc_c_loop draws count a b CITIES routes in
        if full count routes then routes (* break *)
        else abc_b_loop draws count a bs' routes
  end.

(** Lines 308-324: [for a in CITIES]. *)
Fixpoint abc_loop (draws : nat → route_draws) (count : Z)
    (as_ : list string) (routes : list route_row) : list route_row :=
  match as_ with
  | [] => routes
  | a :: as' =>
      let routes := abc_b_loop draws count a CITIES routes in
      if full count routes then routes (* break *)
      else abc_loop draws count as' routes
  end.

(** Lines 335-345: [for d in CITIES] for the legs [a]-[b]-[c]. *)
Fixpoint abcd_d_loop (draws : nat → route_draws) (count : Z) (a b c : string)
    (ds : list string) (routes : list route_row) : list route_row :=
  match ds with
  | [] => routes
  | d :: ds' =>
      if among d [a; b; c] then abcd_d_loop draws count a b c ds' routes (* continue *)
      else if full count routes then routes (* break *)
      else
        let km := ((_get_distance a b + _get_distance b c + _get_distance c d)
                   * uniform 0.97 1.03 (d_km (draws (length routes))))%Q in
        abcd_d_loop draws count a b c ds' (add_route draws a d km routes)
  end.

(** Lines 332-347: [for c in CITIES] for the legs [a]-[b]. *)
Fixpoint abcd_c_loop (draws : nat → route_draws) (count : Z) (a b : string)
    (cs : list string) (routes : list route_row) : list route_row :=
  match cs with
  | [] => routes
  | c :: cs' =>
      if among c [a; b] then abcd_c_loop draws count a b cs' routes (* continue *)
      else
        let routes := abcd_d_loop draws count a b c CITIES routes in
        if full count routes then routes (* break *)
        else abcd_c_loop draws count a b cs' routes
  end.

(** Lines 329-349: [for b in CITIES] for the origin [a]. *)
Fixpoint abcd_b_loop (draws : nat → route_draws) (count : Z) (a : string)
    (bs : list string) (routes : list route_row) : list route_row :=
  match bs with
  | [] => routes
  | b :: bs' =>
      if decide (b = a) then abcd_b_loop draws count a bs' routes (* continue *)
      else
        let routes := abcd_c_loop draws count a b CITIES routes in
        if full count routes then routes (* break *)
        else abcd_b_loop draws count a bs' routes
  end.

(** Lines 328-351: [for a in CITIES]. *)
Fixpoint abcd_loop (draws : nat → route_draws) (count : Z)
    (as_ : list string) (routes : list route_row) : list route_row :=
  match as_ with
  | [] => routes
  | a :: as' =>
      let routes := abcd_b_loop draws count a CITIES routes in
      if full count routes then routes (* break *)
      else abcd_loop draws count as' routes
  end.

(** [generate_routes(count)]: the rows handed to the batched insert. *)
Definition generate_routes (draws : nat → route_draws) (count : Z) : list route_row :=
  let routes := [] in
  (* 1) simple routes *)
  let routes := simple_loop draws count CITIES routes in
  (* 2) composite A-B-C *)
  let routes := if full count routes then routes else abc_loop draws count CITIES routes in
  (* 3) composite A-B-C-D *)
  let routes := if full count routes then routes else abcd_loop draws count CITIES routes in
  Maintenance.slice_to routes count.

(** The lists that the loops can reach from [routes], for the proofs: the
    list only changes by [add_route], between two different cities of
    [CITIES] and for a distance between 116.85 and 1600.62 km. *)
Inductive extends (draws : nat → route_draws) : list route_row → list route_row → Prop :=
| extends_refl routes : extends draws routes routes
| extends_add routes routes' o d km :
    extends draws routes routes' →
    o ∈ CITIES → d ∈ CITIES → o ≠ d → (116.85 <= km)%Q → (km <= 1600.62)%Q →
    extends draws routes (add_route draws o d km routes').

(** The length after a loop that has [K] routes to add, for the proofs: the
    loop adds them until [count] is reached, and nothing when [count] is
    reached already. *)
Definition grown (count : Z) (K : nat) (routes routes' : list route_row) : Prop :=
  length routes' = Nat.max (length routes) (Nat.min (Z.to_nat count) (length routes + K)).

(** The number of routes that the loops over [CITIES] have to add. *)
Definition simple_candidates (o : string) (ds : list string) : nat :=
  sum_list_with (fun d => if decide (o = d) then 0
                          else if Qle_bool (_get_distance o d) 0 then 0
                          else VARIANTS_PER_PAIR)%nat ds.
Definition abc_c_candidates (a b : string) (cs : list string) : nat :=
  sum_list_with (fun c => if among c [a; b] then 0 else 1)%nat cs.
Definition abc_b_candidates (a : string) (bs : list string) : nat :=
  sum_list_with (fun b => if decide (b = a) then 0 else abc_c_candidates a b CITIES)%nat bs.
Definition abcd_d_candidates (a b c : string) (ds : list string) : nat :=
  sum_list_with (fun d => if among d [a; b; c] then 0 else 1)%nat ds.
Definition abcd_c_candidates (a b : string) (cs : list string) : nat :=
  sum_list_with (fun c => if among c [a; b] then 0 else abcd_d_candidates a b c CITIES)%nat cs.
Definition abcd_b_candidates (a : string) (bs : list string) : nat :=
  sum_list_with (fun b => if decide (b = a) then 0 else abcd_c_candidates a b CITIES)%nat bs.

End Routes.

(** ** [generate_vehicles] and [generate_drivers] *)

Module Masters.

(** [random.choices(population, k=1)[0]] without weights:
    [population[floor(random() * len(population))]]. *)
Definition choices_one {A : Type} (population : list A) (raw : N) : option A :=
  population !! Z.to_nat (Qfloor (random_unit raw * inject_Z (Z.of_nat (length population)))).

(** [random.choices(population, weights=weights, k=1)[0]]:
    [population[bisect(cum_weights, random() * total, 0, len(population) - 1)]]. *)
Definition weighted_choice {A : Type} (population : list A) (weights : list Q) (raw : N)
  : option A :=
  let cum_weights := cumsum 0 weights in
  match last cum_weights with
  | None => None
  | Some total =>
      let hi := (length population - 1)%nat in
      population !! searchsorted_right (take hi cum_weights) (random_unit raw * total)
  end.

(** [string.ascii_uppercase]. *)
Definition ascii_uppercase : list ascii :=
  list_ascii_of_string "ABCDEFGHIJKLMNOPQRSTUVWXYZ".

(** [_gen_plate()]: three letters and a number from 100 to 999. *)
Definition _gen_plate (raw1 raw2 raw3 raw_digits : N) : option string :=
  match choices_one ascii_uppercase raw1, choices_one ascii_uppercase raw2,
        choices_one ascii_uppercase raw3 with
  | Some c1, Some c2, Some c3 =>
      let letters := String c1 (String c2 (String c3 EmptyString)) in
      let digits := Deliveries.str (randint 100 999 raw_digits) in
      Some (letters ++ digits)%string
  | _, _, _ => None
  end.

Inductive vehicle_status : Type := v_active | v_maintenance.
Inductive driver_status : Type := d_active | d_inactive.

(** The results of the generator calls for one vehicle, in call order. *)
Record vehicle_draws : Type := {
  d_type : N;                (* random.choice(VEHICLE_TYPES) *)
  d_capacity : N;            (* random.randint(cap_min, cap_max) *)
  d_letter1 : N;             (* random.choices(string.ascii_uppercase, k=3) *)
  d_letter2 : N;
  d_letter3 : N;
  d_plate_digits : N;        (* random.randint(100, 999) *)
  d_acquisition_date : date; (* fake.date_between(start_date="-5y", end_date="-1m") *)
  d_vehicle_status : N       (* random.choices(["active", "maintenance"], weights=[90, 10]) *)
}.

Record vehicle_row : Type := {
  license_plate : string;
  vehicle_type : string;
  capacity_kg : Z;
  fuel_type : string;
  acquisition_date : date;
  v_status : vehicle_status
}.

(** The body of [for _ in range(count)] of [generate_vehicles], lines 218-225. *)
Definition vehicle_iteration (d : vehicle_draws) : outcome vehicle_row :=
  match choice VEHICLE_TYPES (d_type d) with
  | None => Raised IndexError
  | Some (vtype, cap_min, cap_max, fuel, _cons) =>
      let capacity := randint cap_min cap_max (d_capacity d) in
      match _gen_plate (d_letter1 d) (d_letter2 d) (d_letter3 d) (d_plate_digits d),
            weighted_choice [v_active; v_maintenance] [90%Q; 10%Q] (d_vehicle_status d) with
      | Some license_plate, Some status =>
          Returned {| license_plate := license_plate;
                      vehicle_type := vtype;
                      capacity_kg := capacity;
                      fuel_type := fuel;
                      acquisition_date := d_acquisition_date d;
                      v_status := status |}
      | _, _ => Raised IndexError
      end
  end.

(** [generate_vehicles(count)]: the rows handed to the batched insert;
    [k] vehicles are done, [remaining] are left. *)
Fixpoint vehicles_loop (draws : nat → vehicle_draws) (remaining k : nat)
    (rows : list vehicle_row) : outcome (list vehicle_row) :=
  match remaining with
  | O => Returned rows
  | S remaining' =>
      match vehicle_iteration (draws k) with
      | Returned row => vehicles_loop draws remaining' (S k) (rows ++ [row])
      | Raised e => Raised e
      | OutOfFuel => OutOfFuel
      end
  end.

Definition generate_vehicles (draws : nat → vehicle_draws) (count : Z)
  : outcome (list vehicle_row) :=
  vehicles_loop draws (Z.to_nat count) 0 [].

(** The results of the generator calls for one driver, in call order. *)
Record driver_draws : Type := {
  d_first_name : string;   (* fake.first_name() *)
  d_last_name : string;    (* fake.last_name() *)
  d_license_number : N;    (* random.randint(10**9, 10**10 - 1) *)
  d_license_expiry : date; (* fake.date_between(start_date="-1m", end_date="+3y") *)
  d_phone : N;             (* random.randint(100000000, 999999999) *)
  d_hire_date : date;      (* fake.date_between(start_date="-5y", end_date="-1w") *)
  d_driver_status : N      (* random.choices(["active", "inactive"], weights=[95, 5]) *)
}.

Record driver_row : Type := {
  employee_code : string;
  first_name : string;
  last_name : string;
  license_number : string;
  license_expiry : date;
  phone : string;
  hire_date : date;
  d_status : driver_status
}.

(** The body of [for i in range(count)] of [generate_drivers], lines 240-259. *)
Definition driver_iteration (i : nat) (d : driver_draws) : outcome driver_row :=
  let employee_code := ("EMP" ++ Routes.padded 4 (Z.of_nat i + 1))%string in
  let license_number := Deliveries.str (randint (10 ^ 9) (10 ^ 10 - 1) (d_license_number d)) in
  let phone := ("3" ++ Deliveries.str (randint 100000000 999999999 (d_phone d)))%string in
  match weighted_choice [d_active; d_inactive] [95%Q; 5%Q] (d_driver_status d) with
  | None => Raised IndexError
  | Some status =>
      Returned {| employee_code := employee_code;
                  first_name := d_first_name d;
                  last_name := d_last_name d;
                  license_number := license_number;
                  license_expiry := d_license_expiry d;
                  phone := phone;
                  hire_date := d_hire_date d;
                  d_status := status |}
  end.

(** [generate_drivers(count)]: [i] drivers are done, [remaining] are left. *)
Fixpoint drivers_loop (draws : nat → driver_draws) (remaining i : nat)
    (rows : list driver_row) : outcome (list driver_row) :=
  match remaining with
  | O => Returned rows
  | S remaining' =>
      match driver_iteration i (draws i) with
      | Returned row => drivers_loop draws remaining' (S i) (rows ++ [row])
      | Raised e => Raised e
      | OutOfFuel => OutOfFuel
      end
  end.

Definition generate_drivers (draws : nat → driver_draws) (count : Z)
  : outcome (list driver_row) :=
  drivers_loop draws (Z.to_nat count) 0 [].

End Masters.

(** ** [transform_data] of the ETL pipeline

    The columns that lines 154-163 and 175-176 of [05_etl_pipeline.py]
    compute and that lines 200-201 filter on.  An absent value ([NULL],
    [NaT], [NaN]) is [None]; the operations on these columns raise no
    exception, so the [except] branch of the function is not taken. *)

Module Etl.

(** The columns of the extracted frame that the metrics below read. *)
Record extracted_row : Type := {
  delivery_id : Z;
  trip_id : Z;
  package_weight_kg : option Q;
  scheduled_datetime : option datetime;
  delivered_datetime : option datetime
}.

Record transformed_row : Type := {
  extracted : extracted_row;
  delivery_time_minutes : option Q;
  delay_minutes : Q;
  is_on_time : bool;
  deliveries_in_trip : nat
}.

(** [((delivered - scheduled).dt.total_seconds() / 60).round(2)]: [NaN]
    when a timestamp is [NaT]. *)
Definition minutes_between (scheduled delivered : option datetime) : option Q :=
  match delivered, scheduled with
  | Some delivered, Some scheduled =>
      Some (round2 (total_seconds (delivered - scheduled) / 60))
  | _, _ => None
  end.

(** [lambda x: max(0, x) if pd.notnull(x) else 0]; [max(0, x)] is [x] when
    [x > 0] and [0] otherwise. *)
Definition clamp_delay (x : option Q) : Q :=
  match x with
  | Some x => if Deliveries.flt 0 x then x else 0%Q
  | None => 0%Q
  end.

(** [df.groupby("trip_id").size()] read at the trip of a row. *)
Definition group_size (df : list extracted_row) (tid : Z) : nat :=
  length (List.filter (fun r => trip_id r =? tid) df).

(** Lines 154-163 and 175-176, for one row of the frame [df]. *)
Definition metrics (df : list extracted_row) (r : extracted_row) : transformed_row :=
  let delivery_time_minutes := minutes_between (scheduled_datetime r) (delivered_datetime r) in
  let delay_minutes := clamp_delay delivery_time_minutes in
  {| extracted := r;
     delivery_time_minutes := delivery_time_minutes;
     delay_minutes := delay_minutes;
     is_on_time := Qle_bool delay_minutes 30;
     deliveries_in_trip := group_size df (trip_id r) |}.

(** [df["delivery_time_minutes"] >= 0]: false on [NaN]. *)
Definition time_ok (t : transformed_row) : bool :=
  match delivery_time_minutes t with
  | Some x => Qle_bool 0 x
  | None => false
  end.

(** [(df["package_weight_kg"] > 0) & (df["package_weight_kg"] < 10000)]. *)
Definition weight_ok (t : transformed_row) : bool :=
  match package_weight_kg (extracted t) with
  | Some w => Deliveries.flt 0 w && Deliveries.flt w 10000
  | None => false
  end.

(** [transform_data(df)]: the metrics, then the two quality filters of
    lines 200-201. *)
Definition transform_data (df : list extracted_row) : list transformed_row :=
  let df' := metrics df <$> df in
  let df' := List.filter time_ok df' in
  let df' := List.filter weight_ok df' in
  df'.

End Etl.

(** ** Sample inputs *)

Module Sample.
Import Trips.

(** 2025-01-01T00:00:00 (ordinal day 739252). *)
Definition new_year_2025 : datetime := 739251 * US_PER_DAY.

Definition zero_draws : trip_draws :=
  {| d_vehicle := 0; d_driver := 0; d_route := 0; d_hour := 0; d_minute := 0;
     d_realism := 0; d_l100 := 0; d_fuel := 0; d_weight := 0 |}.

Definition vehicles : list (Z * Z * string) := [(1, 1000, "Van")].
Definition drivers : list Z := [1].
Definition routes : list (Z * Q * Q) := [(1, 443%Q, 7.33%Q)].

Definition delivery_zero_draws : Deliveries.delivery_draws :=
  {| Deliveries.d_first_name := "Ana"; Deliveries.d_last_name := "Ruiz";
     Deliveries.d_street := "Calle 1"; Deliveries.d_on_time := 0;
     Deliveries.d_minutes := 0; Deliveries.d_signature := 0 |}.

(** A completed trip of thirty minutes, and one of two hours. *)
Definition short_trip : Deliveries.trip_info :=
  (1, new_year_2025, Some (new_year_2025 + 30 * US_PER_MINUTE), 100%Q, "Bogotá").
Definition long_trip : Deliveries.trip_info :=
  (2, new_year_2025, Some (new_year_2025 + 2 * US_PER_HOUR), 1000%Q, "Medellín").

Definition maintenance_zero_draws : Maintenance.maintenance_draws :=
  {| Maintenance.d_type := 0; Maintenance.d_cost := 0;
     Maintenance.d_first_name := "Ana"; Maintenance.d_last_name := "Ruiz" |}.

(** The raw draw of [random.random() = 0.5]: a jitter of exactly zero. *)
Definition half : N := 4503599627370496.

(** A vehicle whose twenty trips of 500 km all fall on 2025-01-01, between
    06:00 and 20:00. *)
Definition one_day_vehicle : Maintenance.vehicle_stats :=
  (1, "Van", 20, Some (new_year_2025 + 6 * US_PER_HOUR),
   Some (new_year_2025 + 20 * US_PER_HOUR), 10000%Q).

(** A vehicle driven 25000 km between 2025-01-01 and 2025-03-01. *)
Definition two_month_vehicle : Maintenance.vehicle_stats :=
  (2, "Van", 50, Some (new_year_2025 + 6 * US_PER_HOUR),
   Some (new_year_2025 + 59 * US_PER_DAY), 25000%Q).

End Sample.

(* ====================================================================== *)
(** * Part II. Properties                                                   *)
(* ====================================================================== *)

(** ** Cyclic correction loops *)

Section NudgeLoop.

(** Both loops are one scan: [can c] tests whether a cell may move,
    [step c] moves it, [slack c] counts the moves the cell has left. *)
Variables (can : Z → bool) (step : Z → Z) (slack : Z → Z) (ok : Z → Prop).
Hypothesis slack_nonneg : ∀ c, ok c → 0 ≤ slack c.
Hypothesis can_slack : ∀ c, ok c → (can c = true ↔ 0 < slack c).
Hypothesis step_slack : ∀ c, slack (step c) = slack c - 1.
Hypothesis step_ok : ∀ c, ok c → can c = true → ok (step c).

Local Abbreviation nudge_loop := (Allocator.nudge_loop can step).
Local Abbreviation total_slack := (Allocator.total_slack slack).

Lemma total_slack_nonneg l : Forall ok l → 0 ≤ total_slack l.
Proof.
  unfold Allocator.total_slack, sum. induction 1 as [|c l Hc _ IH]; csimpl; [lia|].
  pose proof (slack_nonneg c Hc). lia.
Qed.

Lemma total_slack_insert l i c :
  l !! i = Some c → total_slack (<[i := step c]> l) = total_slack l - 1.
Proof.
  unfold Allocator.total_slack, sum. revert i. induction l as [|x l IH]; intros [|i] H; simplify_eq/=.
  - rewrite step_slack. lia.
  - rewrite (IH i H). lia.
Qed.

(** A positive total slack is held by some cell. *)
Lemma movable_cell l :
  Forall ok l → 0 < total_slack l → ∃ j c, l !! j = Some c ∧ can c = true.
Proof.
  unfold Allocator.total_slack, sum. induction 1 as [|x l Hx Hl IH]; csimpl; [lia|]. intros Hpos.
  destruct (can x) eqn:Hc.
  - exists 0%nat, x. done.
  - assert (slack x = 0).
    { pose proof (slack_nonneg x Hx). pose proof (can_slack x Hx) as [_ Hs].
      destruct (Z.eq_dec (slack x) 0); [done|].
      assert (can x = true) by (apply Hs; lia). congruence. }
    destruct IH as (j & c & Hj & Hcan); [lia|]. exists (S j), c. done.
Qed.

(** Scanning from [i], a movable cell [k] places ahead is reached within
    [k + 1] iterations; the first movable cell met is moved. *)
Lemma scan_reaches k : ∀ fuel n l d i c0,
  length l = n → (i < n)%nat → 0 < d → (k ≤ fuel)%nat →
  l !! ((i + k) mod n)%nat = Some c0 → can c0 = true →
  ∃ fuel' j c,
    (fuel ≤ fuel' + k)%nat ∧ l !! j = Some c ∧ can c = true ∧
    nudge_loop (S fuel) n l d i
    = nudge_loop fuel' n (<[j := step c]> l) (d - 1) ((j + 1) mod n)%nat.
Proof.
  induction k as [|k IH]; intros fuel n l d i c0 Hlen Hi Hd Hfuel Hk Hc0.
  - rewrite Nat.add_0_r, Nat.mod_small in Hk by done.
    exists fuel, i, c0. split_and!; [lia|done|done|].
    simpl. replace (0 <? d) with true by (symmetry; apply Z.ltb_lt; lia).
    rewrite Hk, Hc0. destruct n; [lia|done].
  - destruct (lookup_lt_is_Some_2 l i) as [c Hc]; [lia|].
    destruct (can c) eqn:Hcan.
    + exists fuel, i, c. split_and!; [lia|done|done|].
      simpl. replace (0 <? d) with true by (symmetry; apply Z.ltb_lt; lia).
      rewrite Hc, Hcan. destruct n; [lia|done].
    + destruct fuel as [|fuel]; [lia|].
      destruct (IH fuel n l d ((i + 1) mod n)%nat c0) as (fuel' & j & c' & Hf & Hj & Hc' & Heq);
        [done|apply Nat.mod_upper_bound; lia|done|lia| |done|].
      { rewrite Nat.Div0.add_mod_idemp_l. by replace (i + 1 + k)%nat with (i + S k)%nat by lia. }
      exists fuel', j, c'. split_and!; [lia|done|done|].
      rewrite <- Heq.
      change (nudge_loop (S (S fuel)) n l d i) with
        (if 0 <? d then
           match l !! i with
           | None => (l, Raised IndexError)
           | Some c =>
               let '(l', d') := if can c then (<[i := step c]> l, d - 1) else (l, d) in
               match n with
               | O => (l', Raised ZeroDivisionError)
               | _ => nudge_loop (S fuel) n l' d' ((i + 1) mod n)%nat
               end
           end
         else (l, Returned tt)).
      replace (0 <? d) with true by (symmetry; apply Z.ltb_lt; lia).
      rewrite Hc, Hcan. destruct n; [lia|done].
Qed.

(** The loop returns, having moved exactly [d] units, cells staying [ok]. *)
Lemma nudge_loop_returns m : ∀ fuel n l d i,
  d = Z.of_nat m → length l = n → (i < n)%nat → Forall ok l →
  d ≤ total_slack l → (m * n < fuel)%nat →
  ∃ l', nudge_loop fuel n l d i = (l', Returned tt) ∧
        length l' = n ∧ Forall ok l' ∧ total_slack l' = total_slack l - d.
Proof.
  induction m as [|m IH]; intros fuel n l d i Hd Hlen Hi Hok Hcap Hfuel.
  - destruct fuel as [|fuel]; [lia|]. exists l. subst d. simpl.
    split_and!; [done|done|done|lia].
  - destruct fuel as [|fuel]; [lia|].
    destruct (movable_cell l Hok) as (j0 & c0 & Hj0 & Hc0); [lia|].
    assert (j0 < n)%nat as Hj0n by (rewrite <- Hlen; by eapply lookup_lt_Some).
    destruct (scan_reaches ((j0 + n - i) mod n)%nat fuel n l d i c0)
      as (fuel' & j & c & Hf & Hj & Hc & Heq); [done|done|lia| | |done|].
    { pose proof (Nat.mod_upper_bound (j0 + n - i) n). nia. }
    { rewrite Nat.Div0.add_mod_idemp_r.
      replace (i + (j0 + n - i))%nat with (j0 + 1 * n)%nat by lia.
      rewrite Nat.Div0.mod_add, Nat.mod_small by done. done. }
    assert ((j0 + n - i) mod n < n)%nat by (apply Nat.mod_upper_bound; lia).
    destruct (IH fuel' n (<[j := step c]> l) (d - 1) ((j + 1) mod n)%nat)
      as (l' & Hrun & Hlen' & Hok' & Hsl');
      [lia|by rewrite length_insert|apply Nat.mod_upper_bound; lia| | |nia|].
    { apply Forall_insert; [done|]. apply step_ok; [|done].
      eapply Forall_lookup_1; eauto. }
    { rewrite (total_slack_insert l j c Hj). lia. }
    exists l'. rewrite Heq, Hrun. split_and!; [done|done|done|].
    rewrite Hsl', (total_slack_insert l j c Hj). lia.
Qed.

(** Whatever the outcome, the cells stay [ok] and none is added or lost. *)
Lemma nudge_loop_preserves fuel : ∀ n l d i l' o,
  Forall ok l → nudge_loop fuel n l d i = (l', o) → Forall ok l' ∧ length l' = length l.
Proof.
  induction fuel as [|fuel IH]; intros n l d i l' o Hok Hrun; simpl in Hrun.
  - by injection Hrun as <- _.
  - destruct (0 <? d); [|by injection Hrun as <- _].
    destruct (l !! i) as [c|] eqn:Hc; [|by injection Hrun as <- _].
    destruct (can c) eqn:Hcan.
    + assert (Forall ok (<[i := step c]> l)) as Hok'.
      { apply Forall_insert; [done|]. apply step_ok; [|done]. by eapply Forall_lookup_1. }
      destruct n as [|n].
      * injection Hrun as <- _. split; [done|]. by rewrite length_insert.
      * destruct (IH _ _ _ _ _ _ Hok' Hrun) as [? Hlen]. split; [done|].
        by rewrite Hlen, length_insert.
    + destruct n as [|n]; [by injection Hrun as <- _|]. by eapply IH.
Qed.

End NudgeLoop.

(** ** Random primitives *)

Lemma random_unit_range raw : (0 <= random_unit raw)%Q ∧ (random_unit raw < 1)%Q.
Proof.
  unfold random_unit, Qle, Qlt; simpl.
  pose proof (N.mod_upper_bound raw (Npos two53)) as H.
  pose proof (N2Z.is_nonneg (raw mod Npos two53)).
  assert (Z.of_N (raw mod Npos two53) < Z.of_N (Npos two53)) by (apply N2Z.inj_lt, H; done).
  rewrite Z.mul_1_r, Z.mul_1_l. split; [lia|done].
Qed.

Lemma searchsorted_right_le cdf u : (searchsorted_right cdf u ≤ length cdf)%nat.
Proof. induction cdf as [|c cdf IH]; simpl; [lia|]. destruct (Qle_bool c u); lia. Qed.

(** The search stops before any entry that exceeds [u]. *)
Lemma searchsorted_right_before cdf u k c :
  cdf !! k = Some c → (u < c)%Q → (searchsorted_right cdf u ≤ k)%nat.
Proof.
  revert k. induction cdf as [|x cdf IH]; intros [|k] Hk Hlt; simplify_eq/=.
  - destruct (Qle_bool c u) eqn:E; [|lia]. apply Qle_bool_iff in E. lra.
  - destruct (Qle_bool x u); [|lia]. specialize (IH k Hk Hlt). lia.
Qed.

(** The search passes a prefix of entries that do not exceed [u]. *)
Lemma searchsorted_right_after cdf u k :
  (k ≤ length cdf)%nat → Forall (fun c => (c <= u)%Q) (take k cdf) →
  (k ≤ searchsorted_right cdf u)%nat.
Proof.
  revert k. induction cdf as [|x cdf IH]; intros [|k] Hk Hall; simpl in *; try lia.
  apply Forall_cons in Hall as [Hx Hall].
  apply Qle_bool_iff in Hx. rewrite Hx. specialize (IH k ltac:(lia) Hall). lia.
Qed.

(** ** CardinalityAllocator *)

Section AllocatorProofs.
Import Allocator.

Lemma raise_loop_nudge fuel : ∀ n l d i,
  raise_loop fuel n l d i = nudge_loop (fun c => c <? 6) (fun c => c + 1) fuel n l d i.
Proof.
  induction fuel as [|fuel IH]; intros; simpl; [done|].
  destruct (0 <? d); [|done]. destruct (l !! i) as [c|]; [|done].
  destruct (c <? 6); destruct n; by rewrite ?IH.
Qed.

Lemma lower_loop_nudge fuel : ∀ n l d i,
  lower_loop fuel n l d i = nudge_loop (fun c => 2 <? c) (fun c => c - 1) fuel n l d i.
Proof.
  induction fuel as [|fuel IH]; intros; simpl; [done|].
  destruct (0 <? d); [|done]. destruct (l !! i) as [c|]; [|done].
  destruct (2 <? c); destruct n; by rewrite ?IH.
Qed.

Lemma sum_headroom l : sum ((fun c => 6 - c) <$> l) = 6 * Z.of_nat (length l) - sum l.
Proof. unfold sum. induction l as [|c l IH]; csimpl; lia. Qed.

Lemma sum_excess l : sum ((fun c => c - 2) <$> l) = sum l - 2 * Z.of_nat (length l).
Proof. unfold sum. induction l as [|c l IH]; csimpl; lia. Qed.

Lemma sum_in_bounds l :
  Forall in_bounds l → 2 * Z.of_nat (length l) ≤ sum l ≤ 6 * Z.of_nat (length l).
Proof. unfold sum, in_bounds. induction 1; csimpl; lia. Qed.

(** The increment loop returns once [diff] units are placed. *)
Lemma raise_loop_returns fuel l diff :
  Forall in_bounds l → 0 ≤ diff ≤ sum ((fun c => 6 - c) <$> l) →
  (Z.to_nat diff * length l < fuel)%nat →
  ∃ l', raise_loop fuel (length l) l diff 0 = (l', Returned tt) ∧
        length l' = length l ∧ Forall in_bounds l' ∧ sum l' = sum l + diff.
Proof.
  intros Hok Hd Hfuel. rewrite raise_loop_nudge.
  destruct l as [|c0 l0] eqn:El.
  { destruct fuel; [simpl in *; lia|]. exists []. unfold sum in *. simpl in *.
    replace (0 <? diff) with false by (symmetry; apply Z.ltb_ge; lia).
    split_and!; [done|done|done|simpl; lia]. }
  rewrite <- El in *. assert (0 < length l)%nat by (subst l; simpl; lia).
  destruct (nudge_loop_returns (fun c => c <? 6) (fun c => c + 1) (fun c => 6 - c) in_bounds)
    with (m := Z.to_nat diff) (fuel := fuel) (n := length l) (l := l) (d := diff) (i := 0%nat)
    as (l' & Hrun & Hlen & Hok' & Hsl).
  - unfold in_bounds; intros; lia.
  - unfold in_bounds; intros c Hc. rewrite Z.ltb_lt. lia.
  - intros; lia.
  - unfold in_bounds; intros c Hc Hlt. apply Z.ltb_lt in Hlt. lia.
  - lia.
  - done.
  - done.
  - done.
  - unfold Allocator.total_slack. lia.
  - done.
  - exists l'. split_and!; try done. unfold Allocator.total_slack in Hsl.
    rewrite !sum_headroom, Hlen in Hsl. lia.
Qed.

(** The decrement loop returns once [need] units are removed. *)
Lemma lower_loop_returns fuel l need :
  Forall in_bounds l → 0 ≤ need ≤ sum ((fun c => c - 2) <$> l) →
  (Z.to_nat need * length l < fuel)%nat →
  ∃ l', lower_loop fuel (length l) l need 0 = (l', Returned tt) ∧
        length l' = length l ∧ Forall in_bounds l' ∧ sum l' = sum l - need.
Proof.
  intros Hok Hd Hfuel. rewrite lower_loop_nudge.
  destruct l as [|c0 l0] eqn:El.
  { destruct fuel; [simpl in *; lia|]. exists []. unfold sum in *. simpl in *.
    replace (0 <? need) with false by (symmetry; apply Z.ltb_ge; lia).
    split_and!; [done|done|done|simpl; lia]. }
  rewrite <- El in *. assert (0 < length l)%nat by (subst l; simpl; lia).
  destruct (nudge_loop_returns (fun c => 2 <? c) (fun c => c - 1) (fun c => c - 2) in_bounds)
    with (m := Z.to_nat need) (fuel := fuel) (n := length l) (l := l) (d := need) (i := 0%nat)
    as (l' & Hrun & Hlen & Hok' & Hsl).
  - unfold in_bounds; intros; lia.
  - unfold in_bounds; intros c Hc. rewrite Z.ltb_lt. lia.
  - intros; lia.
  - unfold in_bounds; intros c Hc Hlt. apply Z.ltb_lt in Hlt. lia.
  - lia.
  - done.
  - done.
  - done.
  - unfold Allocator.total_slack. lia.
  - done.
  - exists l'. split_and!; try done. unfold Allocator.total_slack in Hsl.
    rewrite !sum_excess, Hlen in Hsl. lia.
Qed.

(** Every categorical draw lands on one of the five values. *)
Lemma np_choice_in_bounds raw : ∃ c, np_choice choices probs raw = Some c ∧ in_bounds c.
Proof.
  unfold np_choice.
  destruct (random_unit_range raw) as [_ Hu]. remember (random_unit raw) as x eqn:Ex. clear Ex.
  destruct (last (cumsum 0 probs)) as [total|] eqn:Etot; [|by vm_compute in Etot].
  set (cdf := (fun c => (c / total)%Q) <$> cumsum 0 probs).
  assert (∃ c, cdf !! 4%nat = Some c ∧ Qle_bool 1 c = true) as (c & Hc & H1).
  { vm_compute in Etot. injection Etot as <-. vm_compute. eexists; split; reflexivity. }
  apply Qle_bool_iff in H1.
  pose proof (searchsorted_right_before cdf x 4 c Hc ltac:(lra)) as Hidx.
  destruct (searchsorted_right cdf x) as [|[|[|[|[|k]]]]]; [..|lia];
    eexists; (split; [reflexivity|unfold in_bounds; lia]).
Qed.

Lemma initial_draw_in_bounds n u :
  ∃ l, initial_draw n u = Some l ∧ length l = n ∧ Forall in_bounds l.
Proof.
  unfold initial_draw. generalize 0%nat as s.
  induction n as [|n IH]; intros s; simpl.
  - exists []. done.
  - destruct (np_choice_in_bounds (u s)) as (c & -> & Hc).
    destruct (IH (S s)) as (l & -> & Hlen & Hok). exists (c :: l). simpl.
    split_and!; [done|by rewrite Hlen|by constructor].
Qed.

Lemma adjust_preserves fuel l target l' o :
  Forall in_bounds l → adjust fuel l target = (l', o) →
  Forall in_bounds l' ∧ length l' = length l.
Proof.
  intros Hok. unfold adjust.
  destruct (0 <? target - sum l).
  - destruct (_ <? _); [by intros [= <- _]|]. rewrite raise_loop_nudge.
    apply (nudge_loop_preserves (fun c => c <? 6) (fun c => c + 1) in_bounds); [|done].
    unfold in_bounds. intros c Hc Hlt. apply Z.ltb_lt in Hlt. lia.
  - destruct (target - sum l <? 0); [|by intros [= <- _]].
    destruct (_ <? _); [by intros [= <- _]|]. rewrite lower_loop_nudge.
    apply (nudge_loop_preserves (fun c => 2 <? c) (fun c => c - 1) in_bounds); [|done].
    unfold in_bounds. intros c Hc Hlt. apply Z.ltb_lt in Hlt. lia.
Qed.

(** Counts that the allocation step returns are within the bounds, one
    per trip. *)
Lemma allocate_returned_in_bounds fuel n_trips u target per_trip r :
  allocate fuel n_trips u target = (per_trip, Returned r) →
  Forall in_bounds per_trip ∧ length per_trip = n_trips.
Proof.
  unfold allocate.
  destruct (initial_draw_in_bounds n_trips u) as (l & -> & Hlen & Hok). intros Hrun.
  destruct (adjust_preserves _ _ _ _ _ Hok Hrun) as [? Hlen']. split; [done|lia].
Qed.

(** Within the feasible range the allocation step returns, with enough
    fuel, counts that add up to the target within the bounds. *)
Lemma allocate_feasible (n_trips : nat) (u : nat → N) (target : Z) (fuel : nat) :
  2 * Z.of_nat n_trips ≤ target ≤ 6 * Z.of_nat n_trips →
  (4 * n_trips * n_trips < fuel)%nat →
  ∃ counts, allocate fuel n_trips u target = (counts, Returned tt) ∧
            length counts = n_trips ∧ sum counts = target ∧
            Forall in_bounds counts.
Proof.
  intros HT Hfuel. unfold allocate.
  destruct (initial_draw_in_bounds n_trips u) as (l & -> & Hlen & Hok).
  pose proof (sum_in_bounds l Hok) as Hsum. rewrite Hlen in Hsum.
  unfold adjust. destruct (0 <? target - sum l) eqn:Hup.
  - apply Z.ltb_lt in Hup.
    replace (_ <? _) with false by (symmetry; apply Z.ltb_ge; rewrite sum_headroom; lia).
    destruct (raise_loop_returns fuel l (target - sum l)) as (l' & -> & Hl' & Hok' & Hs');
      [done|rewrite sum_headroom; lia|rewrite Hlen; nia|].
    exists l'. split_and!; [done|lia|lia|done].
  - apply Z.ltb_ge in Hup. destruct (target - sum l <? 0) eqn:Hdown.
    + apply Z.ltb_lt in Hdown.
      replace (_ <? _) with false by (symmetry; apply Z.ltb_ge; rewrite sum_excess; lia).
      destruct (lower_loop_returns fuel l (- (target - sum l))) as (l' & -> & Hl' & Hok' & Hs');
        [done|rewrite sum_excess; lia|rewrite Hlen; nia|].
      exists l'. split_and!; [done|lia|lia|done].
    + apply Z.ltb_ge in Hdown. exists l. split_and!; [done|done|lia|done].
Qed.

(** C1. For every feasible target ([2 * n_trips <= target <= 6 * n_trips])
    and every initial categorical draw, the allocation step returns
    per-trip counts, one per trip, that sum exactly to [target], each count
    within [2, 6]. *)
Theorem allocate_exact (n_trips : nat) (u : nat → N) (target : Z) (fuel : nat) :
  2 * Z.of_nat n_trips ≤ target ≤ 6 * Z.of_nat n_trips →
  (4 * n_trips * n_trips < fuel)%nat →
  ∃ counts, allocate fuel n_trips u target = (counts, Returned tt) ∧
            length counts = n_trips ∧ sum counts = target ∧
            Forall (fun c => 2 ≤ c ≤ 6) counts.
Proof. apply allocate_feasible. Qed.

Lemma allocate_exact_witness :
  ∃ counts, allocate 37 3 (fun _ => 0%N) 8 = (counts, Returned tt) ∧
            length counts = 3%nat ∧ sum counts = 8 ∧
            Forall (fun c => 2 ≤ c ≤ 6) counts.
Proof. apply (allocate_exact 3 (fun _ => 0%N) 8 37); simpl; lia. Defined.

(** Outside the feasible range the capacity check raises, whatever the
    fuel, and the array still holds the initial draw. *)
Lemma allocate_raises (n_trips : nat) (u : nat → N) (target : Z) (fuel : nat) :
  6 * Z.of_nat n_trips < target ∨ target < 2 * Z.of_nat n_trips →
  ∃ per_trip,
    initial_draw n_trips u = Some per_trip ∧
    allocate fuel n_trips u target
    = (per_trip,
       Raised (RuntimeError (if 6 * Z.of_nat n_trips <? target
                             then msg_no_capacity else msg_no_reduction))).
Proof.
  intros HT. unfold allocate.
  destruct (initial_draw_in_bounds n_trips u) as (l & -> & Hlen & Hok).
  pose proof (sum_in_bounds l Hok) as Hsum. rewrite Hlen in Hsum.
  exists l. split; [done|]. unfold adjust. destruct HT as [HT|HT].
  - replace (0 <? target - sum l) with true by (symmetry; apply Z.ltb_lt; lia).
    replace (_ <? target - sum l) with true
      by (symmetry; apply Z.ltb_lt; rewrite sum_headroom; lia).
    by replace (6 * Z.of_nat n_trips <? target) with true by (symmetry; apply Z.ltb_lt; lia).
  - replace (0 <? target - sum l) with false by (symmetry; apply Z.ltb_ge; lia).
    replace (target - sum l <? 0) with true by (symmetry; apply Z.ltb_lt; lia).
    replace (_ <? - (target - sum l)) with true
      by (symmetry; apply Z.ltb_lt; rewrite sum_excess; lia).
    by replace (6 * Z.of_nat n_trips <? target) with false by (symmetry; apply Z.ltb_ge; lia).
Qed.

End AllocatorProofs.

(** ** WeightDistributor *)

Section WeightDistributorProofs.

Lemma clip_min_ge lo x : (lo <= clip_min lo x)%Q.
Proof.
  unfold clip_min. destruct (Qle_bool lo x) eqn:E; [by apply Qle_bool_iff|lra].
Qed.

Lemma fsum_scaled (a b : Q) (l : list Q) :
  ¬ (a == 0)%Q → (fsum ((fun r => r / a * b)%Q <$> l) == fsum l / a * b)%Q.
Proof.
  intros Ha. unfold fsum. induction l as [|x l IH]; csimpl.
  - field. done.
  - rewrite IH. field. done.
Qed.

Lemma fsum_lower (lo : Q) (l : list Q) :
  Forall (fun x => lo <= x)%Q l → (inject_Z (Z.of_nat (length l)) * lo <= fsum l)%Q.
Proof.
  unfold fsum. induction 1 as [|x l Hx _ IH].
  { change (0 * lo <= 0)%Q. lra. }
  cbn [length foldr]. rewrite Nat2Z.inj_succ. unfold Z.succ. rewrite inject_Z_plus.
  change (inject_Z 1) with 1%Q. lra.
Qed.

Lemma clipped_sum_pos (draw : nat → Q) (n : nat) :
  (1 ≤ n)%nat → (0 < fsum (clip_min 0.5 <$> (draw <$> seq 0 n)))%Q.
Proof.
  intros Hn. set (raw := clip_min 0.5 <$> (draw <$> seq 0 n)).
  assert (Forall (fun x => 0.5 <= x)%Q raw) as Hraw.
  { apply Forall_fmap, Forall_true. intros x. apply clip_min_ge. }
  pose proof (fsum_lower _ _ Hraw) as Hlow.
  assert (length raw = n) as Hlen by (unfold raw; by rewrite !length_fmap, length_seq).
  rewrite Hlen in Hlow.
  assert (1 <= inject_Z (Z.of_nat n))%Q.
  { change 1%Q with (inject_Z 1). rewrite <- Zle_Qle. lia. }
  lra.
Qed.

Lemma clipped_floor (draw : nat → Q) (n : nat) :
  Forall (fun x => 0.5 <= x)%Q (clip_min 0.5 <$> (draw <$> seq 0 n)).
Proof. apply Forall_fmap, Forall_true. intros x. apply clip_min_ge. Qed.

(** C3. For every total quantity [total_weight > 0] and every count
    [num_packages >= 1], whatever the lognormal samples,
    [_distribute_weight_lognormal] returns exactly [num_packages] values,
    all strictly positive, whose sum is [0.95 * total_weight] (exactly so in
    the rational model of the float arithmetic). *)
Theorem distribute_weight_sum (draw : nat → Q) (total_weight : Q) (num_packages : nat) :
  (0 < total_weight)%Q → (1 ≤ num_packages)%nat →
  length (_distribute_weight_lognormal draw total_weight num_packages) = num_packages ∧
  Forall (fun w => 0 < w)%Q (_distribute_weight_lognormal draw total_weight num_packages) ∧
  (fsum (_distribute_weight_lognormal draw total_weight num_packages)
   == 0.95 * total_weight)%Q.
Proof.
  intros HQ Hn. unfold _distribute_weight_lognormal.
  pose proof (clipped_sum_pos draw num_packages Hn) as Hs.
  pose proof (clipped_floor draw num_packages) as Hraw.
  set (raw := clip_min 0.5 <$> (draw <$> seq 0 num_packages)) in *.
  split_and!.
  - unfold raw. by rewrite !length_fmap, length_seq.
  - apply Forall_fmap. eapply Forall_impl; [exact Hraw|]. intros r Hr. unfold compose. cbv beta in Hr |- *.
    apply Qmult_lt_0_compat; [|lra].
    apply Qlt_shift_div_l; [done|lra].
  - rewrite fsum_scaled by lra. field. lra.
Qed.

Lemma distribute_weight_sum_witness :
  length (_distribute_weight_lognormal (fun _ => 12%Q) 1000 4) = 4%nat ∧
  Forall (fun w => 0 < w)%Q (_distribute_weight_lognormal (fun _ => 12%Q) 1000 4) ∧
  (fsum (_distribute_weight_lognormal (fun _ => 12%Q) 1000 4) == 0.95 * 1000)%Q.
Proof. apply (distribute_weight_sum (fun _ => 12%Q) 1000 4); [reflexivity|lia]. Defined.

(** C6 fails as stated: a 20 kg load (a 50 kg motorcycle filled to 40%)
    split in six, with samples 1, 20, 20, 20, 20, 20, gives a first package
    of 19/101 kg, below 0.5. *)
Lemma distribute_weight_floor_counterexample :
  (0 < 20)%Q ∧ (1 ≤ 6)%nat ∧
  ¬ Forall (fun w => 0.5 <= w)%Q
      (_distribute_weight_lognormal (fun k => match k with O => 1 | _ => 20 end)%Q 20 6).
Proof.
  split_and!; [reflexivity|lia|]. intros H.
  apply Forall_cons in H as [H _]. vm_compute in H. by apply H.
Qed.

(** C6, amended. For every [total_weight > 0] and [num_packages >= 1],
    every value returned is at least 0.5 times the common rescaling factor
    [0.95 * total_weight / sum(clamped samples)]: the floor of 0.5 holds on
    the clamped samples and is rescaled with them.  The values are at least
    0.5 whenever that factor is at least 1, that is when the clamped samples
    sum to at most [0.95 * total_weight]. *)
Theorem distribute_weight_floor (draw : nat → Q) (total_weight : Q) (num_packages : nat) :
  (0 < total_weight)%Q → (1 ≤ num_packages)%nat →
  let raw := clip_min 0.5 <$> (draw <$> seq 0 num_packages) in
  Forall (fun w => 0.5 * (0.95 * total_weight / fsum raw) <= w)%Q
    (_distribute_weight_lognormal draw total_weight num_packages) ∧
  ((fsum raw <= 0.95 * total_weight)%Q →
   Forall (fun w => 0.5 <= w)%Q
     (_distribute_weight_lognormal draw total_weight num_packages)).
Proof.
  intros HQ Hn raw. unfold _distribute_weight_lognormal.
  pose proof (clipped_sum_pos draw num_packages Hn) as Hs.
  pose proof (clipped_floor draw num_packages) as Hraw.
  subst raw. set (raw := clip_min 0.5 <$> (draw <$> seq 0 num_packages)) in *.
  clearbody raw.
  assert (0 < 0.95 * total_weight / fsum raw)%Q as Hscale
    by (apply Qlt_shift_div_l; [done|lra]).
  assert (∀ r, r / fsum raw * (total_weight * 0.95) == r * (0.95 * total_weight / fsum raw))%Q
    as Hre by (intros r; field; lra).
  split.
  - apply Forall_fmap. eapply Forall_impl; [exact Hraw|]. intros r Hr. unfold compose. cbv beta in Hr |- *.
    rewrite (Hre r). apply Qmult_le_compat_r; [done|lra].
  - intros Hfit.
    assert (1 <= 0.95 * total_weight / fsum raw)%Q as Hone
      by (apply Qle_shift_div_l; [done|lra]).
    apply Forall_fmap. eapply Forall_impl; [exact Hraw|]. intros r Hr. unfold compose. cbv beta in Hr |- *.
    rewrite (Hre r).
    assert (0.5 * 1 <= r * (0.95 * total_weight / fsum raw))%Q; [|lra].
    apply Qle_trans with (r * 1)%Q; [lra|].
    rewrite !(Qmult_comm r). apply Qmult_le_compat_r; [done|lra].
Qed.

Lemma distribute_weight_floor_witness :
  let raw := clip_min 0.5 <$> ((fun _ => 12%Q) <$> seq 0 4) in
  Forall (fun w => 0.5 * (0.95 * 1000 / fsum raw) <= w)%Q
    (_distribute_weight_lognormal (fun _ => 12%Q) 1000 4) ∧
  ((fsum raw <= 0.95 * 1000)%Q →
   Forall (fun w => 0.5 <= w)%Q (_distribute_weight_lognormal (fun _ => 12%Q) 1000 4)).
Proof. apply (distribute_weight_floor (fun _ => 12%Q) 1000 4); [reflexivity|lia]. Defined.

End WeightDistributorProofs.

(** ** TemporalScheduler: hour selection *)

Section HourlyProofs.
Import Hourly.

Lemma hourly_zero_outside (h : nat) :
  (h < 24)%nat → (h < 6 ∨ 22 < h)%nat → _hourly_distribution_full_24 !! h = Some 0%Q.
Proof.
  intros H24 Hout.
  do 24 (destruct h as [|h]; [first [lia | reflexivity]|]). lia.
Qed.

Lemma draw_hour_range (raw : N) :
  ∃ hour : nat,
    draw_hour _hourly_distribution_full_24 raw = Some hour ∧ (6 ≤ hour ≤ 22)%nat.
Proof.
  unfold draw_hour, np_choice.
  destruct (random_unit_range raw) as [Hu0 Hu1].
  remember (random_unit raw) as x eqn:Ex. clear Ex.
  destruct (last (cumsum 0 _hourly_distribution_full_24)) as [total|] eqn:Etot;
    [|by vm_compute in Etot].
  set (cdf := (fun c => (c / total)%Q) <$> cumsum 0 _hourly_distribution_full_24).
  assert (Forall (fun c => Qle_bool c 0 = true) (take 6 cdf)) as Hlow.
  { vm_compute in Etot. injection Etot as <-. vm_compute. repeat constructor. }
  assert (∃ c, cdf !! 22%nat = Some c ∧ Qle_bool 1 c = true) as (c & Hc & H1).
  { vm_compute in Etot. injection Etot as <-. vm_compute. eexists; split; reflexivity. }
  apply Qle_bool_iff in H1.
  pose proof (searchsorted_right_before cdf x 22 c Hc ltac:(lra)) as Hhi.
  assert (6 ≤ searchsorted_right cdf x)%nat as Hlo.
  { apply searchsorted_right_after.
    - unfold cdf. rewrite length_fmap. vm_compute. lia.
    - eapply Forall_impl; [exact Hlow|]. intros q Hq. apply Qle_bool_iff in Hq. lra. }
  set (idx := searchsorted_right cdf x) in *.
  rewrite lookup_seq_lt by lia. rewrite Nat.add_0_l. exists idx. split; [|lia].
  replace (idx <? 6)%nat with false; [done|]. symmetry. apply Nat.ltb_ge. lia.
Qed.

(** The clamp of lines 417-418, whatever the probability vector: a draw
    below 6 becomes 6, any other draw is kept. *)
Lemma draw_hour_clamp (p_hour : list Q) (raw : N) (h : nat) :
  np_choice (seq 0 24) p_hour raw = Some h → draw_hour p_hour raw = Some (Nat.max 6 h).
Proof.
  unfold draw_hour. intros ->. f_equal.
  destruct (h <? 6)%nat eqn:E; [apply Nat.ltb_lt in E|apply Nat.ltb_ge in E]; lia.
Qed.

Lemma draw_hour_floor (p_hour : list Q) (raw : N) (hour : nat) :
  draw_hour p_hour raw = Some hour → (6 ≤ hour)%nat.
Proof.
  destruct (np_choice (seq 0 24) p_hour raw) as [h|] eqn:E.
  - rewrite (draw_hour_clamp _ _ _ E). intros [= <-]. lia.
  - unfold draw_hour. by rewrite E.
Qed.

(** C9. The hour vector has 24 entries and is zero at every hour outside
    [6, 22], and for every raw draw the departure hour selected from it,
    after the clamp of line 417, lies in [6, 22].  The clamp itself holds
    for every probability vector, degenerate ones included: the hour used
    is never below 6, a draw [h] below 6 being raised to 6 and any other
    draw kept ([max(6, h)]). *)
Theorem departure_hour_range :
  length _hourly_distribution_full_24 = 24%nat ∧
  (∀ h : nat, (h < 24)%nat → (h < 6 ∨ 22 < h)%nat →
              _hourly_distribution_full_24 !! h = Some 0%Q) ∧
  (∀ raw : N, ∃ hour : nat,
      draw_hour _hourly_distribution_full_24 raw = Some hour ∧ (6 ≤ hour ≤ 22)%nat) ∧
  (∀ (p_hour : list Q) (raw : N) (hour : nat),
      draw_hour p_hour raw = Some hour → (6 ≤ hour)%nat) ∧
  (∀ (p_hour : list Q) (raw : N) (h : nat),
      np_choice (seq 0 24) p_hour raw = Some h →
      draw_hour p_hour raw = Some (Nat.max 6 h)).
Proof.
  split_and!;
    [reflexivity|exact hourly_zero_outside|exact draw_hour_range
    |exact draw_hour_floor|exact draw_hour_clamp].
Qed.

End HourlyProofs.

(** ** Rounding *)

(** Rounding never crosses an integer: what lies below [m] rounds below [m]. *)
Lemma round_half_even_le (x : Q) (m : Z) : (x <= inject_Z m)%Q → round_half_even x ≤ m.
Proof.
  intros Hx. unfold round_half_even.
  pose proof (Qfloor_le x) as Hfl.
  assert (Qfloor x ≤ m) as Hfm.
  { rewrite <- (Qfloor_Z m). by apply Qfloor_resp_le. }
  assert ((0 < x - inject_Z (Qfloor x))%Q → Qfloor x + 1 ≤ m) as Hstrict.
  { intros Hpos. destruct (Z.eq_dec (Qfloor x) m) as [E|E]; [|lia].
    rewrite E in Hpos. lra. }
  destruct (x - inject_Z (Qfloor x) ?= 1 # 2)%Q eqn:E.
  - apply Qeq_alt in E. destruct (Z.even (Qfloor x)); [done|]. apply Hstrict. lra.
  - done.
  - apply Qgt_alt in E. apply Hstrict. lra.
Qed.

(** What lies at or above [m] rounds at or above [m]. *)
Lemma round_half_even_ge (x : Q) (m : Z) : (inject_Z m <= x)%Q → m ≤ round_half_even x.
Proof.
  intros Hx. unfold round_half_even.
  assert (m ≤ Qfloor x) as Hfm.
  { rewrite <- (Qfloor_Z m). by apply Qfloor_resp_le. }
  destruct (x - inject_Z (Qfloor x) ?= 1 # 2)%Q; [destruct (Z.even (Qfloor x))|..]; lia.
Qed.

Lemma round2_le (x : Q) (m : Z) : (x <= inject_Z m / 100)%Q → (round2 x <= inject_Z m / 100)%Q.
Proof.
  intros Hx. unfold round2.
  assert (x * 100 <= inject_Z m)%Q as Hx'.
  { setoid_replace (inject_Z m) with (inject_Z m / 100 * 100)%Q using relation Qeq by (field; done).
    apply Qmult_le_compat_r; [done|lra]. }
  pose proof (round_half_even_le _ _ Hx') as H. rewrite Zle_Qle in H.
  apply Qle_shift_div_l; [reflexivity|].
  setoid_replace (inject_Z (round_half_even (x * 100)) / 100 * 100)%Q
    with (inject_Z (round_half_even (x * 100))) using relation Qeq by (field; done).
  done.
Qed.

Lemma uniform_range (a b : Q) (raw : N) :
  (a <= b)%Q → (a <= uniform a b raw)%Q ∧ (uniform a b raw <= b)%Q.
Proof.
  intros Hab. unfold uniform. destruct (random_unit_range raw) as [H0 H1].
  set (r := random_unit raw) in *. clearbody r. split; nra.
Qed.

(** ** [generate_trips] *)

(** The capacities that [generate_vehicles] draws. *)
Lemma draw_vehicle_capacity (raw_type raw_capacity : N) vtype capacity fuel :
  draw_vehicle raw_type raw_capacity = Some (vtype, capacity, fuel) →
  50 ≤ capacity ≤ 18000.
Proof.
  unfold draw_vehicle, choice. simpl length.
  pose proof (Nat.mod_upper_bound (N.to_nat raw_type) 4 ltac:(lia)) as Hidx.
  destruct (N.to_nat raw_type mod 4)%nat as [|[|[|[|k]]]]; [..|lia];
    simpl; intros [= _ <- _]; unfold randint;
    match goal with
    | |- context [Z.of_N raw_capacity mod ?m] =>
        pose proof (Z.mod_pos_bound (Z.of_N raw_capacity) m ltac:(lia))
    end; lia.
Qed.

Section TripsProofs.
Import Trips.

Context (clock : nat → datetime) (draws : nat → trip_draws) (p_hour : list Q)
  (vehicles : list (Z * Z * string)) (drivers : list Z) (routes : list (Z * Q * Q)).

(** Anything that holds of each iteration's row holds of all rows. *)
Lemma trips_loop_Forall (P : trip_row → Prop) minutes_step :
  (∀ now current_dt d row,
      trip_iteration p_hour vehicles drivers routes now current_dt d = Returned row → P row) →
  ∀ remaining k current_dt rows0 rows,
    Forall P rows0 →
    trips_loop clock draws p_hour vehicles drivers routes minutes_step
      remaining k current_dt rows0 = Returned rows →
    Forall P rows.
Proof.
  intros Hiter. induction remaining as [|remaining IH]; intros k current_dt rows0 rows H0 Hrun.
  - simpl in Hrun. by injection Hrun as <-.
  - simpl in Hrun.
    destruct (trip_iteration _ _ _ _ _ _ _) as [row| |] eqn:Hrow; [|done..].
    eapply IH; [|exact Hrun]. apply Forall_app. split; [done|].
    constructor; [|done]. by eapply Hiter.
Qed.

Lemma trips_loop_length minutes_step :
  ∀ remaining k current_dt rows0 rows,
    trips_loop clock draws p_hour vehicles drivers routes minutes_step
      remaining k current_dt rows0 = Returned rows →
    length rows = (length rows0 + remaining)%nat.
Proof.
  induction remaining as [|remaining IH]; intros k current_dt rows0 rows Hrun; simpl in Hrun.
  - injection Hrun as <-. lia.
  - destruct (trip_iteration _ _ _ _ _ _ _) as [row| |]; [|done..].
    rewrite (IH _ _ _ _ Hrun), length_app. simpl. lia.
Qed.

Lemma choice_cons {A : Type} (x : A) (l : list A) (raw : N) :
  ∃ y, choice (x :: l) raw = Some y ∧ y ∈ x :: l.
Proof.
  unfold choice.
  destruct (lookup_lt_is_Some_2 (x :: l) (N.to_nat raw mod length (x :: l))%nat) as [y Hy].
  { apply Nat.mod_upper_bound. simpl. lia. }
  exists y. split; [done|]. by eapply list_elem_of_lookup_2.
Qed.

Lemma choice_elem_of {A : Type} (l : list A) (raw : N) (y : A) :
  choice l raw = Some y → y ∈ l.
Proof. unfold choice. apply list_elem_of_lookup_2. Qed.

(** The stored weight of one iteration's row against its vehicle. *)
Lemma trip_iteration_weight now current_dt d row :
  Forall (fun '(_, capacity, _) => 0 ≤ capacity) vehicles →
  trip_iteration p_hour vehicles drivers routes now current_dt d = Returned row →
  ∃ vid capacity vtype,
    (vid, capacity, vtype) ∈ vehicles ∧ vid = vehicle_id row ∧
    (total_weight_kg row <= 0.9 * inject_Z capacity)%Q.
Proof.
  intros Hcap. unfold trip_iteration.
  destruct (choice vehicles _) as [[[vid capacity] vtype]|] eqn:Ev; [|done].
  destruct (choice drivers _) as [did|]; [|done].
  destruct (choice routes _) as [[[rid distance] est_dur]|]; [|done].
  destruct (draw_hour _ _) as [hour|]; [|done].
  destruct (dict_get _ _ _) as [lo hi]. intros [= <-]. simpl.
  apply choice_elem_of in Ev. exists vid, capacity, vtype. split_and!; [done..|].
  rewrite Forall_forall in Hcap. specialize (Hcap _ Ev). simpl in Hcap.
  destruct (uniform_range 0.4 0.9 (d_weight d)) as [_ Hu]; [lra|].
  set (w := uniform 0.4 0.9 (d_weight d)) in *. clearbody w.
  assert (0 <= inject_Z capacity)%Q as Hc0.
  { change 0%Q with (inject_Z 0). by rewrite <- Zle_Qle. }
  setoid_replace (0.9 * inject_Z capacity)%Q with (inject_Z (90 * capacity) / 100)%Q
    using relation Qeq by (rewrite inject_Z_mult; field).
  apply round2_le.
  setoid_replace (inject_Z (90 * capacity) / 100)%Q with (inject_Z capacity * 0.9)%Q
    using relation Qeq by (rewrite inject_Z_mult; field).
  nra.
Qed.

(** An iteration returns a row as soon as the three catalogues are not
    empty and the hour vector is the one of the program. *)
Lemma trip_iteration_returns now current_dt d :
  vehicles ≠ [] → drivers ≠ [] → routes ≠ [] →
  ∃ row, trip_iteration Hourly._hourly_distribution_full_24 vehicles drivers routes
           now current_dt d = Returned row.
Proof.
  intros Hv Hd Hr. unfold trip_iteration.
  destruct vehicles as [|v vs]; [done|]. destruct drivers as [|dr drs]; [done|].
  destruct routes as [|r rs]; [done|].
  destruct (choice_cons v vs (d_vehicle d)) as ([[vid capacity] vtype] & -> & _).
  destruct (choice_cons dr drs (d_driver d)) as (did & -> & _).
  destruct (choice_cons r rs (d_route d)) as ([[rid distance] est_dur] & -> & _).
  destruct (draw_hour_range (d_hour d)) as (hour & -> & _).
  destruct (dict_get _ _ _) as [lo hi]. eauto.
Qed.


Lemma trips_loop_returns minutes_step :
  vehicles ≠ [] → drivers ≠ [] → routes ≠ [] →
  ∀ remaining k current_dt rows0,
    ∃ rows, trips_loop clock draws Hourly._hourly_distribution_full_24
              vehicles drivers routes minutes_step remaining k current_dt rows0
            = Returned rows.
Proof.
  intros Hv Hd Hr. induction remaining as [|remaining IH]; intros k current_dt rows0; simpl.
  - eauto.
  - destruct (trip_iteration_returns (clock (S k)) current_dt (draws k) Hv Hd Hr) as [row ->].
    apply IH.
Qed.

End TripsProofs.

Section TripsClaims.
Import Trips.

(** C7. Every row of [generate_trips] stores a total weight (rounded to two
    decimals) of at most 0.9 times the capacity of its vehicle, the
    capacities being non-negative integers as [generate_vehicles] draws
    them; and with non-empty catalogues and a positive [count] the function
    does return its [count] rows. *)
Theorem trip_weight_within_capacity
    (clock : nat → datetime) (draws : nat → trip_draws)
    (vehicles : list (Z * Z * string)) (drivers : list Z) (routes : list (Z * Q * Q))
    (count : Z) :
  Forall (fun '(_, capacity, _) => 0 ≤ capacity) vehicles →
  (∀ rows, generate_trips clock draws vehicles drivers routes count = Returned rows →
     Forall (fun row => ∃ vid capacity vtype,
                 (vid, capacity, vtype) ∈ vehicles ∧ vid = vehicle_id row ∧
                 (total_weight_kg row <= 0.9 * inject_Z capacity)%Q) rows) ∧
  (vehicles ≠ [] → drivers ≠ [] → routes ≠ [] → 0 < count →
   ∃ rows, generate_trips clock draws vehicles drivers routes count = Returned rows ∧
           length rows = Z.to_nat count).
Proof.
  intros Hcap. split.
  - intros rows. unfold generate_trips.
    destruct vehicles as [|v vs] eqn:Ev; [done|]. rewrite <- Ev in *.
    destruct drivers as [|dr drs] eqn:Ed; [done|]. rewrite <- Ed in *.
    destruct routes as [|r rs] eqn:Er; [done|]. rewrite <- Er in *.
    destruct (count =? 0); [done|].
    apply trips_loop_Forall; [|constructor].
    intros now current_dt d row. by apply trip_iteration_weight.
  - intros Hv Hd Hr Hcount. unfold generate_trips.
    destruct vehicles as [|v vs] eqn:Ev; [done|]. rewrite <- Ev in *.
    destruct drivers as [|dr drs] eqn:Ed; [done|]. rewrite <- Ed in *.
    destruct routes as [|r rs] eqn:Er; [done|]. rewrite <- Er in *.
    replace (count =? 0) with false by (symmetry; apply Z.eqb_neq; lia).
    destruct (trips_loop_returns clock draws vehicles drivers routes
                (int_of_float (inject_Z (2 * 365 * 24 * 60) / inject_Z count))
                Hv Hd Hr (Z.to_nat count) 0%nat
                (clock 0%nat - timedelta_days 730) []) as [rows Hrows].
    exists rows. split; [done|]. by rewrite (trips_loop_length _ _ _ _ _ _ _ _ _ _ _ _ Hrows).
Qed.

Lemma trip_weight_within_capacity_witness :
  (∀ rows, generate_trips (fun _ => Sample.new_year_2025) (fun _ => Sample.zero_draws)
             Sample.vehicles Sample.drivers Sample.routes 2 = Returned rows →
     Forall (fun row => ∃ vid capacity vtype,
                 (vid, capacity, vtype) ∈ Sample.vehicles ∧ vid = vehicle_id row ∧
                 (total_weight_kg row <= 0.9 * inject_Z capacity)%Q) rows) ∧
  (Sample.vehicles ≠ [] → Sample.drivers ≠ [] → Sample.routes ≠ [] → 0 < 2 →
   ∃ rows, generate_trips (fun _ => Sample.new_year_2025) (fun _ => Sample.zero_draws)
             Sample.vehicles Sample.drivers Sample.routes 2 = Returned rows ∧
           length rows = Z.to_nat 2).
Proof.
  apply (trip_weight_within_capacity (fun _ => Sample.new_year_2025)
           (fun _ => Sample.zero_draws) Sample.vehicles Sample.drivers Sample.routes 2).
  repeat constructor. simpl. lia.
Defined.


(** The reference data are lists: the same two vehicles returned by the
    catalogue query in the other order give another trip (the query of
    line 377 has no [ORDER BY]). *)
Lemma generate_trips_catalogue_order :
  generate_trips (fun _ => Sample.new_year_2025) (fun _ => Sample.zero_draws)
    [(1, 1000, "Van"); (2, 1500, "Van")] Sample.drivers Sample.routes 1
  ≠ generate_trips (fun _ => Sample.new_year_2025) (fun _ => Sample.zero_draws)
      [(2, 1500, "Van"); (1, 1000, "Van")] Sample.drivers Sample.routes 1.
Proof. vm_compute. discriminate. Qed.



End TripsClaims.

(** ** [generate_deliveries] *)

Section DeliveriesProofs.
Import Deliveries.

Context (lognormal : nat → nat → Q) (clock : nat → datetime) (draws : nat → delivery_draws).

(** An invariant of the rows and the counter that every appended row
    maintains holds when the loop over one trip returns. *)
Lemma deliveries_of_trip_inv (Inv : nat → list delivery_row → Prop)
    (trip : trip_info) (weights : list Q) (gap : Q) (n : nat) :
  (∀ i counter rows row,
      (i < n)%nat → Inv counter rows →
      delivery_iteration trip weights gap i (S counter) (clock (S counter))
        (draws (S counter)) = Returned row →
      Inv (S counter) (rows ++ [row])) →
  ∀ remaining i counter rows counter' rows',
    (i + remaining = n)%nat → Inv counter rows →
    deliveries_of_trip clock draws trip weights gap remaining i counter rows
    = Returned (counter', rows') →
    Inv counter' rows'.
Proof.
  intros Hstep. induction remaining as [|remaining IH];
    intros i counter rows counter' rows' Hn Hinv Hrun; simpl in Hrun.
  - by injection Hrun as <- <-.
  - destruct (delivery_iteration _ _ _ _ _ _ _) as [row| |] eqn:Hrow; [|done..].
    eapply (IH (S i)); [lia| |exact Hrun]. eapply Hstep; [|done..]. lia.
Qed.

(** The same over all trips. *)
Lemma deliveries_loop_inv (Inv : nat → list delivery_row → Prop) :
  ∀ (pairs : list (trip_info * Z)),
    (∀ tid departure arrival total_weight dest_city n weights i counter rows row,
        ((tid, departure, arrival, total_weight, dest_city), n) ∈ pairs →
        (i < Z.to_nat n)%nat → Inv counter rows →
        delivery_iteration (tid, departure, arrival, total_weight, dest_city) weights
          (delivery_gap departure arrival n) i (S counter) (clock (S counter))
          (draws (S counter)) = Returned row →
        Inv (S counter) (rows ++ [row])) →
    ∀ t counter rows counter' rows',
      Inv counter rows →
      deliveries_loop lognormal clock draws pairs t counter rows = Returned (counter', rows') →
      Inv counter' rows'.
Proof.
  induction pairs as [|[trip n] pairs IH]; intros Hstep t counter rows counter' rows' Hinv Hrun;
    simpl in Hrun.
  - by injection Hrun as <- <-.
  - destruct trip as [[[[tid departure] arrival] total_weight] dest_city].
    destruct (deliveries_of_trip _ _ _ _ _ _ _ _ _) as [[counter1 rows1]| |] eqn:Htrip; [|done..].
    eapply IH; [| |exact Hrun].
    + intros. eapply Hstep; [|done..]. by right.
    + eapply (deliveries_of_trip_inv Inv); [|  |done|exact Htrip].
      * intros i c rs row Hi Hc Hrow. eapply Hstep; [left|done..].
      * simpl. reflexivity.
Qed.

(** The hours of a trip, floored at one, are [max(arrival - departure, 1h)]
    microseconds. *)
Lemma total_hours_us (departure arrival : datetime) :
  (fmax (total_seconds (arrival - departure)%Z / 3600) 1 * inject_Z US_PER_HOUR
   == inject_Z (Z.max (arrival - departure)%Z US_PER_HOUR))%Q.
Proof.
  unfold fmax, total_seconds, US_PER_HOUR.
  set (D := arrival - departure).
  assert (inject_Z D / 1000000 / 3600 * inject_Z 3600000000 == inject_Z D)%Q as HD.
  { change (inject_Z 3600000000) with 3600000000%Q. field. }
  destruct (Qle_bool _ 1) eqn:E.
  - apply Qle_bool_iff in E.
    assert (inject_Z D <= inject_Z 3600000000)%Q as Hle.
    { rewrite <- HD. change (inject_Z 3600000000) with (1 * inject_Z 3600000000)%Q at 2.
      apply Qmult_le_compat_r; [done|]. by vm_compute. }
    rewrite <- Zle_Qle in Hle. rewrite Z.max_r by done. ring.
  - assert (¬ (inject_Z D / 1000000 / 3600 <= 1)%Q) as Hgt.
    { intros H. apply Qle_bool_iff in H. congruence. }
    assert (¬ (D ≤ 3600000000)) as Hn.
    { intros H. apply Hgt. rewrite Zle_Qle in H.
      apply Qle_shift_div_r; [reflexivity|]. apply Qle_shift_div_r; [reflexivity|].
      change (inject_Z 3600000000) with (1 * 3600 * 1000000)%Q in H. done. }
    rewrite Z.max_l by lia. exact HD.
Qed.

(** Line 556 for a trip whose arrival is known: delivery [i] of [n] is
    scheduled in the window that starts at the departure and lasts
    [max(arrival - departure, 1h)]. *)
Lemma scheduled_in_floored_window (departure arrival : datetime) (n : Z) (i : nat) :
  2 ≤ n ≤ 6 → (i < Z.to_nat n)%nat →
  departure
  ≤ departure + timedelta_hours (delivery_gap departure (Some arrival) n
                                 * (inject_Z (Z.of_nat i) + 0.5))
  < departure + Z.max (arrival - departure) US_PER_HOUR.
Proof.
  intros Hn Hi. unfold timedelta_hours, delivery_gap.
  pose proof (total_hours_us departure arrival) as HD.
  set (h := fmax (total_seconds (arrival - departure) / 3600) 1) in *.
  set (Dm := Z.max (arrival - departure) US_PER_HOUR) in *.
  assert (3600000000 ≤ Dm) as HDm by (unfold Dm, US_PER_HOUR; lia).
  set (I := inject_Z (Z.of_nat i)).
  assert (0 <= I)%Q as HI0.
  { unfold I. change 0%Q with (inject_Z 0). rewrite <- Zle_Qle. lia. }
  assert (I + 1 <= inject_Z n)%Q as HIn.
  { unfold I. change 1%Q with (inject_Z 1). rewrite <- inject_Z_plus, <- Zle_Qle. lia. }
  assert (2 <= inject_Z n)%Q as Hn2.
  { change 2%Q with (inject_Z 2). rewrite <- Zle_Qle. lia. }
  assert (inject_Z n <= 6)%Q as Hn6.
  { change 6%Q with (inject_Z 6). rewrite <- Zle_Qle. lia. }
  assert (3600000000 <= inject_Z Dm)%Q as HDq.
  { change 3600000000%Q with (inject_Z 3600000000). by rewrite <- Zle_Qle. }
  assert (h / inject_Z n * (I + 0.5) * inject_Z US_PER_HOUR
          == inject_Z Dm * (I + 0.5) / inject_Z n)%Q as Hx.
  { rewrite <- HD. field. lra. }
  assert (0 ≤ round_half_even (h / inject_Z n * (I + 0.5) * inject_Z US_PER_HOUR)) as Hlo.
  { apply round_half_even_ge. rewrite Hx. change (inject_Z 0) with 0%Q.
    apply Qle_shift_div_l; [lra|]. nra. }
  assert (round_half_even (h / inject_Z n * (I + 0.5) * inject_Z US_PER_HOUR) ≤ Dm - 1) as Hhi.
  { apply round_half_even_le. rewrite Hx.
    unfold Z.sub. rewrite inject_Z_plus. change (inject_Z (- (1))) with (-1)%Q.
    apply Qle_shift_div_r; [lra|].
    assert (0 <= inject_Z Dm * (inject_Z n - I - 1))%Q
      by (apply Qmult_le_0_compat; lra).
    clearbody I Dm h. nra. }
  lia.
Qed.

(** *** The loops return *)

Lemma distribute_weight_length (draw : nat → Q) (total_weight : Q) (n : nat) :
  length (_distribute_weight_lognormal draw total_weight n) = n.
Proof. unfold _distribute_weight_lognormal. by rewrite !length_fmap, length_seq. Qed.

Lemma deliveries_of_trip_returns (trip : trip_info) (weights : list Q) (gap : Q) :
  ∀ remaining i counter rows,
    (i + remaining ≤ length weights)%nat →
    ∃ rows', deliveries_of_trip clock draws trip weights gap remaining i counter rows
             = Returned ((counter + remaining)%nat, rows') ∧
             length rows' = (length rows + remaining)%nat.
Proof.
  induction remaining as [|remaining IH]; intros i counter rows Hlen; simpl.
  - exists rows. split; [do 2 f_equal; lia|lia].
  - destruct (lookup_lt_is_Some_2 weights i) as [w Hw]; [lia|].
    unfold delivery_iteration.
    destruct trip as [[[[tid departure] arrival] total_weight] dest_city] eqn:Etrip.
    rewrite Hw.
    destruct arrival as [arr|];
      (edestruct (IH (S i) (S counter)) as (rows' & -> & Hrows'); [lia|];
       exists rows'; split; [do 2 f_equal; lia|];
       rewrite Hrows', length_app; simpl; lia).
Qed.

(** The deliveries written for counts [per_trip]: one per unit. *)
Lemma deliveries_loop_returns :
  ∀ (pairs : list (trip_info * Z)) t counter rows,
    ∃ counter' rows',
      deliveries_loop lognormal clock draws pairs t counter rows = Returned (counter', rows') ∧
      length rows' = (length rows + sum_list (Z.to_nat <$> pairs.*2))%nat.
Proof.
  induction pairs as [|[trip n] pairs IH]; intros t counter rows; csimpl.
  - exists counter, rows. split; [done|lia].
  - destruct trip as [[[[tid departure] arrival] total_weight] dest_city].
    edestruct (deliveries_of_trip_returns (tid, departure, arrival, total_weight, dest_city))
      as (rows1 & -> & Hrows1); [by rewrite distribute_weight_length|].
    destruct (IH (S t) (counter + Z.to_nat n)%nat rows1) as (c' & rows' & -> & Hrows').
    exists c', rows'. split; [done|]. rewrite Hrows', Hrows1. lia.
Qed.

Lemma sum_list_to_nat (l : list Z) :
  Forall (fun c => 0 ≤ c) l → Z.of_nat (sum_list (Z.to_nat <$> l)) = sum l.
Proof. unfold sum. induction 1; csimpl; lia. Qed.

(** X12. With at least one trip, a feasible target and enough fuel,
    [generate_deliveries] returns exactly [target] rows. *)
Lemma generate_deliveries_returns fuel u (trips : list trip_info) target :
  trips ≠ [] →
  2 * Z.of_nat (length trips) ≤ target ≤ 6 * Z.of_nat (length trips) →
  (4 * length trips * length trips < fuel)%nat →
  ∃ rows, generate_deliveries fuel u lognormal clock draws trips target = Returned rows ∧
          Z.of_nat (length rows) = target.
Proof.
  intros Hne HT Hfuel. unfold generate_deliveries.
  destruct (allocate_feasible (length trips) u target fuel HT Hfuel)
    as (per_trip & Halloc & Hlen & Hsum & Hok).
  destruct (length trips) as [|m] eqn:Hm; [by destruct trips|].
  rewrite Halloc.
  destruct (deliveries_loop_returns (zip trips per_trip) 0 0 []) as (c & rows & -> & Hrows).
  exists rows. split; [done|].
  rewrite Hrows, snd_zip by lia. simpl. rewrite sum_list_to_nat; [done|].
  eapply Forall_impl; [exact Hok|]. unfold Allocator.in_bounds. intros; lia.
Qed.

(** *** Tracking numbers *)

Lemma str_pos (p : positive) : str (Z.pos p) = NilEmpty.string_of_uint (Pos.to_uint p).
Proof.
  unfold str. simpl. pose proof (DecimalPos.Unsigned.to_uint_nonnil p) as Hp.
  by destruct (Pos.to_uint p).
Qed.

Lemma zfill_digits (width : nat) (d : Decimal.uint) :
  d ≠ Decimal.Nil →
  zfill width (NilEmpty.string_of_uint d)
  = (zeros (width - String.length (NilEmpty.string_of_uint d))
       ++ NilEmpty.string_of_uint d)%string.
Proof. destruct d; [done|..]; intros _; reflexivity. Qed.

Lemma digits_value_zeros (k : nat) (s : string) :
  digits_value (zeros k ++ s) = digits_value s.
Proof.
  unfold digits_value. induction k as [|k IH]; [done|]. simpl.
  destruct (NilEmpty.uint_of_string (zeros k ++ s)) as [d|],
           (NilEmpty.uint_of_string s) as [d'|]; simpl in *; congruence.
Qed.

(** Padding keeps the number: the padded counter reads back as the counter. *)
Lemma digits_value_zfill (width : nat) (p : positive) :
  digits_value (zfill width (str (Z.pos p))) = Some (Npos p).
Proof.
  rewrite str_pos, zfill_digits by apply DecimalPos.Unsigned.to_uint_nonnil.
  rewrite digits_value_zeros. unfold digits_value.
  rewrite NilEmpty.usu. simpl. f_equal. apply DecimalPos.Unsigned.of_to.
Qed.

Lemma string_app_inj (s1 s2 t1 t2 : string) :
  String.length s1 = String.length s2 → (s1 ++ t1 = s2 ++ t2)%string → t1 = t2.
Proof.
  revert s2. induction s1 as [|c s1 IH]; intros [|c' s2] Hlen Heq; simpl in *; try done.
  injection Heq as _ Heq. eapply IH; [|done]. lia.
Qed.

(** A year of four digits is printed on four characters. *)
Lemma str_year_length (y : Z) : 1000 ≤ y ≤ 9999 → String.length (str y) = 4%nat.
Proof.
  intros Hy.
  assert (forallb (fun k => Nat.eqb (String.length (str (1000 + Z.of_nat k))) 4)
            (seq 0 (Z.to_nat 9000)) = true) as Hall by (vm_compute; reflexivity).
  rewrite forallb_forall in Hall.
  specialize (Hall (Z.to_nat (y - 1000))). rewrite Z2Nat.id in Hall by lia.
  replace (1000 + (y - 1000)) with y in Hall by lia.
  apply Nat.eqb_eq, Hall, in_seq. lia.
Qed.

(** Two tracking numbers taken in four-digit years are equal only for
    equal counters. *)
Lemma tracking_inj (now1 now2 : datetime) (c1 c2 : nat) :
  1000 ≤ year_of now1 ≤ 9999 → 1000 ≤ year_of now2 ≤ 9999 →
  tracking now1 (Z.of_nat (S c1)) = tracking now2 (Z.of_nat (S c2)) → c1 = c2.
Proof.
  intros Hy1 Hy2. unfold tracking. intros Heq.
  injection Heq as Heq. change (String.append EmptyString ?x) with x in Heq.
  apply string_app_inj in Heq; [|by rewrite !str_year_length].
  apply (f_equal digits_value) in Heq.
  rewrite !Nat2Z.inj_succ in Heq.
  destruct (Z.succ (Z.of_nat c1)) as [|p1|p1] eqn:E1; [lia| |lia].
  destruct (Z.succ (Z.of_nat c2)) as [|p2|p2] eqn:E2; [lia| |lia].
  rewrite !digits_value_zfill in Heq. injection Heq as ->. lia.
Qed.

Lemma numbered_step trip weights gap i counter rows row :
  numbered clock counter rows →
  delivery_iteration trip weights gap i (S counter) (clock (S counter)) (draws (S counter))
  = Returned row →
  numbered clock (S counter) (rows ++ [row]).
Proof.
  intros [Hlen Hrows] Hrow. split; [rewrite length_app; simpl; lia|].
  intros j row' Hj. apply lookup_snoc_Some in Hj as [[Hlt Hj]|[-> ->]]; [by apply Hrows|].
  rewrite <- Hlen. unfold delivery_iteration in Hrow.
  destruct trip as [[[[tid departure] arrival] total_weight] dest_city].
  destruct (weights !! i); [|done]. by destruct arrival; injection Hrow as <-.
Qed.

Lemma generate_deliveries_numbered fuel u trips target rows :
  generate_deliveries fuel u lognormal clock draws trips target = Returned rows →
  numbered clock (length rows) rows.
Proof.
  unfold generate_deliveries. destruct (length trips) as [|m]; [done|].
  destruct (Allocator.allocate _ _ _ _) as [per_trip [r| |]]; [|done..].
  destruct (deliveries_loop _ _ _ _ _ _ _) as [[counter rows']| |] eqn:Hloop; [|done..].
  intros [= <-].
  assert (numbered clock counter rows') as Hnum.
  { refine (deliveries_loop_inv (numbered clock) (zip trips per_trip) _ _ _ _ _ _ _ Hloop).
    - intros. by eapply numbered_step.
    - split; [done|]. intros j row Hj. by rewrite lookup_nil in Hj. }
  destruct Hnum as [-> ?]. by split.
Qed.

End DeliveriesProofs.

Section DeliveriesClaims.
Import Deliveries.

(** The floor of one hour on line 544, on a trip that [generate_trips] does
    not write: were a completed trip to last thirty minutes, the second of
    its two deliveries would be scheduled 45 minutes after the departure. *)
Lemma short_trip_schedule :
  ∃ rows row,
    generate_deliveries 10 (fun _ => 0%N) (fun _ _ => 12%Q)
      (fun _ => Sample.new_year_2025) (fun _ => Sample.delivery_zero_draws)
      [Sample.short_trip] 2 = Returned rows ∧
    rows !! 1%nat = Some row ∧ trip_id row = 1 ∧
    scheduled_datetime row = Sample.new_year_2025 + 45 * US_PER_MINUTE ∧
    ¬ (scheduled_datetime row < Sample.new_year_2025 + 30 * US_PER_MINUTE).
Proof.
  eexists _, _. split_and!; [vm_compute; reflexivity|reflexivity|reflexivity|reflexivity|].
  vm_compute. discriminate.
Qed.

(** For every trip with a known arrival and every one of its deliveries,
    the scheduled timestamp falls within
    [departure, departure + max(arrival - departure, 1 hour)), the duration
    being floored at one hour; it falls inside [departure, arrival) whenever
    the trip lasts at least one hour. *)
Lemma scheduled_within_window
    (fuel : nat) (u : nat → N) (lognormal : nat → nat → Q) (clock : nat → datetime)
    (draws : nat → delivery_draws) (trips : list trip_info) (target : Z)
    (rows : list delivery_row) :
  generate_deliveries fuel u lognormal clock draws trips target = Returned rows →
  Forall (fun row =>
            ∃ tid departure arrival total_weight dest_city,
              (tid, departure, arrival, total_weight, dest_city) ∈ trips ∧
              trip_id row = tid ∧
              ∀ arr, arrival = Some arr →
                departure ≤ scheduled_datetime row
                  < departure + Z.max (arr - departure) US_PER_HOUR ∧
                (US_PER_HOUR ≤ arr - departure → scheduled_datetime row < arr)) rows.
Proof.
  unfold generate_deliveries. destruct (length trips) as [|m] eqn:Hm; [done|].
  destruct (Allocator.allocate _ _ _ _) as [per_trip [r| |]] eqn:Halloc; [|done..].
  destruct (allocate_returned_in_bounds _ _ _ _ _ _ Halloc) as [Hbounds _].
  destruct (deliveries_loop _ _ _ _ _ _ _) as [[counter rows']| |] eqn:Hloop; [|done..].
  intros [= <-].
  refine (deliveries_loop_inv lognormal clock draws (fun _ rs => Forall _ rs)
            (zip trips per_trip) _ _ _ _ _ _ (Forall_nil_2 _) Hloop).
  intros tid departure arrival total_weight dest_city n weights i c rs row Hin Hi Hrs Hrow.
  apply Forall_app. split; [done|]. constructor; [|done].
  pose proof (elem_of_zip_l _ _ _ _ Hin) as Htrip.
  pose proof (elem_of_zip_r _ _ _ _ Hin) as Hn.
  rewrite Forall_forall in Hbounds. specialize (Hbounds _ Hn).
  exists tid, departure, arrival, total_weight, dest_city.
  unfold delivery_iteration in Hrow. destruct (weights !! i) as [w|]; [|done].
  destruct arrival as [arr|]; injection Hrow as <-; cbn [scheduled_datetime trip_id];
    (split_and!; [done..|]); intros arr' [= <-].
  pose proof (scheduled_in_floored_window departure arr n i Hbounds Hi) as Hwin.
  unfold delivery_gap in Hwin.
  split; [exact Hwin|]. intros Hlong. rewrite Z.max_l in Hwin by done. lia.
Qed.

(** C5. For every trip with a known arrival and every one of its [n]
    deliveries, the scheduled timestamp [departure + gap * (i + 0.5)], with
    [gap = duration / n], falls within [departure, arrival).  The trips are
    those that the program writes: a trip with an arrival lasts at least
    one hour ([generate_trips] over the routes of [generate_routes] gives
    more than two, lemma [generated_trip_lasts_two_hours]), so that the floor
    of one hour on line 544 leaves the duration as it is. *)
Theorem scheduled_within_trip
    (fuel : nat) (u : nat → N) (lognormal : nat → nat → Q) (clock : nat → datetime)
    (draws : nat → delivery_draws) (trips : list trip_info) (target : Z)
    (rows : list delivery_row) :
  Forall (fun '(_, departure, arrival, _, _) =>
            ∀ arr, arrival = Some arr → US_PER_HOUR ≤ arr - departure) trips →
  generate_deliveries fuel u lognormal clock draws trips target = Returned rows →
  Forall (fun row =>
            ∃ tid departure arrival total_weight dest_city,
              (tid, departure, arrival, total_weight, dest_city) ∈ trips ∧
              trip_id row = tid ∧
              ∀ arr, arrival = Some arr →
                departure ≤ scheduled_datetime row < arr) rows.
Proof.
  intros Hlong Hrun.
  eapply Forall_impl; [exact (scheduled_within_window _ _ _ _ _ _ _ _ Hrun)|].
  intros row (tid & departure & arrival & total_weight & dest_city & Hin & Htid & Hwin).
  exists tid, departure, arrival, total_weight, dest_city. split; [done|]. split; [done|].
  intros arr Harr. destruct (Hwin arr Harr) as [[Hlo _] Hhi].
  rewrite Forall_forall in Hlong. specialize (Hlong _ Hin). simpl in Hlong.
  split; [exact Hlo|]. apply Hhi. by apply Hlong.
Qed.

Lemma scheduled_within_trip_witness :
  ∃ rows,
    generate_deliveries 10 (fun _ => 0%N) (fun _ _ => 12%Q)
      (fun _ => Sample.new_year_2025) (fun _ => Sample.delivery_zero_draws)
      [Sample.long_trip] 3 = Returned rows ∧
    Forall (fun row =>
              ∃ tid departure arrival total_weight dest_city,
                (tid, departure, arrival, total_weight, dest_city) ∈ [Sample.long_trip] ∧
                trip_id row = tid ∧
                ∀ arr, arrival = Some arr →
                  departure ≤ scheduled_datetime row < arr) rows.
Proof.
  eexists. split; [vm_compute; reflexivity|].
  apply (scheduled_within_trip 10 (fun _ => 0%N) (fun _ _ => 12%Q)
           (fun _ => Sample.new_year_2025) (fun _ => Sample.delivery_zero_draws)
           [Sample.long_trip] 3).
  - repeat constructor. intros arr [= <-]. vm_compute. discriminate.
  - vm_compute. reflexivity.
Defined.

(** C2. For every target outside the feasible range
    ([target > 6 * n_trips] or [target < 2 * n_trips], [n_trips] the number
    of trips) the allocation step raises the allocation-infeasible
    [RuntimeError]; it does so whatever the fuel, that is before the first
    iteration of a correction loop, and the array still holds the initial
    draw: no count has been changed.  [generate_deliveries] then raises and
    hands no row to the insert. *)
Theorem allocate_infeasible
    (fuel : nat) (u : nat → N) (lognormal : nat → nat → Q) (clock : nat → datetime)
    (draws : nat → delivery_draws) (trips : list trip_info) (target : Z) :
  6 * Z.of_nat (length trips) < target ∨ target < 2 * Z.of_nat (length trips) →
  (∃ per_trip,
      Allocator.initial_draw (length trips) u = Some per_trip ∧
      Allocator.allocate fuel (length trips) u target
      = (per_trip,
         Raised (RuntimeError (if 6 * Z.of_nat (length trips) <? target
                               then Allocator.msg_no_capacity
                               else Allocator.msg_no_reduction)))) ∧
  (∃ msg, generate_deliveries fuel u lognormal clock draws trips target
          = Raised (RuntimeError msg)).
Proof.
  intros HT. pose proof (allocate_raises (length trips) u target fuel HT) as Hraise.
  split; [exact Hraise|]. destruct Hraise as (per_trip & _ & Hrun).
  unfold generate_deliveries. destruct (length trips) as [|m] eqn:Hm; [by eexists|].
  rewrite Hrun. by eexists.
Qed.

Lemma allocate_infeasible_witness :
  (∃ per_trip,
      Allocator.initial_draw 2 (fun _ => 0%N) = Some per_trip ∧
      Allocator.allocate 0 2 (fun _ => 0%N) 20
      = (per_trip, Raised (RuntimeError Allocator.msg_no_capacity))) ∧
  (∃ msg, generate_deliveries 0 (fun _ => 0%N) (fun _ _ => 12%Q)
            (fun _ => Sample.new_year_2025) (fun _ => Sample.delivery_zero_draws)
            [Sample.short_trip; Sample.long_trip] 20
          = Raised (RuntimeError msg)).
Proof.
  apply (allocate_infeasible 0 (fun _ => 0%N) (fun _ _ => 12%Q)
           (fun _ => Sample.new_year_2025) (fun _ => Sample.delivery_zero_draws)
           [Sample.short_trip; Sample.long_trip] 20).
  left. simpl. lia.
Defined.

(** C10. Within one run of [generate_deliveries] the tracking numbers are
    pairwise distinct: the delivery appended in position [j] carries the
    counter [j + 1], zero-padded to eight digits, after the year of the
    clock reading; the clock is taken to read four-digit years. *)
Theorem tracking_numbers_distinct
    (fuel : nat) (u : nat → N) (lognormal : nat → nat → Q) (clock : nat → datetime)
    (draws : nat → delivery_draws) (trips : list trip_info) (target : Z)
    (rows : list delivery_row) :
  (∀ k, 1000 ≤ year_of (clock k) ≤ 9999) →
  generate_deliveries fuel u lognormal clock draws trips target = Returned rows →
  NoDup (tracking_number <$> rows) ∧
  (∀ j row, rows !! j = Some row →
            tracking_number row = tracking (clock (S j)) (Z.of_nat (S j))).
Proof.
  intros Hyear Hrun.
  destruct (generate_deliveries_numbered _ _ _ _ _ _ _ _ Hrun) as [_ Hnum].
  split; [|exact Hnum]. apply NoDup_alt. intros i j x Hi Hj.
  rewrite list_lookup_fmap in Hi, Hj.
  destruct (rows !! i) as [ri|] eqn:Ei; [|done].
  destruct (rows !! j) as [rj|] eqn:Ej; [|done].
  simpl in Hi, Hj. injection Hi as Hi. injection Hj as Hj.
  rewrite (Hnum _ _ Ei) in Hi. rewrite (Hnum _ _ Ej) in Hj.
  eapply tracking_inj; [apply Hyear|apply Hyear|]. by rewrite Hi, Hj.
Qed.

Lemma tracking_numbers_distinct_witness :
  ∃ rows,
    generate_deliveries 10 (fun _ => 0%N) (fun _ _ => 12%Q)
      (fun _ => Sample.new_year_2025) (fun _ => Sample.delivery_zero_draws)
      [Sample.long_trip] 2 = Returned rows ∧
    NoDup (tracking_number <$> rows) ∧
    (∀ j row, rows !! j = Some row →
              tracking_number row
              = tracking Sample.new_year_2025 (Z.of_nat (S j))).
Proof.
  eexists. split; [vm_compute; reflexivity|].
  apply (tracking_numbers_distinct 10 (fun _ => 0%N) (fun _ _ => 12%Q)
           (fun _ => Sample.new_year_2025) (fun _ => Sample.delivery_zero_draws)
           [Sample.long_trip] 2).
  - intros _. vm_compute. split; discriminate.
  - vm_compute. reflexivity.
Defined.

End DeliveriesClaims.

(** ** [generate_maintenance] *)

Section MaintenanceProofs.
Import Maintenance.

Context (jitter : nat → N) (draws : nat → maintenance_draws).

Lemma draw_threshold_pos raw : (0 < draw_threshold raw)%Q.
Proof.
  unfold draw_threshold. destruct (uniform_range (-300) 300 raw) as [Hlo _]; [lra|]. lra.
Qed.

Lemma date_of_add_days (dt : datetime) (d : Z) :
  date_of (dt + timedelta_days d) = date_of dt + d.
Proof. unfold date_of, timedelta_days, US_PER_DAY. by rewrite Z.div_add. Qed.

Lemma date_of_add_span (first_trip last_trip : datetime) :
  date_of first_trip + days (last_trip - first_trip) ≤ date_of last_trip.
Proof.
  unfold date_of, days, US_PER_DAY.
  apply Z.div_le_lower_bound; [lia|].
  pose proof (Z.mul_div_le first_trip 86400000000 ltac:(lia)).
  pose proof (Z.mul_div_le (last_trip - first_trip) 86400000000 ltac:(lia)). lia.
Qed.

(** The date of an event reached within the total distance, for a vehicle
    whose trips span at least one day. *)
Lemma maintenance_event_date vid first_trip last_trip total_km km_cursor d row :
  (0 < total_km)%Q → (0 <= km_cursor)%Q → (km_cursor <= total_km)%Q →
  1 ≤ days (last_trip - first_trip) →
  maintenance_event vid first_trip last_trip total_km km_cursor d = Returned row →
  vehicle_id row = vid ∧
  date_of first_trip ≤ maintenance_date row ≤ date_of last_trip.
Proof.
  intros Htot Hkm0 Hkm1 Hspan. unfold maintenance_event.
  destruct (choice MAINTENANCE_TYPES _) as [[[maint_type base_cost] days_next]|]; [|done].
  intros [= <-]. cbn [vehicle_id maintenance_date]. split; [done|].
  rewrite date_of_add_days, Z.max_l by done.
  pose proof (date_of_add_span first_trip last_trip) as Hlast.
  set (span := days (last_trip - first_trip)) in *.
  assert (1 <= inject_Z span)%Q as Hs.
  { change 1%Q with (inject_Z 1). by rewrite <- Zle_Qle. }
  assert (0 <= km_cursor / total_km)%Q as Hf0 by (apply Qle_shift_div_l; [done|lra]).
  assert (km_cursor / total_km <= 1)%Q as Hf1 by (apply Qle_shift_div_r; [done|lra]).
  set (frac := (km_cursor / total_km)%Q) in *. clearbody frac.
  assert (0 <= frac * inject_Z span)%Q as Hp0 by (apply Qmult_le_0_compat; lra).
  assert (frac * inject_Z span <= inject_Z span)%Q as Hp1 by nra.
  unfold int_of_float. apply Qle_bool_iff in Hp0 as Hb. rewrite Hb.
  assert (0 ≤ Qfloor (frac * inject_Z span)).
  { change 0 with (Qfloor (inject_Z 0)). by apply Qfloor_resp_le. }
  assert (Qfloor (frac * inject_Z span) ≤ span).
  { rewrite <- (Qfloor_Z span) at 2. by apply Qfloor_resp_le. }
  lia.
Qed.

(** Anything that holds of the events of a vehicle, reached at a distance
    within its total, holds of the rows the loop appends. *)
Lemma vehicle_loop_Forall (P : maintenance_row → Prop) vid first_trip last_trip total_km :
  (∀ km_cursor d row,
      (0 <= km_cursor)%Q → (km_cursor <= total_km)%Q →
      maintenance_event vid first_trip last_trip total_km km_cursor d = Returned row →
      P row) →
  ∀ budget km_cursor next_threshold q rows q' rows',
    (0 <= km_cursor)%Q → (0 < next_threshold)%Q → Forall P rows →
    vehicle_loop jitter draws vid first_trip last_trip total_km
      budget km_cursor next_threshold q rows = Returned (q', rows') →
    Forall P rows'.
Proof.
  intros Hevent. induction budget as [|budget IH];
    intros km_cursor next_threshold q rows q' rows' Hkm Hth Hrows Hrun; simpl in Hrun.
  - by injection Hrun as _ <-.
  - destruct (Qle_bool _ total_km) eqn:Hguard; [|by injection Hrun as _ <-].
    apply Qle_bool_iff in Hguard.
    destruct (maintenance_event _ _ _ _ _ _) as [row| |] eqn:Hrow; [|done..].
    eapply IH; [| | |exact Hrun].
    + lra.
    + apply draw_threshold_pos.
    + apply Forall_app. split; [done|]. constructor; [|done].
      eapply Hevent; [| |exact Hrow]; lra.
Qed.

Lemma maintenance_loop_Forall (P : maintenance_row → Prop) :
  ∀ stats : list vehicle_stats,
    (∀ vid vtype trip_count first_trip last_trip total_km km_cursor d row,
        (vid, vtype, trip_count, Some first_trip, Some last_trip, total_km) ∈ stats →
        (0 < total_km)%Q → (0 <= km_cursor)%Q → (km_cursor <= total_km)%Q →
        maintenance_event vid first_trip last_trip total_km km_cursor d = Returned row →
        P row) →
    ∀ target q rows rows',
      Forall P rows →
      maintenance_loop jitter draws stats target q rows = Returned rows' →
      Forall P rows'.
Proof.
  induction stats as [|[[[[[vid vtype] trip_count] first_trip] last_trip] total_km] stats IH];
    intros Hevent target q rows rows' Hrows Hrun; simpl in Hrun.
  - by injection Hrun as <-.
  - assert (∀ q0 rows0, Forall P rows0 →
              maintenance_loop jitter draws stats target q0 rows0 = Returned rows' →
              Forall P rows') as Hnext.
    { intros q0 rows0. apply IH. intros. eapply Hevent; [by right|done..]. }
    destruct first_trip as [first_trip|]; [|by eapply Hnext].
    destruct last_trip as [last_trip|]; [|by eapply Hnext].
    destruct (Qle_bool total_km 0) eqn:Hkm; [by eapply Hnext|].
    assert (0 < total_km)%Q as Hpos.
    { destruct (Qlt_le_dec 0 total_km) as [|Hle]; [done|].
      apply Qle_bool_iff in Hle. congruence. }
    destruct (vehicle_loop _ _ _ _ _ _ _ _ _ _ _) as [[q1 rows1]| |] eqn:Hveh; [|done..].
    assert (Forall P rows1) as Hrows1.
    { eapply vehicle_loop_Forall; [| | | |exact Hveh]; [|lra|apply draw_threshold_pos|done].
      intros km_cursor d row Hk0 Hk1 Hrow. eapply Hevent; [by left|done..]. }
    destruct (target <=? Z.of_nat (length rows1)); [by injection Hrun as <-|].
    by eapply Hnext.
Qed.

End MaintenanceProofs.

Section MaintenanceClaims.
Import Maintenance.

(** X21. Where the trips of a vehicle span at least one day, every event of
    [generate_maintenance] is dated within
    [first_trip_date, last_trip_date]. *)
Lemma maintenance_dates_within_span
    (jitter : nat → N) (draws : nat → maintenance_draws)
    (stats : list vehicle_stats) (target : Z) (rows : list maintenance_row) :
  generate_maintenance jitter draws stats target = Returned rows →
  Forall (fun row =>
            ∃ vid vtype trip_count first_trip last_trip total_km,
              (vid, vtype, trip_count, Some first_trip, Some last_trip, total_km) ∈ stats ∧
              vehicle_id row = vid ∧
              (1 ≤ days (last_trip - first_trip) →
               date_of first_trip ≤ maintenance_date row ≤ date_of last_trip)) rows.
Proof.
  unfold generate_maintenance.
  destruct (maintenance_loop _ _ _ _ _ _) as [rows'| |] eqn:Hloop; [|done..].
  intros [= <-]. unfold slice_to. destruct (0 <=? target); apply Forall_take;
    (eapply maintenance_loop_Forall; [|apply Forall_nil_2|exact Hloop]);
    intros vid vtype trip_count first_trip last_trip total_km km_cursor d row
      Hin Htot Hk0 Hk1 Hrow;
    exists vid, vtype, trip_count, first_trip, last_trip, total_km;
    (split; [done|]);
    (destruct (Z_le_dec 1 (days (last_trip - first_trip))) as [Hspan|Hspan];
     [destruct (maintenance_event_date _ _ _ _ _ _ _ Htot Hk0 Hk1 Hspan Hrow); by split|]);
    (split; [|done]); unfold maintenance_event in Hrow;
    destruct (choice MAINTENANCE_TYPES _) as [[[? ?] ?]|]; [|done| |done];
    by injection Hrow as <-.
Qed.

(** C8, the failing input. A vehicle whose trips all fall on 2025-01-01
    (06:00 to 20:00) and total 10000 km, with a first threshold drawn at
    exactly 10000 km: the event is dated 2025-01-02, after the date of
    the last trip. *)
Theorem maintenance_date_after_last_trip :
  ∃ row,
    generate_maintenance (fun _ => Sample.half) (fun _ => Sample.maintenance_zero_draws)
      [Sample.one_day_vehicle] 5000 = Returned [row] ∧
    vehicle_id row = 1 ∧
    maintenance_date row = date_of (Sample.new_year_2025 + 6 * US_PER_HOUR) + 1 ∧
    date_of (Sample.new_year_2025 + 20 * US_PER_HOUR) < maintenance_date row.
Proof. eexists. split_and!; [vm_compute; reflexivity|reflexivity..]. Qed.

End MaintenanceClaims.

(* ====================================================================== *)
(** * Part III. Further properties of the generator and of the ETL        *)
(* ====================================================================== *)

(** ** Distances and tolls *)

(** Membership in a list that is written out. *)
Ltac in_list := rewrite !elem_of_cons; repeat first [left; reflexivity | right].

Section DistanceProofs.
Import Routes.

Lemma dict_get_cases {K V : Type} `{EqDecision K} (d : list (K * V)) (key : K) (default : V) :
  dict_get d key default = default ∨ (key, dict_get d key default) ∈ d.
Proof.
  induction d as [|[k v] d IH]; simpl; [by left|].
  destruct (decide (k = key)) as [->|]; [right; left|].
  destruct IH as [IH|IH]; [by left|right; by right].
Qed.

(** The key that is looked up is in ascending order. *)
Lemma sorted_pair_sorted (a b : string) :
  String.ltb (sorted_pair a b).2 (sorted_pair a b).1 = false.
Proof.
  unfold sorted_pair. destruct (String.ltb b a) eqn:E; simpl; [|done].
  unfold String.ltb in *. rewrite String.compare_antisym.
  by destruct (String.compare b a).
Qed.

Lemma sorted_pair_comm (a b : string) : sorted_pair a b = sorted_pair b a.
Proof.
  unfold sorted_pair, String.ltb. rewrite (String.compare_antisym a b).
  destruct (String.compare b a) eqn:E; simpl; try done.
  apply String.compare_eq_iff in E. by subst.
Qed.

(** X1. [_get_distance] does not depend on the order of its arguments. *)
Theorem get_distance_symmetric (a b : string) : _get_distance a b = _get_distance b a.
Proof.
  unfold _get_distance. destruct (decide (a = b)) as [->|Hne].
  - by destruct (decide (b = b)).
  - destruct (decide (b = a)) as [->|_]; [done|]. by rewrite sorted_pair_comm.
Qed.

Lemma get_distance_same (a : string) : _get_distance a a = 0%Q.
Proof. unfold _get_distance. by destruct (decide (a = a)). Qed.

Lemma get_distance_cases (a b : string) :
  a ≠ b → _get_distance a b ∈ [123%Q; 409%Q; 443%Q; 518%Q; 500%Q].
Proof.
  intros Hne. unfold _get_distance. destruct (decide (a = b)); [done|].
  pose proof (sorted_pair_sorted a b) as Hs.
  destruct (sorted_pair a b) as [x y]. simpl in Hs.
  match goal with |- dict_get ?d ?k ?def ∈ _ =>
    destruct (dict_get_cases d k def) as [->|Hin]; [in_list|];
    remember (dict_get d k def) as v eqn:Ev; clear Ev
  end.
  simpl in Hin. rewrite !elem_of_cons, elem_of_nil in Hin.
  destruct Hin as [H|[H|[H|[H|[H|[H|[H|[H|[H|[H|[]]]]]]]]]]];
    injection H as -> -> ->; first [discriminate Hs | in_list].
Qed.

Lemma get_distance_range (a b : string) :
  a ≠ b → (123 <= _get_distance a b)%Q ∧ (_get_distance a b <= 518)%Q.
Proof.
  intros Hne. pose proof (get_distance_cases a b Hne) as H.
  rewrite !elem_of_cons, elem_of_nil in H.
  destruct H as [->|[->|[->|[->|[->|[]]]]]]; split; by vm_compute.
Qed.

(** X2. [_get_distance] is 0 on a city and itself, and for two different
    names, whatever they are, one of 123, 409, 443, 518 and the default
    500: the six entries of [DISTANCES] whose key is not written in
    ascending order (1001, 388, 703, 1116, 584 and the second 518) are never
    found. *)
Theorem get_distance_values (a b : string) :
  (a = b → _get_distance a b = 0%Q) ∧
  (a ≠ b → _get_distance a b ∈ [123%Q; 409%Q; 443%Q; 518%Q; 500%Q]) ∧
  _get_distance "Bogotá" "Barranquilla" = 500%Q.
Proof.
  split_and!; [intros ->; apply get_distance_same|apply get_distance_cases|reflexivity].
Qed.

End DistanceProofs.

(** ** [generate_routes] *)

Lemma round2_ge (x : Q) (m : Z) : (inject_Z m / 100 <= x)%Q → (inject_Z m / 100 <= round2 x)%Q.
Proof.
  intros Hx. unfold round2.
  assert (inject_Z m <= x * 100)%Q as Hx'.
  { setoid_replace (inject_Z m) with (inject_Z m / 100 * 100)%Q using relation Qeq
      by (field; done).
    apply Qmult_le_compat_r; [done|lra]. }
  pose proof (round_half_even_ge _ _ Hx') as H. rewrite Zle_Qle in H.
  apply Qle_shift_div_l; [reflexivity|].
  setoid_replace (inject_Z m / 100 * 100)%Q with (inject_Z m) using relation Qeq
    by (field; done).
  done.
Qed.

Section RoutesProofs.
Import Routes.

Context (draws : nat → route_draws) (count : Z).

Local Abbreviation reach K routes routes' :=
  (extends draws routes routes' ∧ grown count K routes routes').

(** Five cities: 20 ordered pairs in two variants, 60 chains of three and
    120 chains of four. *)
Lemma simple_candidates_total :
  sum_list_with (fun o => simple_candidates o CITIES) CITIES = 40%nat.
Proof. by vm_compute. Qed.

Lemma abc_candidates_total :
  sum_list_with (fun a => abc_b_candidates a CITIES) CITIES = 60%nat.
Proof. by vm_compute. Qed.

Lemma abcd_candidates_total :
  sum_list_with (fun a => abcd_b_candidates a CITIES) CITIES = 120%nat.
Proof. by vm_compute. Qed.

Lemma cities_in_cities : Forall (.∈ CITIES) CITIES.
Proof. by apply Forall_forall. Qed.

Local Opaque CITIES.

Lemma extends_trans r1 r2 r3 : extends draws r1 r2 → extends draws r2 r3 → extends draws r1 r3.
Proof. intros H12 H23. induction H23; [done|]. by constructor; auto. Qed.

Lemma length_add_route o d km routes :
  length (add_route draws o d km routes) = S (length routes).
Proof. unfold add_route. rewrite length_app. simpl. lia. Qed.

Lemma full_true routes : full count routes = true ↔ (Z.to_nat count ≤ length routes)%nat.
Proof. unfold full. rewrite Z.leb_le. lia. Qed.

Lemma full_false routes : full count routes = false ↔ (length routes < Z.to_nat count)%nat.
Proof. unfold full. rewrite Z.leb_gt. lia. Qed.

Lemma reach_refl r : reach 0 r r.
Proof. split; [constructor|]. unfold grown. lia. Qed.

Lemma reach_comp K1 K2 r r1 r2 : reach K1 r r1 → reach K2 r1 r2 → reach (K1 + K2) r r2.
Proof.
  intros [E1 G1] [E2 G2]. split; [by eapply extends_trans|]. unfold grown in *. lia.
Qed.

(** Once [count] is reached, what is left to add does not matter. *)
Lemma reach_full K1 K2 r r1 : reach K1 r r1 → full count r1 = true → reach (K1 + K2) r r1.
Proof. intros [E1 G1] Hfull%full_true. split; [done|]. unfold grown in *. lia. Qed.

Lemma reach_add o d km r :
  full count r = false →
  o ∈ CITIES → d ∈ CITIES → o ≠ d → (116.85 <= km)%Q → (km <= 1600.62)%Q →
  reach 1 r (add_route draws o d km r).
Proof.
  intros Hfull%full_false ? ? ? ? ?. split; [apply extends_add; [apply extends_refl|done..]|].
  unfold grown. rewrite length_add_route. lia.
Qed.

Lemma variants_loop_reach o d base_km :
  o ∈ CITIES → d ∈ CITIES → o ≠ d → (123 <= base_km)%Q → (base_km <= 518)%Q →
  ∀ n r, reach n r (variants_loop draws count o d base_km n r).
Proof.
  intros Ho Hd Hne Hlo Hhi. induction n as [|n IH]; intros r; simpl; [apply reach_refl|].
  destruct (full count r) eqn:Hfull.
  - apply (reach_full 0 (S n) r r); [apply reach_refl|done].
  - eapply (reach_comp 1 n); [|apply IH].
    destruct (uniform_range 0.95 1.05 (d_km (draws (length r)))) as [Hu0 Hu1]; [lra|].
    apply reach_add; [done..| |]; nra.
Qed.

Lemma simple_dest_loop_reach o :
  o ∈ CITIES →
  ∀ ds r, Forall (.∈ CITIES) ds →
          reach (simple_candidates o ds) r (simple_dest_loop draws count o ds r).
Proof.
  intros Ho. unfold simple_candidates.
  induction ds as [|d ds IH]; intros r Hds; simpl; [apply reach_refl|].
  apply Forall_cons in Hds as [Hd Hds].
  destruct (decide (o = d)) as [->|Hne]; [by apply IH|].
  destruct (get_distance_range o d Hne) as [Hlo Hhi].
  destruct (Qle_bool (_get_distance o d) 0) eqn:Hq.
  { apply Qle_bool_iff in Hq. lra. }
  apply (reach_comp _ _ r (variants_loop draws count o d (_get_distance o d)
                             VARIANTS_PER_PAIR r));
    [by apply variants_loop_reach|by apply IH].
Qed.

Lemma simple_loop_reach :
  ∀ os r, Forall (.∈ CITIES) os →
          reach (sum_list_with (fun o => simple_candidates o CITIES) os) r
            (simple_loop draws count os r).
Proof.
  induction os as [|o os IH]; intros r Hos; simpl; [apply reach_refl|].
  apply Forall_cons in Hos as [Ho Hos].
  pose proof (simple_dest_loop_reach o Ho CITIES r cities_in_cities) as H1.
  destruct (full count _) eqn:Hfull; [by apply reach_full|].
  eapply reach_comp; [exact H1|by apply IH].
Qed.

Lemma among_false x l : among x l = false → x ∉ l.
Proof. unfold among. by intros ?%bool_decide_eq_false. Qed.

Lemma abc_c_loop_reach a b :
  a ∈ CITIES → b ∈ CITIES → b ≠ a →
  ∀ cs r, Forall (.∈ CITIES) cs →
          reach (abc_c_candidates a b cs) r (abc_c_loop draws count a b cs r).
Proof.
  intros Ha Hb Hne. unfold abc_c_candidates.
  induction cs as [|c cs IH]; intros r Hcs; simpl; [apply reach_refl|].
  apply Forall_cons in Hcs as [Hc Hcs].
  destruct (among c [a; b]) eqn:Hamong; [by apply IH|].
  apply among_false in Hamong. rewrite !not_elem_of_cons in Hamong.
  destruct Hamong as (Hca & Hcb & _).
  destruct (full count r) eqn:Hfull.
  { apply (reach_full 0 _ r r); [apply reach_refl|done]. }
  eapply (reach_comp 1); [|by apply IH].
  destruct (get_distance_range a b ltac:(done)) as [? ?].
  destruct (get_distance_range b c ltac:(done)) as [? ?].
  destruct (uniform_range 0.97 1.03 (d_km (draws (length r)))) as [Hu0 Hu1]; [lra|].
  apply reach_add; [done..| |]; nra.
Qed.

Lemma abc_b_loop_reach a :
  a ∈ CITIES →
  ∀ bs r, Forall (.∈ CITIES) bs →
          reach (abc_b_candidates a bs) r (abc_b_loop draws count a bs r).
Proof.
  intros Ha. unfold abc_b_candidates.
  induction bs as [|b bs IH]; intros r Hbs; simpl; [apply reach_refl|].
  apply Forall_cons in Hbs as [Hb Hbs].
  destruct (decide (b = a)) as [->|Hne]; [by apply IH|].
  pose proof (abc_c_loop_reach a b Ha Hb Hne CITIES r cities_in_cities) as H1.
  destruct (full count _) eqn:Hfull; [by apply reach_full|].
  eapply reach_comp; [exact H1|by apply IH].
Qed.

Lemma abc_loop_reach :
  ∀ as_ r, Forall (.∈ CITIES) as_ →
           reach (sum_list_with (fun a => abc_b_candidates a CITIES) as_) r
             (abc_loop draws count as_ r).
Proof.
  induction as_ as [|a as_ IH]; intros r Has; simpl; [apply reach_refl|].
  apply Forall_cons in Has as [Ha Has].
  pose proof (abc_b_loop_reach a Ha CITIES r cities_in_cities) as H1.
  destruct (full count _) eqn:Hfull; [by apply reach_full|].
  eapply reach_comp; [exact H1|by apply IH].
Qed.

Lemma abcd_d_loop_reach a b c :
  a ∈ CITIES → b ∈ CITIES → c ∈ CITIES → b ≠ a → c ≠ b →
  ∀ ds r, Forall (.∈ CITIES) ds →
          reach (abcd_d_candidates a b c ds) r (abcd_d_loop draws count a b c ds r).
Proof.
  intros Ha Hb Hc Hba Hcb. unfold abcd_d_candidates.
  induction ds as [|d ds IH]; intros r Hds; simpl; [apply reach_refl|].
  apply Forall_cons in Hds as [Hd Hds].
  destruct (among d [a; b; c]) eqn:Hamong; [by apply IH|].
  apply among_false in Hamong. rewrite !not_elem_of_cons in Hamong.
  destruct Hamong as (Hda & Hdb & Hdc & _).
  destruct (full count r) eqn:Hfull.
  { apply (reach_full 0 _ r r); [apply reach_refl|done]. }
  eapply (reach_comp 1); [|by apply IH].
  destruct (get_distance_range a b ltac:(done)) as [? ?].
  destruct (get_distance_range b c ltac:(done)) as [? ?].
  destruct (get_distance_range c d ltac:(done)) as [? ?].
  destruct (uniform_range 0.97 1.03 (d_km (draws (length r)))) as [Hu0 Hu1]; [lra|].
  apply reach_add; [done..| |]; nra.
Qed.

Lemma abcd_c_loop_reach a b :
  a ∈ CITIES → b ∈ CITIES → b ≠ a →
  ∀ cs r, Forall (.∈ CITIES) cs →
          reach (abcd_c_candidates a b cs) r (abcd_c_loop draws count a b cs r).
Proof.
  intros Ha Hb Hne. unfold abcd_c_candidates.
  induction cs as [|c cs IH]; intros r Hcs; simpl; [apply reach_refl|].
  apply Forall_cons in Hcs as [Hc Hcs].
  destruct (among c [a; b]) eqn:Hamong; [by apply IH|].
  apply among_false in Hamong. rewrite !not_elem_of_cons in Hamong.
  destruct Hamong as (Hca & Hcb & _).
  pose proof (abcd_d_loop_reach a b c Ha Hb Hc Hne Hcb CITIES r
                cities_in_cities) as H1.
  destruct (full count _) eqn:Hfull; [by apply reach_full|].
  eapply reach_comp; [exact H1|by apply IH].
Qed.

Lemma abcd_b_loop_reach a :
  a ∈ CITIES →
  ∀ bs r, Forall (.∈ CITIES) bs →
          reach (abcd_b_candidates a bs) r (abcd_b_loop draws count a bs r).
Proof.
  intros Ha. unfold abcd_b_candidates.
  induction bs as [|b bs IH]; intros r Hbs; simpl; [apply reach_refl|].
  apply Forall_cons in Hbs as [Hb Hbs].
  destruct (decide (b = a)) as [->|Hne]; [by apply IH|].
  pose proof (abcd_c_loop_reach a b Ha Hb Hne CITIES r cities_in_cities) as H1.
  destruct (full count _) eqn:Hfull; [by apply reach_full|].
  eapply reach_comp; [exact H1|by apply IH].
Qed.

Lemma abcd_loop_reach :
  ∀ as_ r, Forall (.∈ CITIES) as_ →
           reach (sum_list_with (fun a => abcd_b_candidates a CITIES) as_) r
             (abcd_loop draws count as_ r).
Proof.
  induction as_ as [|a as_ IH]; intros r Has; simpl; [apply reach_refl|].
  apply Forall_cons in Has as [Ha Has].
  pose proof (abcd_b_loop_reach a Ha CITIES r cities_in_cities) as H1.
  destruct (full count _) eqn:Hfull; [by apply reach_full|].
  eapply reach_comp; [exact H1|by apply IH].
Qed.

(** The three phases together have 40 + 60 + 120 routes to add. *)
Lemma phases_reach :
  ∃ routes, generate_routes draws count = Maintenance.slice_to routes count ∧
            reach 220 [] routes.
Proof.
  unfold generate_routes.
  pose proof cities_in_cities as HC.
  pose proof (simple_loop_reach CITIES [] HC) as H1.
  rewrite simple_candidates_total in H1.
  set (r1 := simple_loop draws count CITIES []) in *.
  assert (reach (40 + 60) []
            (if full count r1 then r1 else abc_loop draws count CITIES r1)) as H2.
  { destruct (full count r1) eqn:Hfull; [by apply reach_full|].
    eapply reach_comp; [exact H1|]. rewrite <- abc_candidates_total.
    apply (abc_loop_reach CITIES r1 HC). }
  set (r2 := if full count r1 then r1 else abc_loop draws count CITIES r1) in *.
  assert (reach (40 + 60 + 120) []
            (if full count r2 then r2 else abcd_loop draws count CITIES r2)) as H3.
  { destruct (full count r2) eqn:Hfull; [by apply reach_full|].
    eapply reach_comp; [exact H2|]. rewrite <- abcd_candidates_total.
    apply (abcd_loop_reach CITIES r2 HC). }
  eexists. split; [reflexivity|exact H3].
Qed.

Lemma slice_to_take {A : Type} (rows : list A) (target : Z) :
  ∃ n, Maintenance.slice_to rows target = take n rows.
Proof. unfold Maintenance.slice_to. destruct (0 <=? target); eauto. Qed.

(** The row that [add_route] appends. *)
Lemma add_route_row o d km routes :
  o ∈ CITIES → d ∈ CITIES → o ≠ d → (116.85 <= km)%Q → (km <= 1600.62)%Q →
  ∃ row, add_route draws o d km routes = routes ++ [row] ∧
         route_code row = ("R" ++ padded 3 (Z.of_nat (length routes) + 1))%string ∧
         origin_city row ∈ CITIES ∧ destination_city row ∈ CITIES ∧
         origin_city row ≠ destination_city row ∧
         (116.85 <= distance_km row)%Q ∧ (distance_km row <= 1600.62)%Q ∧
         (2.46 <= estimated_duration_hours row)%Q ∧
         (estimated_duration_hours row <= 27.68)%Q ∧
         (∃ k, 1 ≤ k ≤ 16 ∧ toll_cost row = k * 15000).
Proof.
  intros Ho Hd Hne Hlo Hhi. eexists. split; [reflexivity|].
  cbn [route_code origin_city destination_city distance_km estimated_duration_hours toll_cost].
  destruct (uniform_range 60 80 (d_speed (draws (length routes)))) as [Hs0 Hs1]; [lra|].
  set (avg_speed := uniform 60 80 (d_speed (draws (length routes)))) in *. clearbody avg_speed.
  split_and!; [done..| | | | |].
  - apply Qle_trans with (inject_Z 11685 / 100)%Q; [by vm_compute|].
    apply round2_ge. apply Qle_trans with 116.85%Q; [by vm_compute|done].
  - apply Qle_trans with (inject_Z 160062 / 100)%Q; [|by vm_compute].
    apply round2_le. apply Qle_trans with 1600.62%Q; [done|by vm_compute].
  - apply Qle_trans with (inject_Z 246 / 100)%Q; [by vm_compute|].
    apply round2_ge.
    assert (1.46 <= km / avg_speed)%Q by (apply Qle_shift_div_l; lra).
    apply Qle_trans with 2.46%Q; [by vm_compute|lra].
  - apply Qle_trans with (inject_Z 2768 / 100)%Q; [|by vm_compute].
    apply round2_le.
    assert (km / avg_speed <= 26.68)%Q by (apply Qle_shift_div_r; lra).
    apply Qle_trans with 27.68%Q; [lra|by vm_compute].
  - exists (Qfloor (km / 100)). split; [|done].
    assert (inject_Z 1 <= km / 100)%Q.
    { apply Qle_shift_div_l; [reflexivity|]. change (inject_Z 1) with 1%Q. lra. }
    assert (km / 100 <= inject_Z 16 + (1 # 2))%Q.
    { apply Qle_shift_div_r; [reflexivity|]. change (inject_Z 16) with 16%Q. lra. }
    pose proof (Qfloor_resp_le _ _ H) as H1. rewrite Qfloor_Z in H1.
    pose proof (Qfloor_resp_le _ _ H0) as H2.
    change (Qfloor (inject_Z 16 + (1 # 2))) with 16 in H2. lia.
Qed.

(** What holds of every appended row holds of every row of a list reached
    from the empty list, and the rows are numbered in order. *)
Lemma extends_rows (P : route_row → Prop) :
  (∀ o d km routes,
      o ∈ CITIES → d ∈ CITIES → o ≠ d → (116.85 <= km)%Q → (km <= 1600.62)%Q →
      ∀ row, add_route draws o d km routes = routes ++ [row] → P row) →
  ∀ r0 r, extends draws r0 r → Forall P r0 → Forall P r.
Proof.
  intros HP r0 r Hext. induction Hext as [|r0 r o d km Hext IH Ho Hd Hne Hlo Hhi]; [done|].
  intros H0. destruct (add_route_row o d km r Ho Hd Hne Hlo Hhi) as (row & Heq & _).
  rewrite Heq. apply Forall_app. split; [by apply IH|].
  constructor; [|done]. by apply (HP o d km r Ho Hd Hne Hlo Hhi).
Qed.

Lemma extends_codes r :
  extends draws [] r →
  ∀ j row, r !! j = Some row →
           route_code row = ("R" ++ padded 3 (Z.of_nat j + 1))%string.
Proof.
  remember [] as r0 eqn:E0. intros Hext.
  induction Hext as [|r0 r o d km Hext IH Ho Hd Hne Hlo Hhi]; intros j row Hj.
  - subst. by rewrite lookup_nil in Hj.
  - destruct (add_route_row o d km r Ho Hd Hne Hlo Hhi) as (row' & Heq & Hcode & _).
    rewrite Heq in Hj. apply lookup_snoc_Some in Hj as [[_ Hj]|[-> <-]]; [by apply IH|done].
Qed.

End RoutesProofs.

Section RoutesClaims.
Import Routes.

(** X3. [generate_routes(count)] returns [count] routes up to 220, and 220
    whatever the larger [count]: the five cities give 40 simple routes, 60
    chains of three cities and 120 chains of four.  A negative [count] gives
    no route. *)
Theorem generate_routes_count (draws : nat → route_draws) (count : Z) :
  length (generate_routes draws count) = Nat.min (Z.to_nat count) 220.
Proof.
  destruct (phases_reach draws count) as (routes & -> & _ & Hlen).
  unfold grown in Hlen. simpl in Hlen. unfold Maintenance.slice_to.
  destruct (0 <=? count) eqn:Hc; rewrite length_take; lia.
Qed.

(** X4. Every route of [generate_routes] joins two different cities of
    [CITIES], over a stored distance between 116.85 and 1600.62 km, with an
    estimated duration between 2.46 and 27.68 hours and a toll of 15000 per
    full 100 km, between 15000 and 240000. *)
Theorem generate_routes_rows (draws : nat → route_draws) (count : Z) :
  Forall (fun row =>
            origin_city row ∈ CITIES ∧ destination_city row ∈ CITIES ∧
            origin_city row ≠ destination_city row ∧
            (116.85 <= distance_km row)%Q ∧ (distance_km row <= 1600.62)%Q ∧
            (2.46 <= estimated_duration_hours row)%Q ∧
            (estimated_duration_hours row <= 27.68)%Q ∧
            (∃ k, 1 ≤ k ≤ 16 ∧ toll_cost row = k * 15000))
         (generate_routes draws count).
Proof.
  destruct (phases_reach draws count) as (routes & -> & Hext & _).
  destruct (slice_to_take routes count) as [n ->]. apply Forall_take.
  eapply extends_rows; [|exact Hext|constructor].
  intros o d km r Ho Hd Hne Hlo Hhi row Hrow.
  destruct (add_route_row draws o d km r Ho Hd Hne Hlo Hhi) as (row' & Heq & _ & Hok).
  rewrite Heq in Hrow. apply app_inv_head in Hrow. injection Hrow as <-. exact Hok.
Qed.

(** X5. The route in position [j] has the code [R] followed by [j + 1] on
    three digits at least, and the codes of one run are pairwise distinct. *)
Theorem generate_routes_codes (draws : nat → route_draws) (count : Z) :
  (∀ j row, generate_routes draws count !! j = Some row →
            route_code row = ("R" ++ padded 3 (Z.of_nat j + 1))%string) ∧
  NoDup (route_code <$> generate_routes draws count).
Proof.
  assert (∀ j row, generate_routes draws count !! j = Some row →
                   route_code row = ("R" ++ padded 3 (Z.of_nat j + 1))%string) as Hcodes.
  { destruct (phases_reach draws count) as (routes & -> & Hext & _).
    destruct (slice_to_take routes count) as [n ->]. intros j row Hj.
    apply lookup_take_Some in Hj as [Hj _]. by eapply extends_codes. }
  split; [exact Hcodes|]. apply NoDup_alt. intros i j x Hi Hj.
  rewrite list_lookup_fmap in Hi, Hj.
  destruct (generate_routes draws count !! i) as [ri|] eqn:Ei; [|done].
  destruct (generate_routes draws count !! j) as [rj|] eqn:Ej; [|done].
  simpl in Hi, Hj. injection Hi as Hi. injection Hj as Hj.
  rewrite (Hcodes _ _ Ei) in Hi. rewrite (Hcodes _ _ Ej) in Hj.
  assert (padded 3 (Z.of_nat i + 1) = padded 3 (Z.of_nat j + 1)) as Heq.
  { rewrite <- Hj in Hi. by injection Hi. }
  apply (f_equal Deliveries.digits_value) in Heq. unfold padded in Heq.
  destruct (Z.of_nat i + 1) as [|p1|p1] eqn:E1; [lia| |lia].
  destruct (Z.of_nat j + 1) as [|p2|p2] eqn:E2; [lia| |lia].
  rewrite !digits_value_zfill in Heq. injection Heq as ->. lia.
Qed.

End RoutesClaims.

(** ** [generate_vehicles] and [generate_drivers] *)

Lemma randint_range (a b : Z) (raw : N) : a ≤ b → a ≤ randint a b raw ≤ b.
Proof.
  intros Hab. unfold randint.
  pose proof (Z.mod_pos_bound (Z.of_N raw) (b - a + 1) ltac:(lia)). lia.
Qed.

Section MastersProofs.
Import Masters.

Lemma choices_one_elem {A : Type} (population : list A) (raw : N) :
  population ≠ [] → ∃ x, choices_one population raw = Some x ∧ x ∈ population.
Proof.
  intros Hne. unfold choices_one.
  destruct (random_unit_range raw) as [H0 H1].
  set (u := random_unit raw) in *. clearbody u.
  set (n := Z.of_nat (length population)).
  assert (0 < n) by (destruct population; [done|unfold n; simpl; lia]).
  assert (0 < inject_Z n)%Q by (change 0%Q with (inject_Z 0); by rewrite <- Zlt_Qlt).
  assert (0 ≤ Qfloor (u * inject_Z n)).
  { change 0 with (Qfloor (inject_Z 0)). apply Qfloor_resp_le.
    change (inject_Z 0) with 0%Q. nra. }
  assert (Qfloor (u * inject_Z n) < n).
  { rewrite Zlt_Qlt. apply Qle_lt_trans with (u * inject_Z n)%Q; [apply Qfloor_le|nra]. }
  destruct (lookup_lt_is_Some_2 population (Z.to_nat (Qfloor (u * inject_Z n)))) as [x Hx];
    [unfold n in *; lia|].
  exists x. split; [done|]. by eapply list_elem_of_lookup_2.
Qed.

Lemma weighted_choice_pair {A : Type} (x y : A) (w1 w2 : Q) (raw : N) :
  ∃ z, weighted_choice [x; y] [w1; w2] raw = Some z ∧ (z = x ∨ z = y).
Proof.
  unfold weighted_choice. simpl. destruct (Qle_bool _ _); simpl; eauto.
Qed.

(** Numbers from 100 to 999 are printed on three characters. *)
Lemma str_three_digits (n : Z) : 100 ≤ n ≤ 999 → String.length (Deliveries.str n) = 3%nat.
Proof.
  intros Hn.
  assert (forallb (fun k => Nat.eqb (String.length (Deliveries.str (100 + Z.of_nat k))) 3)
            (seq 0 (Z.to_nat 900)) = true) as Hall by (vm_compute; reflexivity).
  rewrite forallb_forall in Hall.
  specialize (Hall (Z.to_nat (n - 100))). rewrite Z2Nat.id in Hall by lia.
  replace (100 + (n - 100)) with n in Hall by lia.
  apply Nat.eqb_eq, Hall, in_seq. lia.
Qed.

Lemma gen_plate_format (raw1 raw2 raw3 raw_digits : N) :
  ∃ c1 c2 c3 n,
    _gen_plate raw1 raw2 raw3 raw_digits
    = Some (String c1 (String c2 (String c3 (Deliveries.str n)))) ∧
    c1 ∈ ascii_uppercase ∧ c2 ∈ ascii_uppercase ∧ c3 ∈ ascii_uppercase ∧
    100 ≤ n ≤ 999.
Proof.
  unfold _gen_plate.
  destruct (choices_one_elem ascii_uppercase raw1 ltac:(done)) as (c1 & -> & H1).
  destruct (choices_one_elem ascii_uppercase raw2 ltac:(done)) as (c2 & -> & H2).
  destruct (choices_one_elem ascii_uppercase raw3 ltac:(done)) as (c3 & -> & H3).
  exists c1, c2, c3, (randint 100 999 raw_digits).
  pose proof (randint_range 100 999 raw_digits ltac:(lia)).
  split_and!; first [reflexivity | assumption | lia].
Qed.

Lemma vehicle_iteration_row (d : vehicle_draws) :
  ∃ row, vehicle_iteration d = Returned row ∧
         (∃ vtype cap_min cap_max fuel cons,
             (vtype, cap_min, cap_max, fuel, cons) ∈ VEHICLE_TYPES ∧
             vehicle_type row = vtype ∧ fuel_type row = fuel ∧
             cap_min ≤ capacity_kg row ≤ cap_max) ∧
         (∃ c1 c2 c3 n,
             license_plate row = String c1 (String c2 (String c3 (Deliveries.str n))) ∧
             c1 ∈ ascii_uppercase ∧ c2 ∈ ascii_uppercase ∧ c3 ∈ ascii_uppercase ∧
             100 ≤ n ≤ 999) ∧
         String.length (license_plate row) = 6%nat.
Proof.
  unfold vehicle_iteration.
  destruct (choice_cons ("Camión Grande", 12000, 18000, "diesel", (25, 35)%Q)
              (tail VEHICLE_TYPES) (d_type d))
    as ([[[[vtype cap_min] cap_max] fuel] cons] & Hc & Hin).
  change (_ :: tail VEHICLE_TYPES) with VEHICLE_TYPES in Hc, Hin. rewrite Hc.
  destruct (gen_plate_format (d_letter1 d) (d_letter2 d) (d_letter3 d) (d_plate_digits d))
    as (c1 & c2 & c3 & n & -> & H1 & H2 & H3 & Hn).
  destruct (weighted_choice_pair v_active v_maintenance 90 10 (d_vehicle_status d))
    as (st & -> & _).
  eexists. split; [reflexivity|]. cbn [vehicle_type fuel_type capacity_kg license_plate].
  split_and!.
  - exists vtype, cap_min, cap_max, fuel, cons.
    split; [done|]. split; [done|]. split; [done|].
    apply randint_range.
    unfold VEHICLE_TYPES in Hin. rewrite !elem_of_cons, elem_of_nil in Hin.
    destruct Hin as [H|[H|[H|[H|[]]]]]; injection H as _ -> -> _ _; lia.
  - exists c1, c2, c3, n. by repeat (split; [done|]).
  - simpl. by rewrite str_three_digits.
Qed.

Lemma vehicles_loop_returns (draws : nat → vehicle_draws) (P : vehicle_row → Prop) :
  (∀ d row, vehicle_iteration d = Returned row → P row) →
  ∀ remaining k rows, Forall P rows →
    ∃ rows', vehicles_loop draws remaining k rows = Returned rows' ∧
             length rows' = (length rows + remaining)%nat ∧ Forall P rows'.
Proof.
  intros HP. induction remaining as [|remaining IH]; intros k rows Hrows; simpl.
  - exists rows. split_and!; [done|lia|done].
  - destruct (vehicle_iteration_row (draws k)) as (row & Hrow & _). rewrite Hrow.
    destruct (IH (S k) (rows ++ [row])) as (rows' & -> & Hlen & Hall).
    { apply Forall_app. split; [done|]. constructor; [by eapply HP|done]. }
    exists rows'. split_and!; [done| |done]. rewrite Hlen, length_app. simpl. lia.
Qed.

(** *** The number of digits of a printed integer *)

Lemma of_uint_acc_bounds (l : Decimal.uint) : ∀ acc : positive,
  Z.pos acc * 10 ^ Z.of_nat (Decimal.nb_digits l) ≤ Z.pos (Pos.of_uint_acc l acc)
  ∧ Z.pos (Pos.of_uint_acc l acc) < (Z.pos acc + 1) * 10 ^ Z.of_nat (Decimal.nb_digits l).
Proof.
  induction l as [|l IH|l IH|l IH|l IH|l IH|l IH|l IH|l IH|l IH|l IH]; intros acc;
    [simpl; lia|..];
    cbn [Pos.of_uint_acc Decimal.nb_digits]; rewrite Nat2Z.inj_succ, Z.pow_succ_r by lia;
    match goal with |- context [Pos.of_uint_acc l ?a] => destruct (IH a) as [Hlo Hhi] end;
    assert (0 < 10 ^ Z.of_nat (Decimal.nb_digits l)) by (apply Z.pow_pos_nonneg; lia);
    split; nia.
Qed.

Lemma nzhead_nonzero (d u : Decimal.uint) : Decimal.nzhead d ≠ Decimal.D0 u.
Proof. induction d; simpl; congruence. Qed.

Lemma to_uint_normal (p : positive) : Decimal.unorm (Pos.to_uint p) = Pos.to_uint p.
Proof.
  rewrite <- (DecimalPos.Unsigned.to_of (Pos.to_uint p)).
  by rewrite DecimalPos.Unsigned.of_to.
Qed.

Lemma to_uint_digits (p : positive) :
  ∃ k : nat, Decimal.nb_digits (Pos.to_uint p) = S k ∧
             10 ^ Z.of_nat k ≤ Z.pos p < 10 ^ Z.of_nat (S k).
Proof.
  pose proof (DecimalPos.Unsigned.of_to p) as Hof.
  pose proof (to_uint_normal p) as Hnorm.
  pose proof (DecimalPos.Unsigned.to_uint_nonzero p) as Hnz.
  destruct (Pos.to_uint p) as [|l|l|l|l|l|l|l|l|l|l] eqn:E.
  - done.
  - exfalso. unfold Decimal.unorm in Hnorm.
    pose proof (nzhead_nonzero (Decimal.D0 l)) as Hh.
    destruct (Decimal.nzhead (Decimal.D0 l)); first [congruence | by eapply Hh].
  - exists (Decimal.nb_digits l). split; [done|]. simpl in Hof. injection Hof as Hof.
    destruct (of_uint_acc_bounds l 1). rewrite Nat2Z.inj_succ, Z.pow_succ_r by lia.
    assert (0 < 10 ^ Z.of_nat (Decimal.nb_digits l)) by (apply Z.pow_pos_nonneg; lia). lia.
  - exists (Decimal.nb_digits l). split; [done|]. simpl in Hof. injection Hof as Hof.
    destruct (of_uint_acc_bounds l 2). rewrite Nat2Z.inj_succ, Z.pow_succ_r by lia.
    assert (0 < 10 ^ Z.of_nat (Decimal.nb_digits l)) by (apply Z.pow_pos_nonneg; lia). lia.
  - exists (Decimal.nb_digits l). split; [done|]. simpl in Hof. injection Hof as Hof.
    destruct (of_uint_acc_bounds l 3). rewrite Nat2Z.inj_succ, Z.pow_succ_r by lia.
    assert (0 < 10 ^ Z.of_nat (Decimal.nb_digits l)) by (apply Z.pow_pos_nonneg; lia). lia.
  - exists (Decimal.nb_digits l). split; [done|]. simpl in Hof. injection Hof as Hof.
    destruct (of_uint_acc_bounds l 4). rewrite Nat2Z.inj_succ, Z.pow_succ_r by lia.
    assert (0 < 10 ^ Z.of_nat (Decimal.nb_digits l)) by (apply Z.pow_pos_nonneg; lia). lia.
  - exists (Decimal.nb_digits l). split; [done|]. simpl in Hof. injection Hof as Hof.
    destruct (of_uint_acc_bounds l 5). rewrite Nat2Z.inj_succ, Z.pow_succ_r by lia.
    assert (0 < 10 ^ Z.of_nat (Decimal.nb_digits l)) by (apply Z.pow_pos_nonneg; lia). lia.
  - exists (Decimal.nb_digits l). split; [done|]. simpl in Hof. injection Hof as Hof.
    destruct (of_uint_acc_bounds l 6). rewrite Nat2Z.inj_succ, Z.pow_succ_r by lia.
    assert (0 < 10 ^ Z.of_nat (Decimal.nb_digits l)) by (apply Z.pow_pos_nonneg; lia). lia.
  - exists (Decimal.nb_digits l). split; [done|]. simpl in Hof. injection Hof as Hof.
    destruct (of_uint_acc_bounds l 7). rewrite Nat2Z.inj_succ, Z.pow_succ_r by lia.
    assert (0 < 10 ^ Z.of_nat (Decimal.nb_digits l)) by (apply Z.pow_pos_nonneg; lia). lia.
  - exists (Decimal.nb_digits l). split; [done|]. simpl in Hof. injection Hof as Hof.
    destruct (of_uint_acc_bounds l 8). rewrite Nat2Z.inj_succ, Z.pow_succ_r by lia.
    assert (0 < 10 ^ Z.of_nat (Decimal.nb_digits l)) by (apply Z.pow_pos_nonneg; lia). lia.
  - exists (Decimal.nb_digits l). split; [done|]. simpl in Hof. injection Hof as Hof.
    destruct (of_uint_acc_bounds l 9). rewrite Nat2Z.inj_succ, Z.pow_succ_r by lia.
    assert (0 < 10 ^ Z.of_nat (Decimal.nb_digits l)) by (apply Z.pow_pos_nonneg; lia). lia.
Qed.

Lemma string_of_uint_length (d : Decimal.uint) :
  String.length (NilEmpty.string_of_uint d) = Decimal.nb_digits d.
Proof. induction d; simpl; congruence. Qed.

(** A number from [10^k] to [10^(k+1) - 1] is printed on [k + 1] characters. *)
Lemma str_length (n : Z) (k : nat) :
  10 ^ Z.of_nat k ≤ n < 10 ^ Z.of_nat (S k) → String.length (Deliveries.str n) = S k.
Proof.
  intros [Hlo Hhi].
  assert (0 < 10 ^ Z.of_nat k) by (apply Z.pow_pos_nonneg; lia).
  destruct n as [|p|p]; [lia| |lia].
  rewrite str_pos, string_of_uint_length.
  destruct (to_uint_digits p) as (k' & -> & Hlo' & Hhi'). f_equal.
  destruct (Nat.lt_trichotomy k' k) as [Hlt|[->|Hlt]]; [exfalso|done|exfalso].
  - assert (10 ^ Z.of_nat (S k') ≤ 10 ^ Z.of_nat k) by (apply Z.pow_le_mono_r; lia). lia.
  - assert (10 ^ Z.of_nat (S k) ≤ 10 ^ Z.of_nat k') by (apply Z.pow_le_mono_r; lia). lia.
Qed.

Lemma padded_inj (width i j : nat) :
  Routes.padded width (Z.of_nat i + 1) = Routes.padded width (Z.of_nat j + 1) → i = j.
Proof.
  intros Heq. apply (f_equal Deliveries.digits_value) in Heq. unfold Routes.padded in Heq.
  destruct (Z.of_nat i + 1) as [|p1|p1] eqn:E1; [lia| |lia].
  destruct (Z.of_nat j + 1) as [|p2|p2] eqn:E2; [lia| |lia].
  rewrite !digits_value_zfill in Heq. injection Heq as ->. lia.
Qed.

Lemma driver_iteration_returns (i : nat) (d : driver_draws) :
  ∃ row, driver_iteration i d = Returned row.
Proof.
  unfold driver_iteration.
  destruct (weighted_choice_pair d_active d_inactive 95 5 (d_driver_status d))
    as (st & -> & _).
  by eexists.
Qed.

(** The driver in position [j] of the result is the one built by
    iteration [j]. *)
Lemma drivers_loop_returns (draws : nat → driver_draws) : ∀ remaining i rows,
  length rows = i →
  (∀ j row, rows !! j = Some row → driver_iteration j (draws j) = Returned row) →
  ∃ rows', drivers_loop draws remaining i rows = Returned rows' ∧
           length rows' = (i + remaining)%nat ∧
           ∀ j row, rows' !! j = Some row → driver_iteration j (draws j) = Returned row.
Proof.
  induction remaining as [|remaining IH]; intros i rows Hlen Hrows; simpl.
  - exists rows. split_and!; [done|lia|done].
  - destruct (driver_iteration_returns i (draws i)) as (row & Hrow). rewrite Hrow.
    destruct (IH (S i) (rows ++ [row])) as (rows' & -> & Hlen' & Hall).
    { rewrite length_app. simpl. lia. }
    { intros j row' Hj. apply lookup_snoc_Some in Hj as [[_ Hj]|[Hj <-]]; [by apply Hrows|].
      by rewrite Hj, Hlen. }
    exists rows'. split_and!; [done|lia|done].
Qed.

End MastersProofs.

Section MastersClaims.
Import Masters.

(** X6. [generate_vehicles(count)] never fails and builds [count] rows (none
    for a negative [count]).  Every row takes its type and fuel from one
    entry of [VEHICLE_TYPES], with a capacity within the range of that entry,
    and a plate of six characters: three capital letters and a number from
    100 to 999. *)
Theorem generate_vehicles_rows (draws : nat → vehicle_draws) (count : Z) :
  ∃ rows,
    generate_vehicles draws count = Returned rows ∧
    length rows = Z.to_nat count ∧
    Forall (fun row =>
              (∃ vtype cap_min cap_max fuel cons,
                  (vtype, cap_min, cap_max, fuel, cons) ∈ VEHICLE_TYPES ∧
                  vehicle_type row = vtype ∧ fuel_type row = fuel ∧
                  cap_min ≤ capacity_kg row ≤ cap_max) ∧
              (∃ c1 c2 c3 n,
                  license_plate row
                  = String c1 (String c2 (String c3 (Deliveries.str n))) ∧
                  c1 ∈ ascii_uppercase ∧ c2 ∈ ascii_uppercase ∧ c3 ∈ ascii_uppercase ∧
                  100 ≤ n ≤ 999) ∧
              String.length (license_plate row) = 6%nat) rows.
Proof.
  unfold generate_vehicles.
  destruct (vehicles_loop_returns draws
              (fun row =>
                 (∃ vtype cap_min cap_max fuel cons,
                     (vtype, cap_min, cap_max, fuel, cons) ∈ VEHICLE_TYPES ∧
                     vehicle_type row = vtype ∧ fuel_type row = fuel ∧
                     cap_min ≤ capacity_kg row ≤ cap_max) ∧
                 (∃ c1 c2 c3 n,
                     license_plate row
                     = String c1 (String c2 (String c3 (Deliveries.str n))) ∧
                     c1 ∈ ascii_uppercase ∧ c2 ∈ ascii_uppercase ∧ c3 ∈ ascii_uppercase ∧
                     100 ≤ n ≤ 999) ∧
                 String.length (license_plate row) = 6%nat)
              ltac:(intros d row Hrow;
                    destruct (vehicle_iteration_row d) as (row' & Hrow' & Hok);
                    rewrite Hrow in Hrow'; injection Hrow' as ->; exact Hok)
              (Z.to_nat count) 0%nat [] ltac:(constructor))
    as (rows & Hret & Hlen & Hall).
  exists rows. by split_and!.
Qed.

(** X7. [generate_drivers(count)] never fails and builds [count] rows (none
    for a negative [count]).  The driver in position [j] has the employee
    code [EMP] followed by [j + 1] on four digits at least; the license
    number is a number of ten digits, and the phone number is a [3] followed
    by nine digits. *)
Theorem generate_drivers_rows (draws : nat → driver_draws) (count : Z) :
  ∃ rows,
    generate_drivers draws count = Returned rows ∧
    length rows = Z.to_nat count ∧
    ∀ j row, rows !! j = Some row →
      employee_code row = ("EMP" ++ Routes.padded 4 (Z.of_nat j + 1))%string ∧
      (∃ n, 10 ^ 9 ≤ n < 10 ^ 10 ∧ license_number row = Deliveries.str n) ∧
      String.length (license_number row) = 10%nat ∧
      (∃ n, 10 ^ 8 ≤ n < 10 ^ 9 ∧ phone row = String "3" (Deliveries.str n)) ∧
      String.length (phone row) = 10%nat.
Proof.
  unfold generate_drivers.
  destruct (drivers_loop_returns draws (Z.to_nat count) 0 [] eq_refl)
    as (rows & Hret & Hlen & Hall).
  { intros j row Hj. by rewrite lookup_nil in Hj. }
  exists rows. split_and!; [done|done|]. intros j row Hj.
  specialize (Hall j row Hj). unfold driver_iteration in Hall.
  destruct (weighted_choice _ _ _) as [st|]; [|done]. injection Hall as <-.
  cbn [employee_code license_number phone].
  pose proof (randint_range (10 ^ 9) (10 ^ 10 - 1) (d_license_number (draws j)) ltac:(lia)).
  pose proof (randint_range 100000000 999999999 (d_phone (draws j)) ltac:(lia)).
  split_and!.
  - done.
  - eexists. split; [|reflexivity]. lia.
  - apply (str_length _ 9). change (Z.of_nat 9) with 9. change (Z.of_nat 10) with 10. lia.
  - eexists. split; [|reflexivity]. lia.
  - change (S (String.length
                (Deliveries.str (randint 100000000 999999999 (d_phone (draws j)))))
            = 10%nat).
    f_equal. apply (str_length _ 8).
    change (Z.of_nat 8) with 8. change (Z.of_nat 9) with 9. lia.
Qed.

(** X8. The employee codes of one run of [generate_drivers] are pairwise
    distinct, beyond 9999 drivers as well, where the code grows to five
    digits. *)
Theorem generate_drivers_codes_distinct
    (draws : nat → driver_draws) (count : Z) (rows : list driver_row) :
  generate_drivers draws count = Returned rows →
  NoDup (employee_code <$> rows).
Proof.
  unfold generate_drivers. intros Hret.
  destruct (drivers_loop_returns draws (Z.to_nat count) 0 [] eq_refl)
    as (rows' & Hret' & _ & Hall).
  { intros j row Hj. by rewrite lookup_nil in Hj. }
  rewrite Hret in Hret'. injection Hret' as <-.
  apply NoDup_alt. intros i j x Hi Hj. rewrite list_lookup_fmap in Hi, Hj.
  destruct (rows !! i) as [ri|] eqn:Ei; [|done].
  destruct (rows !! j) as [rj|] eqn:Ej; [|done].
  simpl in Hi, Hj. injection Hi as Hi. injection Hj as Hj.
  pose proof (Hall i ri Ei) as Hri. pose proof (Hall j rj Ej) as Hrj.
  unfold driver_iteration in Hri, Hrj.
  destruct (weighted_choice _ _ (d_driver_status (draws i))); [|done].
  destruct (weighted_choice _ _ (d_driver_status (draws j))); [|done].
  injection Hri as <-. injection Hrj as <-. cbn [employee_code] in Hi, Hj.
  rewrite <- Hj in Hi. injection Hi as Hi. by apply (padded_inj 4).
Qed.

Lemma generate_drivers_codes_distinct_witness :
  NoDup (employee_code <$>
           [ {| employee_code := "EMP0001"; first_name := "Ana"; last_name := "Ruiz";
                license_number := "1000000000"; license_expiry := 0;
                phone := "3100000000"; hire_date := 0; d_status := d_active |};
             {| employee_code := "EMP0002"; first_name := "Ana"; last_name := "Ruiz";
                license_number := "1000000000"; license_expiry := 0;
                phone := "3100000000"; hire_date := 0; d_status := d_active |};
             {| employee_code := "EMP0003"; first_name := "Ana"; last_name := "Ruiz";
                license_number := "1000000000"; license_expiry := 0;
                phone := "3100000000"; hire_date := 0; d_status := d_active |} ]).
Proof.
  apply (generate_drivers_codes_distinct
           (fun _ => {| d_first_name := "Ana"; d_last_name := "Ruiz";
                        d_license_number := 0; d_license_expiry := 0; d_phone := 0;
                        d_hire_date := 0; d_driver_status := 0 |}) 3).
  vm_compute. reflexivity.
Defined.

End MastersClaims.

(** ** [generate_trips]: outcomes, departures and arrivals *)

Lemma fmax_ge_r (a b : Q) : (b <= fmax a b)%Q.
Proof.
  unfold fmax. destruct (Qle_bool a b) eqn:E; [lra|].
  destruct (Qlt_le_dec b a) as [|Hle]; [lra|]. apply Qle_bool_iff in Hle. congruence.
Qed.

Lemma Qfloor_div (a b : Z) : 0 < b → Qfloor (inject_Z a / inject_Z b) = a / b.
Proof.
  intros Hb. destruct b as [|p|p]; [lia| |lia].
  assert (inject_Z a / inject_Z (Z.pos p) == a # p)%Q as ->; [|reflexivity].
  unfold Qeq, Qdiv, Qmult, Qinv, inject_Z. simpl. lia.
Qed.

Lemma date_of_mono (a b : datetime) : a ≤ b → date_of a ≤ date_of b.
Proof. intros Hab. unfold date_of, US_PER_DAY. by apply Z.div_le_mono. Qed.

Lemma date_of_replace_time (dt : datetime) (hour minute : Z) :
  0 ≤ hour ≤ 23 → 0 ≤ minute ≤ 59 →
  date_of (replace_time dt hour minute) = date_of dt.
Proof.
  intros Hh Hm. unfold replace_time.
  generalize (date_of dt). intros day. unfold date_of, US_PER_DAY, US_PER_HOUR, US_PER_MINUTE.
  symmetry. apply Z.div_unique with (hour * 3600000000 + minute * 60000000); lia.
Qed.

Section TripsRows.
Import Trips.

Context (clock : nat → datetime) (draws : nat → trip_draws) (p_hour : list Q)
  (vehicles : list (Z * Z * string)) (drivers : list Z) (routes : list (Z * Q * Q)).

(** The row in position [j] is the one built by iteration [j], from the
    clock reading [clock (S j)] and the cursor advanced [j] times. *)
Lemma trips_loop_lookup minutes_step : ∀ remaining k current_dt rows0 rows,
  trips_loop clock draws p_hour vehicles drivers routes minutes_step
    remaining k current_dt rows0 = Returned rows →
  ∀ j row, rows !! j = Some row →
    rows0 !! j = Some row ∨
    ∃ i : nat, j = (length rows0 + i)%nat ∧ (i < remaining)%nat ∧
      trip_iteration p_hour vehicles drivers routes (clock (S (k + i)))
        (current_dt + Z.of_nat i * timedelta_minutes minutes_step) (draws (k + i)%nat)
      = Returned row.
Proof.
  induction remaining as [|remaining IH]; intros k current_dt rows0 rows Hrun j row Hj;
    simpl in Hrun.
  - injection Hrun as <-. by left.
  - destruct (trip_iteration _ _ _ _ _ _ _) as [row0| |] eqn:Hrow; [|done..].
    destruct (IH _ _ _ _ Hrun j row Hj) as [H0|(i & -> & Hi & Hit)].
    + apply lookup_snoc_Some in H0 as [[_ H0]|[-> <-]]; [by left|].
      right. exists 0%nat. rewrite !Nat.add_0_r. split; [done|]. split; [lia|].
      by replace (current_dt + Z.of_nat 0 * timedelta_minutes minutes_step)
        with current_dt by lia.
    + right. exists (S i). rewrite length_app. simpl. split; [lia|]. split; [lia|].
      replace (k + S i)%nat with (S k + i)%nat by lia.
      by replace (current_dt + Z.of_nat (S i) * timedelta_minutes minutes_step)
        with (current_dt + timedelta_minutes minutes_step
              + Z.of_nat i * timedelta_minutes minutes_step) by lia.
Qed.

Lemma trip_iteration_references now current_dt d row :
  trip_iteration p_hour vehicles drivers routes now current_dt d = Returned row →
  (∃ capacity vtype, (vehicle_id row, capacity, vtype) ∈ vehicles) ∧
  driver_id row ∈ drivers ∧
  (∃ distance est_dur, (route_id row, distance, est_dur) ∈ routes).
Proof.
  unfold trip_iteration.
  destruct (choice vehicles _) as [[[vid capacity] vtype]|] eqn:Ev; [|done].
  destruct (choice drivers _) as [did|] eqn:Ed; [|done].
  destruct (choice routes _) as [[[rid distance] est_dur]|] eqn:Er; [|done].
  destruct (draw_hour _ _) as [hour|]; [|done].
  destruct (dict_get _ _ _) as [lo hi]. intros [= <-]. simpl.
  apply choice_elem_of in Ev, Ed, Er. split_and!; [by eexists _, _|done|by eexists _, _].
Qed.

(** A trip lasts at least 51 minutes, 0.85 times the hour that the base
    duration adds to the driving time. *)
Lemma trip_iteration_arrival now current_dt d row :
  Forall (fun '(_, distance, _) => (0 <= distance)%Q) routes →
  trip_iteration p_hour vehicles drivers routes now current_dt d = Returned row →
  match arrival_datetime row with
  | Some arrival =>
      status row = completed ∧
      departure_datetime row + 51 * US_PER_MINUTE ≤ arrival ∧ arrival < now
  | None => status row = in_progress
  end.
Proof.
  intros Hdist. unfold trip_iteration.
  destruct (choice vehicles _) as [[[vid capacity] vtype]|]; [|done].
  destruct (choice drivers _) as [did|]; [|done].
  destruct (choice routes _) as [[[rid distance] est_dur]|] eqn:Er; [|done].
  destruct (draw_hour _ _) as [hour|]; [|done].
  destruct (dict_get _ _ _) as [lo hi]. intros [= <-].
  cbn [arrival_datetime status departure_datetime].
  apply choice_elem_of in Er. rewrite Forall_forall in Hdist.
  specialize (Hdist _ Er). simpl in Hdist.
  destruct (_ <? now) eqn:Hnow; [|done].
  apply Z.ltb_lt in Hnow. split; [done|]. split; [|exact Hnow].
  apply Zplus_le_compat_l. unfold timedelta_hours. apply round_half_even_ge.
  destruct (uniform_range 0.85 1.15 (d_realism d)) as [Hr _]; [lra|].
  pose proof (fmax_ge_r est_dur (distance / 70 + 1)) as Hmax.
  assert (0 <= distance / 70)%Q by (apply Qle_shift_div_l; lra).
  set (realism := uniform 0.85 1.15 (d_realism d)) in *. clearbody realism.
  set (dur := fmax est_dur (distance / 70 + 1)) in *. clearbody dur.
  change (inject_Z (51 * US_PER_MINUTE)) with 3060000000%Q.
  change (inject_Z US_PER_HOUR) with 3600000000%Q. nra.
Qed.

(** Over routes of at least 116.85 km, the shortest that [generate_routes]
    stores, a trip lasts more than two hours:
    0.85 * (116.85 / 70 + 1) = 2.27. *)
Lemma trip_iteration_duration now current_dt d row :
  Forall (fun '(_, distance, _) => (116.85 <= distance)%Q) routes →
  trip_iteration p_hour vehicles drivers routes now current_dt d = Returned row →
  ∀ arrival, arrival_datetime row = Some arrival →
             2 * US_PER_HOUR ≤ arrival - departure_datetime row.
Proof.
  intros Hdist. unfold trip_iteration.
  destruct (choice vehicles _) as [[[vid capacity] vtype]|]; [|done].
  destruct (choice drivers _) as [did|]; [|done].
  destruct (choice routes _) as [[[rid distance] est_dur]|] eqn:Er; [|done].
  destruct (draw_hour _ _) as [hour|]; [|done].
  destruct (dict_get _ _ _) as [lo hi]. intros [= <-].
  cbn [arrival_datetime status departure_datetime].
  apply choice_elem_of in Er. rewrite Forall_forall in Hdist.
  specialize (Hdist _ Er). simpl in Hdist.
  destruct (_ <? now); [|done]. intros arrival [= <-].
  match goal with |- _ ≤ ?dep + ?dur - ?dep => replace (dep + dur - dep) with dur by lia end.
  unfold timedelta_hours. apply round_half_even_ge.
  destruct (uniform_range 0.85 1.15 (d_realism d)) as [Hr _]; [lra|].
  pose proof (fmax_ge_r est_dur (distance / 70 + 1)) as Hmax.
  assert (1.6 <= distance / 70)%Q as Hkm by (apply Qle_shift_div_l; lra).
  set (realism := uniform 0.85 1.15 (d_realism d)) in *. clearbody realism.
  set (dur := fmax est_dur (distance / 70 + 1)) in *.
  assert (2.6 <= dur)%Q as Hdur by lra. clearbody dur.
  assert (2.6 * 0.85 <= dur * realism)%Q as Hprod by nra.
  change (inject_Z (2 * US_PER_HOUR)) with 7200000000%Q.
  change (inject_Z US_PER_HOUR) with 3600000000%Q.
  set (x := (dur * realism)%Q) in *. clearbody x. lra.
Qed.

Lemma trip_iteration_departure now current_dt d row :
  trip_iteration Hourly._hourly_distribution_full_24 vehicles drivers routes
    now current_dt d = Returned row →
  ∃ hour minute,
    6 ≤ hour ≤ 22 ∧ 0 ≤ minute ≤ 59 ∧
    departure_datetime row
    = date_of current_dt * US_PER_DAY + hour * US_PER_HOUR + minute * US_PER_MINUTE.
Proof.
  unfold trip_iteration.
  destruct (choice vehicles _) as [[[vid capacity] vtype]|]; [|done].
  destruct (choice drivers _) as [did|]; [|done].
  destruct (choice routes _) as [[[rid distance] est_dur]|]; [|done].
  destruct (draw_hour_range (d_hour d)) as (hour & -> & Hhour).
  destruct (dict_get _ _ _) as [lo hi]. intros [= <-]. cbn [departure_datetime].
  exists (Z.of_nat hour), (randint 0 59 (d_minute d)).
  split; [lia|]. split; [apply randint_range; lia|reflexivity].
Qed.

End TripsRows.

Section TripsFurther.
Import Trips.

(** X9. The outcomes of [generate_trips]: an empty catalogue raises the
    [RuntimeError] of line 393; with the three catalogues filled, a [count]
    of zero raises [ZeroDivisionError] on line 407, and any other [count]
    gives [count] rows (none for a negative [count]), each referring to a
    vehicle, a driver and a route of the catalogues. *)
Theorem generate_trips_outcome
    (clock : nat → datetime) (draws : nat → trip_draws)
    (vehicles : list (Z * Z * string)) (drivers : list Z) (routes : list (Z * Q * Q))
    (count : Z) :
  match generate_trips clock draws vehicles drivers routes count with
  | Returned rows =>
      vehicles ≠ [] ∧ drivers ≠ [] ∧ routes ≠ [] ∧ count ≠ 0 ∧
      length rows = Z.to_nat count ∧
      Forall (fun row =>
                (∃ capacity vtype, (vehicle_id row, capacity, vtype) ∈ vehicles) ∧
                driver_id row ∈ drivers ∧
                (∃ distance est_dur, (route_id row, distance, est_dur) ∈ routes)) rows
  | Raised e =>
      (e = RuntimeError msg_missing_base ∧ (vehicles = [] ∨ drivers = [] ∨ routes = []))
      ∨ (e = ZeroDivisionError ∧ vehicles ≠ [] ∧ drivers ≠ [] ∧ routes ≠ [] ∧ count = 0)
  | OutOfFuel => False
  end.
Proof.
  unfold generate_trips.
  destruct vehicles as [|v vs] eqn:Ev; [left; split; [done|by left]|]. rewrite <- Ev.
  destruct drivers as [|dr drs] eqn:Ed; [left; split; [done|by right; left]|]. rewrite <- Ed.
  destruct routes as [|r rs] eqn:Er; [left; split; [done|by right; right]|]. rewrite <- Er.
  assert (vehicles ≠ []) as Hv by (by rewrite Ev).
  assert (drivers ≠ []) as Hd by (by rewrite Ed).
  assert (routes ≠ []) as Hr by (by rewrite Er).
  destruct (count =? 0) eqn:Hc.
  { apply Z.eqb_eq in Hc. right. by split_and!. }
  apply Z.eqb_neq in Hc.
  destruct (trips_loop_returns clock draws vehicles drivers routes
              (int_of_float (inject_Z (2 * 365 * 24 * 60) / inject_Z count))
              Hv Hd Hr (Z.to_nat count) 0%nat
              (clock 0%nat - timedelta_days 730) []) as [rows Hrows].
  rewrite Hrows. split_and!; [done..| |].
  - by rewrite (trips_loop_length _ _ _ _ _ _ _ _ _ _ _ _ Hrows).
  - eapply trips_loop_Forall; [|constructor|exact Hrows].
    intros now current_dt d row. apply trip_iteration_references.
Qed.

(** Every trip that [generate_trips] writes with an arrival, over routes of
    at least 116.85 km as [generate_routes] stores them, lasts at least two
    hours. *)
Lemma generated_trip_lasts_two_hours
    (clock : nat → datetime) (draws : nat → trip_draws)
    (vehicles : list (Z * Z * string)) (drivers : list Z) (routes : list (Z * Q * Q))
    (count : Z) (rows : list trip_row) :
  Forall (fun '(_, distance, _) => (116.85 <= distance)%Q) routes →
  generate_trips clock draws vehicles drivers routes count = Returned rows →
  Forall (fun row => ∀ arrival, arrival_datetime row = Some arrival →
                       2 * US_PER_HOUR ≤ arrival - departure_datetime row) rows.
Proof.
  intros Hdist. unfold generate_trips.
  destruct vehicles as [|v vs] eqn:Ev; [done|]. rewrite <- Ev.
  destruct drivers as [|dr drs] eqn:Ed; [done|]. rewrite <- Ed.
  destruct routes as [|r rs] eqn:Er; [done|]. rewrite <- Er in *.
  destruct (count =? 0); [done|]. intros Hrun.
  eapply trips_loop_Forall; [|constructor|exact Hrun].
  intros now current_dt d row. by apply trip_iteration_duration.
Qed.

(** The row in position [j] of [generate_trips]. *)
Lemma generate_trips_lookup
    (clock : nat → datetime) (draws : nat → trip_draws)
    (vehicles : list (Z * Z * string)) (drivers : list Z) (routes : list (Z * Q * Q))
    (count : Z) (rows : list trip_row) (j : nat) (row : trip_row) :
  generate_trips clock draws vehicles drivers routes count = Returned rows →
  rows !! j = Some row →
  0 < count ∧ Z.of_nat j < count ∧
  trip_iteration Hourly._hourly_distribution_full_24 vehicles drivers routes
    (clock (S j))
    (clock 0%nat - timedelta_days 730
     + Z.of_nat j * timedelta_minutes (2 * 365 * 24 * 60 / count))
    (draws j) = Returned row.
Proof.
  unfold generate_trips.
  destruct vehicles as [|v vs] eqn:Ev; [done|]. rewrite <- Ev.
  destruct drivers as [|dr drs] eqn:Ed; [done|]. rewrite <- Ed.
  destruct routes as [|r rs] eqn:Er; [done|]. rewrite <- Er.
  destruct (count =? 0) eqn:Hc; [done|]. intros Hrun Hj.
  destruct (trips_loop_lookup _ _ _ _ _ _ _ _ _ _ _ _ Hrun j row Hj) as [H0|(i & Hi & Hlt & Hit)].
  { by rewrite lookup_nil in H0. }
  simpl in Hi. subst i. assert (0 < count) as Hpos by lia.
  split; [done|]. split; [lia|].
  assert (int_of_float (inject_Z (2 * 365 * 24 * 60) / inject_Z count)
          = 2 * 365 * 24 * 60 / count) as Hstep.
  { unfold int_of_float. rewrite Qfloor_div by done.
    replace (Qle_bool 0 (inject_Z (2 * 365 * 24 * 60) / inject_Z count)) with true; [done|].
    symmetry. apply Qle_bool_iff. apply Qle_shift_div_l.
    - change 0%Q with (inject_Z 0). by rewrite <- Zlt_Qlt.
    - rewrite Qmult_0_l. by vm_compute. }
  by rewrite Hstep in Hit.
Qed.

(** X10. Every trip of [generate_trips] departs at a whole minute between
    06:00 and 22:59, on a day of the 730 days that end with the day of the
    run; along the rows the day of departure never goes back. *)
Theorem generate_trips_departures
    (clock : nat → datetime) (draws : nat → trip_draws)
    (vehicles : list (Z * Z * string)) (drivers : list Z) (routes : list (Z * Q * Q))
    (count : Z) (rows : list trip_row) :
  generate_trips clock draws vehicles drivers routes count = Returned rows →
  ∀ j row, rows !! j = Some row →
    (∃ hour minute,
        6 ≤ hour ≤ 22 ∧ 0 ≤ minute ≤ 59 ∧
        departure_datetime row
        = date_of (departure_datetime row) * US_PER_DAY
          + hour * US_PER_HOUR + minute * US_PER_MINUTE) ∧
    date_of (clock 0%nat) - 730 ≤ date_of (departure_datetime row) ≤ date_of (clock 0%nat) ∧
    ∀ i row', (i ≤ j)%nat → rows !! i = Some row' →
              date_of (departure_datetime row') ≤ date_of (departure_datetime row).
Proof.
  intros Hrun.
  assert (∀ j row, rows !! j = Some row →
            0 < count ∧ Z.of_nat j < count ∧
            ∃ hour minute,
              6 ≤ hour ≤ 22 ∧ 0 ≤ minute ≤ 59 ∧
              departure_datetime row
              = date_of (departure_datetime row) * US_PER_DAY
                + hour * US_PER_HOUR + minute * US_PER_MINUTE ∧
              date_of (departure_datetime row)
              = date_of (clock 0%nat - timedelta_days 730
                         + Z.of_nat j * timedelta_minutes (2 * 365 * 24 * 60 / count)))
    as Hrow.
  { intros j row Hj.
    destruct (generate_trips_lookup _ _ _ _ _ _ _ _ _ Hrun Hj) as (Hpos & Hlt & Hit).
    split; [done|]. split; [done|].
    destruct (trip_iteration_departure _ _ _ _ _ _ _ Hit) as (hour & minute & Hh & Hm & Hdep).
    exists hour, minute.
    assert (date_of (departure_datetime row)
            = date_of (clock 0%nat - timedelta_days 730
                       + Z.of_nat j * timedelta_minutes (2 * 365 * 24 * 60 / count))) as Hdate.
    { rewrite Hdep. apply (date_of_replace_time _ hour minute); lia. }
    split_and!; [lia..| |done]. by rewrite Hdate. }
  assert (0 < count → 0 ≤ 2 * 365 * 24 * 60 / count) as Hstep0.
  { intros Hpos. apply Z.div_pos; lia. }
  intros j row Hj. destruct (Hrow j row Hj) as (Hpos & Hlt & hour & minute & Hh & Hm & Hdep & Hdate).
  split; [by exists hour, minute|]. split.
  - rewrite Hdate. specialize (Hstep0 Hpos).
    assert (Z.of_nat j * (2 * 365 * 24 * 60 / count) ≤ 2 * 365 * 24 * 60) as Hspan.
    { pose proof (Z.mul_div_le (2 * 365 * 24 * 60) count Hpos). nia. }
    split.
    + replace (date_of (clock 0%nat) - 730)
        with (date_of (clock 0%nat - timedelta_days 730)).
      * apply date_of_mono. unfold timedelta_minutes, US_PER_MINUTE. nia.
      * unfold date_of, timedelta_days, US_PER_DAY.
        replace (clock 0%nat - 730 * 86400000000)
          with (clock 0%nat + (-730) * 86400000000) by lia.
        rewrite Z.div_add by lia. lia.
    + apply date_of_mono. unfold timedelta_minutes, timedelta_days, US_PER_MINUTE, US_PER_DAY.
      lia.
  - intros i row' Hij Hi.
    destruct (Hrow i row' Hi) as (_ & _ & _ & _ & _ & _ & _ & Hdate').
    rewrite Hdate, Hdate'. apply date_of_mono. specialize (Hstep0 Hpos).
    unfold timedelta_minutes, US_PER_MINUTE. nia.
Qed.

Lemma generate_trips_departures_witness :
  ∃ rows,
    generate_trips (fun _ => Sample.new_year_2025) (fun _ => Sample.zero_draws)
      Sample.vehicles Sample.drivers Sample.routes 2 = Returned rows ∧
    ∀ j row, rows !! j = Some row →
      (∃ hour minute,
          6 ≤ hour ≤ 22 ∧ 0 ≤ minute ≤ 59 ∧
          departure_datetime row
          = date_of (departure_datetime row) * US_PER_DAY
            + hour * US_PER_HOUR + minute * US_PER_MINUTE) ∧
      date_of Sample.new_year_2025 - 730 ≤ date_of (departure_datetime row)
        ≤ date_of Sample.new_year_2025 ∧
      ∀ i row', (i ≤ j)%nat → rows !! i = Some row' →
                date_of (departure_datetime row') ≤ date_of (departure_datetime row).
Proof.
  eexists. split; [vm_compute; reflexivity|].
  apply (generate_trips_departures (fun _ => Sample.new_year_2025)
           (fun _ => Sample.zero_draws) Sample.vehicles Sample.drivers Sample.routes 2).
  vm_compute. reflexivity.
Defined.

(** X11. Over routes of non-negative distance, a trip of [generate_trips]
    has an arrival exactly when it is completed; the arrival then comes at
    least 51 minutes after the departure and before the reading of the clock
    in that iteration.  No row has an arrival at or before its departure. *)
Theorem generate_trips_arrivals
    (clock : nat → datetime) (draws : nat → trip_draws)
    (vehicles : list (Z * Z * string)) (drivers : list Z) (routes : list (Z * Q * Q))
    (count : Z) (rows : list trip_row) :
  Forall (fun '(_, distance, _) => (0 <= distance)%Q) routes →
  generate_trips clock draws vehicles drivers routes count = Returned rows →
  ∀ j row, rows !! j = Some row →
    match arrival_datetime row with
    | Some arrival =>
        status row = completed ∧
        departure_datetime row + 51 * US_PER_MINUTE ≤ arrival ∧ arrival < clock (S j)
    | None => status row = in_progress
    end.
Proof.
  intros Hdist Hrun j row Hj.
  destruct (generate_trips_lookup _ _ _ _ _ _ _ _ _ Hrun Hj) as (_ & _ & Hit).
  by eapply trip_iteration_arrival.
Qed.

Lemma generate_trips_arrivals_witness :
  ∃ rows,
    generate_trips (fun _ => Sample.new_year_2025) (fun _ => Sample.zero_draws)
      Sample.vehicles Sample.drivers Sample.routes 2 = Returned rows ∧
    ∀ j row, rows !! j = Some row →
      match arrival_datetime row with
      | Some arrival =>
          status row = completed ∧
          departure_datetime row + 51 * US_PER_MINUTE ≤ arrival ∧
          arrival < Sample.new_year_2025
      | None => status row = in_progress
      end.
Proof.
  eexists. split; [vm_compute; reflexivity|].
  apply (generate_trips_arrivals (fun _ => Sample.new_year_2025)
           (fun _ => Sample.zero_draws) Sample.vehicles Sample.drivers Sample.routes 2).
  - repeat constructor. simpl. lra.
  - vm_compute. reflexivity.
Defined.

End TripsFurther.

(** ** [generate_deliveries]: trips, statuses and delivery times *)

Section DeliveriesRows.
Import Deliveries.

Context (lognormal : nat → nat → Q) (clock : nat → datetime) (draws : nat → delivery_draws).

(** The outcome of one delivery: delivered within half an hour of the
    schedule or one to three hours late when the trip has arrived, pending
    otherwise. *)
Lemma delivery_iteration_outcome tid departure arrival total_weight dest_city
    weights gap i counter now d row :
  delivery_iteration (tid, departure, arrival, total_weight, dest_city) weights gap
    i counter now d = Returned row →
  trip_id row = tid ∧
  match arrival with
  | Some _ =>
      delivery_status_ row = delivered ∧
      ∃ minutes,
        (-30 ≤ minutes ≤ 30 ∨ 60 ≤ minutes ≤ 180) ∧
        delivered_datetime row = Some (scheduled_datetime row + minutes * US_PER_MINUTE)
  | None =>
      delivery_status_ row = pending ∧ delivered_datetime row = None ∧
      recipient_signature row = false
  end.
Proof.
  unfold delivery_iteration. destruct (weights !! i) as [w|]; [|done].
  destruct arrival as [arr|]; intros [= <-];
    cbn [trip_id delivery_status_ delivered_datetime scheduled_datetime recipient_signature];
    [|done].
  split; [done|]. split; [done|].
  destruct (flt (random_unit (d_on_time d)) 0.9).
  - exists (randint (-30) 30 (d_minutes d)). split; [|done].
    left. apply randint_range. lia.
  - exists (randint 60 180 (d_minutes d)). split; [|done].
    right. apply randint_range. lia.
Qed.

Lemma deliveries_of_trip_ids tid departure arrival total_weight dest_city weights gap :
  ∀ remaining i counter rows counter' rows',
    deliveries_of_trip clock draws (tid, departure, arrival, total_weight, dest_city)
      weights gap remaining i counter rows = Returned (counter', rows') →
    trip_id <$> rows' = (trip_id <$> rows) ++ replicate remaining tid.
Proof.
  remember (tid, departure, arrival, total_weight, dest_city) as trip eqn:Etrip.
  induction remaining as [|remaining IH]; intros i counter rows counter' rows' Hrun;
    simpl in Hrun.
  - injection Hrun as _ <-. by rewrite app_nil_r.
  - destruct (delivery_iteration _ _ _ _ _ _ _) as [row| |] eqn:Hrow; [|done..].
    rewrite Etrip in Hrow. apply delivery_iteration_outcome in Hrow as [Htid _].
    rewrite (IH _ _ _ _ _ Hrun), fmap_app, <- app_assoc. simpl. by rewrite Htid.
Qed.

Lemma deliveries_loop_ids : ∀ (pairs : list (trip_info * Z)) t counter rows counter' rows',
  deliveries_loop lognormal clock draws pairs t counter rows = Returned (counter', rows') →
  trip_id <$> rows'
  = (trip_id <$> rows)
    ++ concat ((fun '(tid, _, _, _, _, n) => replicate (Z.to_nat n) tid) <$> pairs).
Proof.
  induction pairs as [|[trip n] pairs IH]; intros t counter rows counter' rows' Hrun;
    simpl in Hrun.
  - injection Hrun as _ <-. by rewrite app_nil_r.
  - destruct trip as [[[[tid departure] arrival] total_weight] dest_city].
    destruct (deliveries_of_trip _ _ _ _ _ _ _ _ _) as [[counter1 rows1]| |] eqn:Htrip;
      [|done..].
    rewrite (IH _ _ _ _ _ Hrun), (deliveries_of_trip_ids _ _ _ _ _ _ _ _ _ _ _ _ _ Htrip).
    csimpl. by rewrite <- app_assoc.
Qed.

End DeliveriesRows.

Section DeliveriesFurther.
Import Deliveries.

Lemma generate_deliveries_returns_witness :
  ∃ rows,
    generate_deliveries 10 (fun _ => 0%N) (fun _ _ => 12%Q)
      (fun _ => Sample.new_year_2025) (fun _ => Sample.delivery_zero_draws)
      [Sample.long_trip] 4 = Returned rows ∧
    Z.of_nat (length rows) = 4.
Proof.
  apply (generate_deliveries_returns (fun _ _ => 12%Q)
           (fun _ => Sample.new_year_2025) (fun _ => Sample.delivery_zero_draws)
           10 (fun _ => 0%N) [Sample.long_trip] 4).
  - done.
  - simpl. lia.
  - simpl. lia.
Defined.

(** X13. The deliveries of [generate_deliveries] are written trip by trip,
    in the order of the trips: the column of trip identifiers is the
    identifier of the first trip repeated as many times as that trip has
    deliveries, then the second, and so on, every trip having between 2 and
    6 deliveries. *)
Theorem generate_deliveries_trip_ids
    (fuel : nat) (u : nat → N) (lognormal : nat → nat → Q) (clock : nat → datetime)
    (draws : nat → delivery_draws) (trips : list trip_info) (target : Z)
    (rows : list delivery_row) :
  generate_deliveries fuel u lognormal clock draws trips target = Returned rows →
  ∃ per_trip : list Z,
    length per_trip = length trips ∧
    Forall (fun n => 2 ≤ n ≤ 6) per_trip ∧
    trip_id <$> rows
    = concat ((fun '(tid, _, _, _, _, n) => replicate (Z.to_nat n) tid)
                <$> zip trips per_trip).
Proof.
  unfold generate_deliveries. destruct (length trips) as [|m] eqn:Hm; [done|].
  destruct (Allocator.allocate _ _ _ _) as [per_trip [r| |]] eqn:Halloc; [|done..].
  destruct (allocate_returned_in_bounds _ _ _ _ _ _ Halloc) as [Hbounds Hlen].
  destruct (deliveries_loop _ _ _ _ _ _ _) as [[counter rows']| |] eqn:Hloop; [|done..].
  intros [= <-]. exists per_trip. split; [done|]. split; [exact Hbounds|].
  by rewrite (deliveries_loop_ids _ _ _ _ _ _ _ _ _ Hloop).
Qed.

Lemma generate_deliveries_trip_ids_witness :
  ∃ rows,
    generate_deliveries 10 (fun _ => 0%N) (fun _ _ => 12%Q)
      (fun _ => Sample.new_year_2025) (fun _ => Sample.delivery_zero_draws)
      [Sample.short_trip; Sample.long_trip] 5 = Returned rows ∧
    ∃ per_trip : list Z,
      length per_trip = length [Sample.short_trip; Sample.long_trip] ∧
      Forall (fun n => 2 ≤ n ≤ 6) per_trip ∧
      trip_id <$> rows
      = concat ((fun '(tid, _, _, _, _, n) => replicate (Z.to_nat n) tid)
                  <$> zip [Sample.short_trip; Sample.long_trip] per_trip).
Proof.
  eexists. split; [vm_compute; reflexivity|].
  apply (generate_deliveries_trip_ids 10 (fun _ => 0%N) (fun _ _ => 12%Q)
           (fun _ => Sample.new_year_2025) (fun _ => Sample.delivery_zero_draws)
           [Sample.short_trip; Sample.long_trip] 5).
  vm_compute. reflexivity.
Defined.

(** X14. Every delivery of [generate_deliveries] belongs to a trip of the
    query.  For a trip with an arrival it is [delivered], a whole number of
    minutes away from its schedule: at most 30 minutes before or after, or 60
    to 180 minutes after, never in between.  For a trip without arrival it
    is [pending], without delivery timestamp and without signature. *)
Theorem generate_deliveries_outcomes
    (fuel : nat) (u : nat → N) (lognormal : nat → nat → Q) (clock : nat → datetime)
    (draws : nat → delivery_draws) (trips : list trip_info) (target : Z)
    (rows : list delivery_row) :
  generate_deliveries fuel u lognormal clock draws trips target = Returned rows →
  Forall (fun row =>
            ∃ tid departure arrival total_weight dest_city,
              (tid, departure, arrival, total_weight, dest_city) ∈ trips ∧
              trip_id row = tid ∧
              match arrival with
              | Some _ =>
                  delivery_status_ row = delivered ∧
                  ∃ minutes,
                    (-30 ≤ minutes ≤ 30 ∨ 60 ≤ minutes ≤ 180) ∧
                    delivered_datetime row
                    = Some (scheduled_datetime row + minutes * US_PER_MINUTE)
              | None =>
                  delivery_status_ row = pending ∧ delivered_datetime row = None ∧
                  recipient_signature row = false
              end) rows.
Proof.
  unfold generate_deliveries. destruct (length trips) as [|m] eqn:Hm; [done|].
  destruct (Allocator.allocate _ _ _ _) as [per_trip [r| |]] eqn:Halloc; [|done..].
  destruct (deliveries_loop _ _ _ _ _ _ _) as [[counter rows']| |] eqn:Hloop; [|done..].
  intros [= <-].
  refine (deliveries_loop_inv lognormal clock draws (fun _ rs => Forall _ rs)
            (zip trips per_trip) _ _ _ _ _ _ (Forall_nil_2 _) Hloop).
  intros tid departure arrival total_weight dest_city n weights i c rs row Hin Hi Hrs Hrow.
  apply Forall_app. split; [done|]. constructor; [|done].
  pose proof (elem_of_zip_l _ _ _ _ Hin) as Htrip.
  exists tid, departure, arrival, total_weight, dest_city. split; [done|].
  by eapply delivery_iteration_outcome.
Qed.

Lemma generate_deliveries_outcomes_witness :
  ∃ rows,
    generate_deliveries 10 (fun _ => 0%N) (fun _ _ => 12%Q)
      (fun _ => Sample.new_year_2025) (fun _ => Sample.delivery_zero_draws)
      [Sample.long_trip] 2 = Returned rows ∧
    Forall (fun row =>
              ∃ tid departure arrival total_weight dest_city,
                (tid, departure, arrival, total_weight, dest_city) ∈ [Sample.long_trip] ∧
                trip_id row = tid ∧
                match arrival with
                | Some _ =>
                    delivery_status_ row = delivered ∧
                    ∃ minutes,
                      (-30 ≤ minutes ≤ 30 ∨ 60 ≤ minutes ≤ 180) ∧
                      delivered_datetime row
                      = Some (scheduled_datetime row + minutes * US_PER_MINUTE)
                | None =>
                    delivery_status_ row = pending ∧ delivered_datetime row = None ∧
                    recipient_signature row = false
                end) rows.
Proof.
  eexists. split; [vm_compute; reflexivity|].
  apply (generate_deliveries_outcomes 10 (fun _ => 0%N) (fun _ _ => 12%Q)
           (fun _ => Sample.new_year_2025) (fun _ => Sample.delivery_zero_draws)
           [Sample.long_trip] 2).
  vm_compute. reflexivity.
Defined.

End DeliveriesFurther.

(** ** [generate_maintenance]: termination, size and rows *)

Lemma round2_bounds (x : Q) (lo hi : Z) :
  (inject_Z lo / 100 <= x)%Q → (x <= inject_Z hi / 100)%Q →
  (inject_Z lo / 100 <= round2 x)%Q ∧ (round2 x <= inject_Z hi / 100)%Q.
Proof. intros Hlo Hhi. split; [by apply round2_ge|by apply round2_le]. Qed.

Section MaintenanceRows.
Import Maintenance.

Context (jitter : nat → N) (draws : nat → maintenance_draws).

Lemma draw_threshold_range raw :
  (9700 <= draw_threshold raw)%Q ∧ (draw_threshold raw <= 10300)%Q.
Proof.
  unfold draw_threshold. destruct (uniform_range (-300) 300 raw) as [Hlo Hhi]; [lra|].
  split; lra.
Qed.

(** The row of an event: its date, its type and its cost. *)
Lemma maintenance_event_row vid first_trip last_trip total_km km_cursor d :
  (0 < total_km)%Q → (0 <= km_cursor)%Q → (km_cursor <= total_km)%Q →
  ∃ row,
    maintenance_event vid first_trip last_trip total_km km_cursor d = Returned row ∧
    vehicle_id row = vid ∧
    date_of first_trip ≤ maintenance_date row
      ≤ date_of first_trip + Z.max (days (last_trip - first_trip)) 1 ∧
    ∃ maint_type base_cost days_next,
      (maint_type, base_cost, days_next) ∈ MAINTENANCE_TYPES ∧
      maintenance_type row = maint_type ∧
      description row = (maint_type ++ " programado")%string ∧
      next_maintenance_date row = maintenance_date row + days_next ∧
      (0.85 * inject_Z base_cost <= cost row)%Q ∧
      (cost row <= 1.20 * inject_Z base_cost)%Q.
Proof.
  intros Htot Hkm0 Hkm1. unfold maintenance_event.
  destruct (choice_cons ("Cambio de aceite", 150000, 30) (tail MAINTENANCE_TYPES) (d_type d))
    as ([[maint_type base_cost] days_next] & Hc & Hin).
  change (_ :: tail MAINTENANCE_TYPES) with MAINTENANCE_TYPES in Hc, Hin. rewrite Hc.
  eexists. split; [reflexivity|].
  cbn [vehicle_id maintenance_date maintenance_type description next_maintenance_date cost].
  split; [done|]. split.
  - rewrite date_of_add_days.
    set (span := Z.max (days (last_trip - first_trip)) 1).
    assert (1 ≤ span) as Hspan by (unfold span; lia).
    assert (1 <= inject_Z span)%Q as Hs.
    { change 1%Q with (inject_Z 1). by rewrite <- Zle_Qle. }
    assert (0 <= km_cursor / total_km)%Q as Hf0 by (apply Qle_shift_div_l; [done|lra]).
    assert (km_cursor / total_km <= 1)%Q as Hf1 by (apply Qle_shift_div_r; [done|lra]).
    set (frac := (km_cursor / total_km)%Q) in *. clearbody frac span.
    assert (0 <= frac * inject_Z span)%Q as Hp0 by (apply Qmult_le_0_compat; lra).
    assert (frac * inject_Z span <= inject_Z span)%Q as Hp1 by nra.
    unfold int_of_float. apply Qle_bool_iff in Hp0 as Hb. rewrite Hb.
    assert (0 ≤ Qfloor (frac * inject_Z span)).
    { change 0 with (Qfloor (inject_Z 0)). by apply Qfloor_resp_le. }
    assert (Qfloor (frac * inject_Z span) ≤ span).
    { rewrite <- (Qfloor_Z span) at 2. by apply Qfloor_resp_le. }
    lia.
  - exists maint_type, base_cost, days_next. split; [done|]. do 3 (split; [done|]).
    assert (0 < base_cost) as Hbase.
    { unfold MAINTENANCE_TYPES in Hin. rewrite !elem_of_cons, elem_of_nil in Hin.
      destruct Hin as [H|[H|[H|[H|[H|[H|[]]]]]]]; injection H as _ -> _; lia. }
    assert (0 < inject_Z base_cost)%Q as Hb.
    { change 0%Q with (inject_Z 0). by rewrite <- Zlt_Qlt. }
    destruct (uniform_range 0.85 1.20 (d_cost d)) as [Hlo Hhi]; [lra|].
    set (factor := uniform 0.85 1.20 (d_cost d)) in *. clearbody factor.
    setoid_replace (0.85 * inject_Z base_cost)%Q with (inject_Z (85 * base_cost) / 100)%Q
      using relation Qeq by (rewrite inject_Z_mult; field).
    setoid_replace (1.20 * inject_Z base_cost)%Q with (inject_Z (120 * base_cost) / 100)%Q
      using relation Qeq by (rewrite inject_Z_mult; field).
    apply round2_bounds.
    + setoid_replace (inject_Z (85 * base_cost) / 100)%Q with (inject_Z base_cost * 0.85)%Q
        using relation Qeq by (rewrite inject_Z_mult; field).
      nra.
    + setoid_replace (inject_Z (120 * base_cost) / 100)%Q with (inject_Z base_cost * 1.20)%Q
        using relation Qeq by (rewrite inject_Z_mult; field).
      nra.
Qed.

(** The loop over one vehicle returns, appends at most [budget] rows, and
    every event it appends is reached between 9700 km and the total. *)
Lemma vehicle_loop_returns (P : maintenance_row → Prop) vid first_trip last_trip total_km :
  (0 < total_km)%Q →
  (∀ km_cursor d row,
      (9700 <= km_cursor)%Q → (km_cursor <= total_km)%Q →
      maintenance_event vid first_trip last_trip total_km km_cursor d = Returned row →
      P row) →
  ∀ budget km_cursor next_threshold q rows,
    (0 <= km_cursor)%Q → (9700 <= next_threshold)%Q → Forall P rows →
    ∃ q' rows',
      vehicle_loop jitter draws vid first_trip last_trip total_km
        budget km_cursor next_threshold q rows = Returned (q', rows') ∧
      (length rows ≤ length rows' ≤ length rows + budget)%nat ∧ Forall P rows'.
Proof.
  intros Htot Hevent. induction budget as [|budget IH];
    intros km_cursor next_threshold q rows Hkm Hth Hrows; simpl.
  - exists q, rows. split_and!; [done|lia|lia|done].
  - destruct (Qle_bool _ total_km) eqn:Hguard; [|exists q, rows; split_and!; [done|lia|lia|done]].
    apply Qle_bool_iff in Hguard.
    destruct (maintenance_event_row vid first_trip last_trip total_km
                (km_cursor + next_threshold) (draws (length rows)) Htot)
      as (row & Hrow & _); [lra|done|].
    rewrite Hrow.
    destruct (IH (km_cursor + next_threshold)%Q (draw_threshold (jitter q)) (S q)
                (rows ++ [row])) as (q' & rows' & -> & Hlen & Hall).
    + lra.
    + apply draw_threshold_range.
    + apply Forall_app. split; [done|]. constructor; [|done].
      eapply Hevent; [| |exact Hrow]; lra.
    + exists q', rows'. split; [done|]. rewrite length_app in Hlen. simpl in Hlen.
      split; [lia|done].
Qed.

Lemma maintenance_loop_returns (P : maintenance_row → Prop) :
  ∀ stats : list vehicle_stats,
    (∀ vid vtype trip_count first_trip last_trip total_km km_cursor d row,
        (vid, vtype, trip_count, Some first_trip, Some last_trip, total_km) ∈ stats →
        (9700 <= km_cursor)%Q → (km_cursor <= total_km)%Q →
        maintenance_event vid first_trip last_trip total_km km_cursor d = Returned row →
        P row) →
    ∀ target q rows,
      Forall P rows →
      ∃ rows',
        maintenance_loop jitter draws stats target q rows = Returned rows' ∧
        (length rows' ≤ Nat.max (length rows) (Z.to_nat target))%nat ∧ Forall P rows'.
Proof.
  induction stats as [|[[[[[vid vtype] trip_count] first_trip] last_trip] total_km] stats IH];
    intros Hevent target q rows Hrows; simpl.
  - exists rows. split_and!; [done|lia|done].
  - assert (∀ q0 rows0, Forall P rows0 →
              ∃ rows', maintenance_loop jitter draws stats target q0 rows0 = Returned rows' ∧
                       (length rows' ≤ Nat.max (length rows0) (Z.to_nat target))%nat ∧
                       Forall P rows') as Hnext.
    { intros q0 rows0. apply IH. intros. eapply Hevent; [by right|done..]. }
    destruct first_trip as [first_trip|]; [|by apply Hnext].
    destruct last_trip as [last_trip|]; [|by apply Hnext].
    destruct (Qle_bool total_km 0) eqn:Hkm; [by apply Hnext|].
    assert (0 < total_km)%Q as Hpos.
    { destruct (Qlt_le_dec 0 total_km) as [|Hle]; [done|].
      apply Qle_bool_iff in Hle. congruence. }
    destruct (vehicle_loop_returns P vid first_trip last_trip total_km Hpos) with
      (budget := Z.to_nat (target - Z.of_nat (length rows))) (km_cursor := 0%Q)
      (next_threshold := draw_threshold (jitter q)) (q := S q) (rows := rows)
      as (q1 & rows1 & -> & Hlen1 & Hrows1).
    + intros km_cursor d row Hk0 Hk1 Hrow. eapply Hevent; [by left|done..].
    + lra.
    + apply draw_threshold_range.
    + done.
    + destruct (target <=? Z.of_nat (length rows1)) eqn:Hfull.
      * exists rows1. split_and!; [done|lia|done].
      * apply Z.leb_gt in Hfull.
        destruct (Hnext q1 rows1 Hrows1) as (rows' & -> & Hlen' & Hall).
        exists rows'. split_and!; [done|lia|done].
Qed.

End MaintenanceRows.

Section MaintenanceFurther.
Import Maintenance.

(** X15. [generate_maintenance(target)] never fails and writes at most
    [target] rows, none for a [target] of zero or less; the loops stop at
    [target] by themselves, the slice [rows[:target]] of line 668 cuts
    nothing. *)
Theorem generate_maintenance_size
    (jitter : nat → N) (draws : nat → maintenance_draws)
    (stats : list vehicle_stats) (target : Z) :
  ∃ rows,
    generate_maintenance jitter draws stats target = Returned rows ∧
    maintenance_loop jitter draws stats target 0 [] = Returned rows ∧
    (length rows ≤ Z.to_nat target)%nat.
Proof.
  destruct (maintenance_loop_returns jitter draws (fun _ => True) stats
              ltac:(done) target 0%nat [] ltac:(constructor))
    as (rows & Hloop & Hlen & _).
  simpl in Hlen. exists rows. unfold generate_maintenance. rewrite Hloop.
  split; [|split; [done|lia]]. f_equal. unfold slice_to.
  destruct (0 <=? target) eqn:Ht.
  - apply take_ge. lia.
  - apply Z.leb_gt in Ht. destruct rows; [done|simpl in Hlen; lia].
Qed.

(** X16. Every row of [generate_maintenance] belongs to a vehicle of the
    statistics that has both trip timestamps and at least 9700 km in total.
    It is dated from the day of the first trip on, at most
    [max((last_trip - first_trip).days, 1)] days later; its type is one of
    [MAINTENANCE_TYPES], the description is the type followed by
    [programado], the next maintenance falls the number of days of that type
    later, and the cost lies between 0.85 and 1.20 times the base cost of
    the type. *)
Theorem generate_maintenance_rows
    (jitter : nat → N) (draws : nat → maintenance_draws)
    (stats : list vehicle_stats) (target : Z) :
  ∃ rows,
    generate_maintenance jitter draws stats target = Returned rows ∧
    Forall (fun row =>
              (∃ vtype trip_count first_trip last_trip total_km,
                  (vehicle_id row, vtype, trip_count, Some first_trip, Some last_trip,
                   total_km) ∈ stats ∧
                  (9700 <= total_km)%Q ∧
                  date_of first_trip ≤ maintenance_date row
                    ≤ date_of first_trip + Z.max (days (last_trip - first_trip)) 1) ∧
              (∃ maint_type base_cost days_next,
                  (maint_type, base_cost, days_next) ∈ MAINTENANCE_TYPES ∧
                  maintenance_type row = maint_type ∧
                  description row = (maint_type ++ " programado")%string ∧
                  next_maintenance_date row = maintenance_date row + days_next ∧
                  (0.85 * inject_Z base_cost <= cost row)%Q ∧
                  (cost row <= 1.20 * inject_Z base_cost)%Q)) rows.
Proof.
  destruct (maintenance_loop_returns jitter draws
              (fun row =>
                 (∃ vtype trip_count first_trip last_trip total_km,
                     (vehicle_id row, vtype, trip_count, Some first_trip, Some last_trip,
                      total_km) ∈ stats ∧
                     (9700 <= total_km)%Q ∧
                     date_of first_trip ≤ maintenance_date row
                       ≤ date_of first_trip + Z.max (days (last_trip - first_trip)) 1) ∧
                 (∃ maint_type base_cost days_next,
                     (maint_type, base_cost, days_next) ∈ MAINTENANCE_TYPES ∧
                     maintenance_type row = maint_type ∧
                     description row = (maint_type ++ " programado")%string ∧
                     next_maintenance_date row = maintenance_date row + days_next ∧
                     (0.85 * inject_Z base_cost <= cost row)%Q ∧
                     (cost row <= 1.20 * inject_Z base_cost)%Q))
              stats) with (target := target) (q := 0%nat) (rows := @nil maintenance_row)
    as (rows & Hloop & _ & Hall).
  - intros vid vtype trip_count first_trip last_trip total_km km_cursor d row
      Hin Hk0 Hk1 Hrow.
    destruct (maintenance_event_row vid first_trip last_trip total_km km_cursor d)
      as (row' & Hrow' & Hvid & Hdate & Htype); [lra..|].
    rewrite Hrow in Hrow'. injection Hrow' as <-. split; [|exact Htype].
    exists vtype, trip_count, first_trip, last_trip, total_km. rewrite Hvid.
    split; [done|]. split; [lra|done].
  - constructor.
  - unfold generate_maintenance. rewrite Hloop. eexists. split; [reflexivity|].
    unfold slice_to. destruct (0 <=? target); by apply Forall_take.
Qed.

Lemma maintenance_dates_within_span_witness :
  ∃ rows,
    generate_maintenance (fun _ => Sample.half) (fun _ => Sample.maintenance_zero_draws)
      [Sample.two_month_vehicle] 5000 = Returned rows ∧
    Forall (fun row =>
              ∃ vid vtype trip_count first_trip last_trip total_km,
                (vid, vtype, trip_count, Some first_trip, Some last_trip, total_km)
                  ∈ [Sample.two_month_vehicle] ∧
                vehicle_id row = vid ∧
                (1 ≤ days (last_trip - first_trip) →
                 date_of first_trip ≤ maintenance_date row ≤ date_of last_trip)) rows.
Proof.
  eexists. split; [vm_compute; reflexivity|].
  apply (maintenance_dates_within_span (fun _ => Sample.half)
           (fun _ => Sample.maintenance_zero_draws) [Sample.two_month_vehicle] 5000).
  vm_compute. reflexivity.
Defined.

End MaintenanceFurther.

(** ** WeightDistributor: the largest share *)

Lemma fsum_ge_elem (l : list Q) (x : Q) :
  Forall (fun y => 0 <= y)%Q l → x ∈ l → (x <= fsum l)%Q.
Proof.
  unfold fsum. induction 1 as [|y l Hy Hl IH]; intros Hx.
  - by apply elem_of_nil in Hx.
  - assert (0 <= foldr Qplus 0 l)%Q as Hsum.
    { clear IH Hx. induction Hl as [|z l Hz _ IH]; simpl; lra. }
    apply elem_of_cons in Hx as [->|Hx]; simpl; [lra|]. specialize (IH Hx). lra.
Qed.

(** X17. No package of [_distribute_weight_lognormal] weighs more than 0.95
    times the total weight, and a single package weighs exactly that. *)
Theorem distribute_weight_share (draw : nat → Q) (total_weight : Q) (num_packages : nat) :
  (0 <= total_weight)%Q →
  Forall (fun w => w <= 0.95 * total_weight)%Q
    (_distribute_weight_lognormal draw total_weight num_packages) ∧
  (num_packages = 1%nat →
   ∃ w, _distribute_weight_lognormal draw total_weight num_packages = [w] ∧
        (w == 0.95 * total_weight)%Q).
Proof.
  intros HQ. split.
  - unfold _distribute_weight_lognormal.
    pose proof (clipped_floor draw num_packages) as Hraw.
    set (raw := clip_min 0.5 <$> (draw <$> seq 0 num_packages)) in *. clearbody raw.
    apply Forall_fmap. apply Forall_forall. intros r Hr.
    unfold compose. cbv beta.
    assert (0.5 <= r)%Q as Hr5 by (rewrite Forall_forall in Hraw; by apply Hraw).
    assert (r <= fsum raw)%Q as Hle.
    { apply fsum_ge_elem; [|done]. eapply Forall_impl; [exact Hraw|]. intros y Hy.
      cbv beta in Hy. lra. }
    assert (r / fsum raw <= 1)%Q as Hfrac by (apply Qle_shift_div_r; lra).
    set (f := (r / fsum raw)%Q) in *. clearbody f. nra.
  - intros ->. unfold _distribute_weight_lognormal. simpl. eexists. split; [reflexivity|].
    pose proof (clip_min_ge 0.5 (draw 0%nat)) as Hc.
    set (r := clip_min 0.5 (draw 0%nat)) in *. clearbody r. field. lra.
Qed.

Lemma distribute_weight_share_witness :
  Forall (fun w => w <= 0.95 * 1000)%Q (_distribute_weight_lognormal (fun _ => 12%Q) 1000 1) ∧
  (1%nat = 1%nat →
   ∃ w, _distribute_weight_lognormal (fun _ => 12%Q) 1000 1 = [w] ∧ (w == 0.95 * 1000)%Q).
Proof. apply (distribute_weight_share (fun _ => 12%Q) 1000 1). lra. Defined.

(** ** [transform_data]: the quality filters *)

Lemma round_half_even_Z (x : Q) (m : Z) : (x == inject_Z m)%Q → round_half_even x = m.
Proof.
  intros Hx. apply Z.le_antisymm.
  - apply round_half_even_le. lra.
  - apply round_half_even_ge. lra.
Qed.

Section EtlProofs.
Import Etl.

Lemma minutes_between_whole (scheduled : datetime) (minutes : Z) :
  ∃ x, minutes_between (Some scheduled) (Some (scheduled + minutes * US_PER_MINUTE)) = Some x ∧
       (x == inject_Z minutes)%Q.
Proof.
  unfold minutes_between. eexists. split; [reflexivity|].
  replace (scheduled + minutes * US_PER_MINUTE - scheduled) with (minutes * US_PER_MINUTE) by lia.
  unfold round2. rewrite (round_half_even_Z _ (minutes * 100)).
  - rewrite inject_Z_mult. field.
  - unfold total_seconds, US_PER_MINUTE. rewrite !inject_Z_mult. field.
Qed.

Lemma clamp_delay_nonneg (x : Q) : (0 <= x)%Q → (clamp_delay (Some x) == x)%Q.
Proof.
  intros Hx. unfold clamp_delay, Deliveries.flt.
  destruct (Qle_bool x 0) eqn:E; simpl; [|reflexivity].
  apply Qle_bool_iff in E. lra.
Qed.

Lemma filter_sublist {A : Type} (f : A → bool) (l : list A) : sublist (List.filter f l) l.
Proof.
  induction l as [|x l IH]; simpl; [constructor|].
  destruct (f x); by constructor.
Qed.

Lemma filter_filter_length {A : Type} (f g : A → bool) (l : list A) :
  (length (List.filter f (List.filter g l)) ≤ length (List.filter f l))%nat.
Proof.
  induction l as [|x l IH]; simpl; [lia|].
  destruct (g x), (f x) eqn:Ef; simpl; rewrite ?Ef; simpl; lia.
Qed.

Lemma filter_fmap_length {A B : Type} (f : B → bool) (g : A → B) (l : list A) :
  length (List.filter f (g <$> l)) = length (List.filter (fun x => f (g x)) l).
Proof.
  induction l as [|x l IH]; csimpl; [done|]. destruct (f (g x)); simpl; lia.
Qed.

(** X18. Every row that [transform_data] keeps comes from a row of the
    frame, in the order of the frame; it has both timestamps, a delivery
    time of zero or more, which is also its delay (the clamp at zero acts on
    dropped rows only), it is on time exactly when that time is at most 30
    minutes, and its weight is known and strictly between 0 and 10000. *)
Theorem transform_data_rows (df : list extracted_row) :
  sublist (extracted <$> transform_data df) df ∧
  Forall (fun t =>
            (∃ scheduled delivered,
                scheduled_datetime (extracted t) = Some scheduled ∧
                delivered_datetime (extracted t) = Some delivered) ∧
            (∃ x, delivery_time_minutes t = Some x ∧ (0 <= x)%Q ∧
                  (delay_minutes t == x)%Q ∧ is_on_time t = Qle_bool x 30) ∧
            (∃ w, package_weight_kg (extracted t) = Some w ∧ (0 < w)%Q ∧ (w < 10000)%Q))
         (transform_data df).
Proof.
  unfold transform_data. split.
  - etrans; [apply fmap_sublist, filter_sublist|].
    etrans; [apply fmap_sublist, filter_sublist|].
    rewrite <- list_fmap_compose.
    assert (∀ df0 l : list extracted_row, extracted ∘ metrics df0 <$> l = l) as Hid.
    { intros df0 l. induction l as [|r l IH]; [done|]. csimpl. by rewrite IH. }
    by rewrite Hid.
  - apply Forall_forall. intros t Ht.
    apply list_elem_of_In, filter_In in Ht as [Ht Hw].
    apply filter_In in Ht as [Ht Htime]. apply list_elem_of_In in Ht.
    apply list_elem_of_fmap in Ht as (r & -> & Hr).
    unfold time_ok, weight_ok, metrics in *.
    cbn [extracted delivery_time_minutes delay_minutes is_on_time] in *.
    unfold minutes_between in *.
    destruct (delivered_datetime r) as [delivered|]; [|done].
    destruct (scheduled_datetime r) as [scheduled|]; [|done].
    apply Qle_bool_iff in Htime. split_and!.
    + by eexists _, _.
    + eexists. split; [reflexivity|]. split; [done|].
      pose proof (clamp_delay_nonneg _ Htime) as Hclamp. split; [done|].
      by rewrite Hclamp.
    + destruct (package_weight_kg r) as [w|]; [|done].
      apply andb_prop in Hw as [H0 H1]. unfold Deliveries.flt in H0, H1.
      apply negb_true_iff in H0, H1.
      exists w. split; [done|]. split.
      * destruct (Qlt_le_dec 0 w) as [|Hle]; [done|].
        apply Qle_bool_iff in Hle. congruence.
      * destruct (Qlt_le_dec w 10000) as [|Hle]; [done|].
        apply Qle_bool_iff in Hle. congruence.
Qed.

(** X19. [deliveries_in_trip] counts the deliveries of the trip in the
    frame before the quality filters: it is at least 1 on every row kept,
    and at least the number of rows of that trip that are kept. *)
Theorem transform_data_deliveries_in_trip (df : list extracted_row) :
  Forall (fun t =>
            (1 ≤ deliveries_in_trip t)%nat ∧
            (length (List.filter
                       (fun t' => Z.eqb (trip_id (extracted t')) (trip_id (extracted t)))
                       (transform_data df))
             ≤ deliveries_in_trip t)%nat)
         (transform_data df).
Proof.
  apply Forall_forall. intros t Ht.
  assert (t ∈ metrics df <$> df) as Hin.
  { unfold transform_data in Ht.
    apply list_elem_of_In, filter_In in Ht as [Ht _]. apply filter_In in Ht as [Ht _].
    by apply list_elem_of_In. }
  apply list_elem_of_fmap in Hin as (r & -> & Hr).
  cbn [deliveries_in_trip extracted metrics]. unfold group_size. split.
  - apply list_elem_of_In in Hr.
    assert (In r (List.filter (fun r' => trip_id r' =? trip_id r) df)) as Hf.
    { apply filter_In. split; [done|]. apply Z.eqb_refl. }
    destruct (List.filter _ df); [done|simpl; lia].
  - unfold transform_data.
    etrans; [apply filter_filter_length|]. etrans; [apply filter_filter_length|].
    by rewrite filter_fmap_length.
Qed.

End EtlProofs.

Section EtlOnGenerated.
Import Deliveries.

(** X20. The deliveries of [generate_deliveries] under the metrics of
    [transform_data]: a delivered row has a delivery time of a whole number
    of minutes, from -30 to 30 or from 60 to 180; it is on time exactly when
    that number is at most 30, and it passes the filter on the delivery time
    exactly when the number is not negative, so that the deliveries made
    before their schedule are dropped.  A pending row has no delivery
    time. *)
Theorem generated_delivery_time
    (fuel : nat) (u : nat → N) (lognormal : nat → nat → Q) (clock : nat → datetime)
    (draws : nat → delivery_draws) (trips : list trip_info) (target : Z)
    (rows : list delivery_row) :
  generate_deliveries fuel u lognormal clock draws trips target = Returned rows →
  Forall (fun row =>
            match delivered_datetime row with
            | Some delivered_at =>
                ∃ minutes x,
                  (-30 ≤ minutes ≤ 30 ∨ 60 ≤ minutes ≤ 180) ∧
                  Etl.minutes_between (Some (scheduled_datetime row)) (Some delivered_at)
                  = Some x ∧
                  (x == inject_Z minutes)%Q ∧
                  Qle_bool (Etl.clamp_delay (Some x)) 30 = (minutes <=? 30) ∧
                  Qle_bool 0 x = (0 <=? minutes)
            | None =>
                delivery_status_ row = pending ∧
                Etl.minutes_between (Some (scheduled_datetime row)) None = None
            end) rows.
Proof.
  unfold generate_deliveries. destruct (length trips) as [|m] eqn:Hm; [done|].
  destruct (Allocator.allocate _ _ _ _) as [per_trip [r| |]] eqn:Halloc; [|done..].
  destruct (deliveries_loop _ _ _ _ _ _ _) as [[counter rows']| |] eqn:Hloop; [|done..].
  intros [= <-].
  refine (deliveries_loop_inv lognormal clock draws (fun _ rs => Forall _ rs)
            (zip trips per_trip) _ _ _ _ _ _ (Forall_nil_2 _) Hloop).
  intros tid departure arrival total_weight dest_city n weights i c rs row Hin Hi Hrs Hrow.
  apply Forall_app. split; [done|]. constructor; [|done].
  apply delivery_iteration_outcome in Hrow as [_ Hrow].
  destruct arrival as [arr|].
  - destruct Hrow as (_ & minutes & Hrange & ->).
    destruct (minutes_between_whole (scheduled_datetime row) minutes) as (x & Hx & Heq).
    exists minutes, x. split; [done|]. split; [done|]. split; [done|].
    assert (Qle_bool 0 x = (0 <=? minutes)) as Hkeep.
    { destruct (0 <=? minutes) eqn:E.
      - apply Z.leb_le in E. apply Qle_bool_iff. rewrite Heq.
        change 0%Q with (inject_Z 0). by rewrite <- Zle_Qle.
      - apply Z.leb_gt in E. destruct (Qle_bool 0 x) eqn:E'; [|done].
        apply Qle_bool_iff in E'. rewrite Heq in E'.
        change 0%Q with (inject_Z 0) in E'. rewrite <- Zle_Qle in E'. lia. }
    split; [|done].
    assert (Etl.clamp_delay (Some x) == inject_Z (Z.max 0 minutes))%Q as Hdelay.
    { unfold Etl.clamp_delay, flt. destruct (Qle_bool x 0) eqn:E; simpl.
      - apply Qle_bool_iff in E. rewrite Heq in E.
        change 0%Q with (inject_Z 0) in E. rewrite <- Zle_Qle in E.
        by rewrite Z.max_l by lia.
      - assert (¬ minutes ≤ 0) as Hpos.
        { intros Hle. rewrite Zle_Qle in Hle. change (inject_Z 0) with 0%Q in Hle.
          rewrite <- Heq in Hle. apply Qle_bool_iff in Hle. congruence. }
        by rewrite Z.max_r by lia. }
    rewrite Hdelay. destruct (minutes <=? 30) eqn:E.
    + apply Z.leb_le in E. apply Qle_bool_iff.
      change 30%Q with (inject_Z 30). rewrite <- Zle_Qle. lia.
    + apply Z.leb_gt in E. destruct (Qle_bool _ 30) eqn:E'; [|done].
      apply Qle_bool_iff in E'. change 30%Q with (inject_Z 30) in E'.
      rewrite <- Zle_Qle in E'. lia.
  - destruct Hrow as (Hst & -> & _). by split.
Qed.

Lemma generated_delivery_time_witness :
  ∃ rows,
    generate_deliveries 10 (fun _ => 0%N) (fun _ _ => 12%Q)
      (fun _ => Sample.new_year_2025) (fun _ => Sample.delivery_zero_draws)
      [Sample.long_trip] 2 = Returned rows ∧
    Forall (fun row =>
              match delivered_datetime row with
              | Some delivered_at =>
                  ∃ minutes x,
                    (-30 ≤ minutes ≤ 30 ∨ 60 ≤ minutes ≤ 180) ∧
                    Etl.minutes_between (Some (scheduled_datetime row)) (Some delivered_at)
                    = Some x ∧
                    (x == inject_Z minutes)%Q ∧
                    Qle_bool (Etl.clamp_delay (Some x)) 30 = (minutes <=? 30) ∧
                    Qle_bool 0 x = (0 <=? minutes)
              | None =>
                  delivery_status_ row = pending ∧
                  Etl.minutes_between (Some (scheduled_datetime row)) None = None
              end) rows.
Proof.
  eexists. split; [vm_compute; reflexivity|].
  apply (generated_delivery_time 10 (fun _ => 0%N) (fun _ _ => 12%Q)
           (fun _ => Sample.new_year_2025) (fun _ => Sample.delivery_zero_draws)
           [Sample.long_trip] 2).
  vm_compute. reflexivity.
Defined.

End EtlOnGenerated.

(* ====================================================================== *)
(** * Part IV. Two runs of the generator                                    *)
(* ====================================================================== *)


Section TripsAcrossClocks.
Import Trips.

Context (vehicles : list (Z * Z * string)) (drivers : list Z) (routes : list (Z * Q * Q)).



End TripsAcrossClocks.

Section DeliveriesAcrossClocks.
Import Deliveries.

Context (lognormal : nat → nat → Q) (clock1 clock2 : nat → datetime)
  (draws : nat → delivery_draws).





End DeliveriesAcrossClocks.

Section TwoRuns.
Import Trips Deliveries.



End TwoRuns.
